(** * USX parser of bible-api: a shallow embedding and its properties

    The development follows [src/usfm-parser/usx-parser.ts].  The parser
    receives a DOM produced by the XML parser of the host ([DOMParser]);
    the embedding starts at that DOM: a document is the tree below its
    [documentElement].

    Conventions of the model.
    - A JavaScript string is a [string]: a sequence of code units below
      256.  The white space class of [String.prototype.trim], of [\s] and
      of [parseInt] is, on that range, the seven code units of
      [isWhiteSpace].
    - A JavaScript number that holds an integer is a [Z]; [NaN] is a
      value of its own.  Rounding of integers beyond 2^53 is not modelled.
    - Nodes are text, CDATA sections, comments and elements; processing
      instructions are left out.  Elements carry no namespace prefix, hence
      [nodeName] is the tag name, and [node instanceof Element] holds of
      the elements of the document.
    - Generators are modelled by the lists they yield.  The only effects of
      the parser (the note counter and the footnotes of the chapter under
      construction) are threaded through a [State]. *)

From Stdlib Require Import String Ascii List ZArith Lia Bool Arith.

Set Warnings "-register-all".
Import ListNotations.
Open Scope string_scope.
Open Scope nat_scope.
Open Scope list_scope.

(** ** JavaScript string primitives *)

Module Js.

(** White space of ECMAScript restricted to code units below 256:
    TAB, LF, VT, FF, CR, SPACE and NBSP. *)
Definition isWhiteSpace (c : ascii) : bool :=
  let n := nat_of_ascii c in
  ((9 <=? n) && (n <=? 13)) || (n =? 32) || (n =? 160).

Definition isDigit (c : ascii) : bool :=
  let n := nat_of_ascii c in (48 <=? n) && (n <=? 57).

Definition isEmpty (s : string) : bool :=
  match s with EmptyString => true | String _ _ => false end.

(** [text.replace(/\s+/g, ' ')], scanned left to right; [inRun] tells
    that the previous code unit belonged to the run being replaced. *)
Fixpoint collapse (inRun : bool) (s : string) : string :=
  match s with
  | EmptyString => EmptyString
  | String c s' =>
      if isWhiteSpace c
      then (if inRun then collapse true s' else String " " (collapse true s'))
      else String c (collapse false s')
  end.

Fixpoint trimStart (s : string) : string :=
  match s with
  | EmptyString => EmptyString
  | String c s' => if isWhiteSpace c then trimStart s' else s
  end.

Fixpoint trimEnd (s : string) : string :=
  match s with
  | EmptyString => EmptyString
  | String c s' =>
      let r := trimEnd s' in
      if isWhiteSpace c && isEmpty r then EmptyString else String c r
  end.

(** [String.prototype.trim]. *)
Definition trim (s : string) : string := trimEnd (trimStart s).

(** A JavaScript number as the parser meets it. *)
Inductive number : Type :=
| NaN
| Int (z : Z).

Definition digitValue (c : ascii) : Z := Z.of_nat (nat_of_ascii c - 48).

Open Scope Z_scope.

(** Value of the longest prefix of decimal digits, [None] when the prefix
    is empty; [acc] is the value read so far, [seen] whether a digit was. *)
Fixpoint digitsPrefix (acc : Z) (seen : bool) (s : string) : option Z :=
  match s with
  | EmptyString => if seen then Some acc else None
  | String c s' =>
      if isDigit c then digitsPrefix (10 * acc + digitValue c) true s'
      else if seen then Some acc else None
  end.

(** [parseInt(s, 10)]: leading white space, an optional sign, digits. *)
Definition parseInt (s : string) : number :=
  let s1 := trimStart s in
  let '(neg, s2) :=
    match s1 with
    | String "-" r => (true, r)
    | String "+" r => (false, r)
    | _ => (false, s1)
    end in
  match digitsPrefix 0 false s2 with
  | None => NaN
  | Some v => Int (if neg then - v else v)
  end.

Close Scope Z_scope.

(** [a || b] on a nullable string: [b] when [a] is null or empty. *)
Definition orElse (a : option string) (b : string) : string :=
  match a with
  | Some (String c r) => String c r
  | _ => b
  end.

(** [a || null] on a nullable string. *)
Definition orNull (a : option string) : option string :=
  match a with
  | Some (String c r) => Some (String c r)
  | _ => None
  end.

(** [xs.join(sep)]. *)
Fixpoint join (sep : string) (xs : list string) : string :=
  match xs with
  | [] => ""
  | [x] => x
  | x :: rest => (x ++ sep ++ join sep rest)%string
  end.

End Js.

(** ** The DOM *)

Inductive Node : Type :=
| Text (data : string)
| CData (data : string)
| Comment (data : string)
| Element (name : string) (attributes : list (string * string))
          (children : list Node).

Definition nodeName (n : Node) : string :=
  match n with
  | Text _ => "#text"
  | CData _ => "#cdata-section"
  | Comment _ => "#comment"
  | Element name _ _ => name
  end.

Definition isElement (n : Node) : bool :=
  match n with Element _ _ _ => true | _ => false end.

(** [node.nodeType === NodeType.Text]; a CDATA section has type 4. *)
Definition isTextNode (n : Node) : bool :=
  match n with Text _ => true | _ => false end.

Definition childNodes (n : Node) : list Node :=
  match n with Element _ _ kids => kids | _ => [] end.

Fixpoint lookupAttr (key : string) (attrs : list (string * string))
  : option string :=
  match attrs with
  | [] => None
  | (k, v) :: rest => if String.eqb k key then Some v else lookupAttr key rest
  end.

Definition getAttribute (key : string) (n : Node) : option string :=
  match n with
  | Element _ attrs _ => lookupAttr key attrs
  | _ => None
  end.

Definition hasAttribute (key : string) (n : Node) : bool :=
  match getAttribute key n with Some _ => true | None => false end.

(** Descendant text content: the data of the text and CDATA descendants,
    in tree order. *)
Fixpoint descendantText (n : Node) : string :=
  match n with
  | Text d => d
  | CData d => d
  | Comment _ => ""
  | Element _ _ kids =>
      (fix go (l : list Node) : string :=
         match l with
         | [] => ""
         | k :: l' => (descendantText k ++ go l')%string
         end) kids
  end.

(** [node.textContent]. *)
Definition textContent (n : Node) : string :=
  match n with
  | Comment d => d
  | _ => descendantText n
  end.

(** The descendants of a node in tree order, the node excluded. *)
Fixpoint descendants (n : Node) : list Node :=
  match n with
  | Element _ _ kids =>
      (fix go (l : list Node) : list Node :=
         match l with
         | [] => []
         | k :: l' => k :: descendants k ++ go l'
         end) kids
  | _ => []
  end.

Definition querySelectorAll (sel : Node -> bool) (root : Node) : list Node :=
  filter sel (descendants root).

Definition querySelector (sel : Node -> bool) (root : Node) : option Node :=
  hd_error (querySelectorAll sel root).

(** The selector [name[key]]. *)
Definition selHasAttr (name key : string) (n : Node) : bool :=
  isElement n && String.eqb (nodeName n) name && hasAttribute key n.

(** The selector [name[key="value"]]. *)
Definition selAttrIs (name key value : string) (n : Node) : bool :=
  isElement n && String.eqb (nodeName n) name &&
  match getAttribute key n with
  | Some v => String.eqb v value
  | None => false
  end.

(** ** The parse tree ([./types]) *)

(** An inline item: a plain string, an object with a [text] field
    ([Text], with the optional [poem] and [wordsOfJesus]; the latter is
    [true] or absent), or an object with a [noteId] field (a
    [FootnoteReference], which the poem wrapper extends with [poem]). *)
Inductive InlineItem : Type :=
| IString (s : string)
| IText (text : string) (poem : option nat) (wordsOfJesus : bool)
| INoteRef (noteId : nat) (poem : option nat).

Record Reference : Type := mkReference {
  ref_chapter : Js.number;
  ref_verse : Js.number
}.

Record Footnote : Type := mkFootnote {
  noteId : nat;
  caller : option string;
  text : string;
  reference : Reference
}.

Inductive ChapterContent : Type :=
| Heading (content : list string)
| LineBreak
| HebrewSubtitle (content : list InlineItem)
| Verse (number : Js.number) (content : list InlineItem).

Record Chapter : Type := mkChapter {
  chapter_number : Js.number;
  chapter_content : list ChapterContent;
  chapter_footnotes : list Footnote
}.

Inductive RootContent : Type :=
| RootChapter (chapter : Chapter)
| RootHeading (content : list string).

Record ParseTree : Type := mkParseTree {
  tree_id : string;
  tree_header : option string;
  tree_title : option string;
  tree_content : list RootContent
}.

(** The two [throw]s of [parse]. *)
Inductive ParseError : Type :=
| NoBookElement
| NoBookCode.

(** ** Content helpers *)

(** [trimText]. *)
Definition trimText (s : string) : string := Js.collapse false s.

Definition sameOptNat (a b : option nat) : bool :=
  match a, b with
  | None, None => true
  | Some x, Some y => Nat.eqb x y
  | _, _ => false
  end.

(** [hasSameFormatting], on the fields of two text objects. *)
Definition hasSameFormatting (p1 : option nat) (w1 : bool)
                             (p2 : option nat) (w2 : bool) : bool :=
  sameOptNat p1 p2 && Bool.eqb w1 w2.

(** [addOrJoin]: the array after the call. *)
Definition addOrJoin (array : list InlineItem) (value : InlineItem)
  : list InlineItem :=
  match array with
  | [] => [value]
  | _ =>
      match last array value, value with
      | IString a, IString b =>
          removelast array ++ [IString (a ++ b)]
      | IText a p w, IText b p' w' =>
          if hasSameFormatting p w p' w'
          then removelast array ++ [IText (a ++ b) p w]
          else array ++ [value]
      | _, _ => array ++ [value]
      end
  end.

(** The loops [for (let content of ...) addOrJoin(array, content)]. *)
Definition addOrJoinAll (items : list InlineItem) : list InlineItem :=
  fold_left addOrJoin items [].

(** [trimContent]: every string and text entry is trimmed in place and
    spliced out when it became empty; the index does not advance after a
    splice, so each entry is visited once. *)
Fixpoint trimContent (content : list InlineItem) : list InlineItem :=
  match content with
  | [] => []
  | IString s :: rest =>
      let s' := Js.trim (trimText s) in
      if Js.isEmpty s' then trimContent rest else IString s' :: trimContent rest
  | IText t p w :: rest =>
      let t' := Js.trim (trimText t) in
      if Js.isEmpty t' then trimContent rest else IText t' p w :: trimContent rest
  | INoteRef n p :: rest => INoteRef n p :: trimContent rest
  end.

Definition styleIs (style : option string) (v : string) : bool :=
  match style with
  | Some s => String.eqb s v
  | None => false
  end.

Definition isSectionStyle (style : option string) : bool :=
  styleIs style "s1" || styleIs style "s2" ||
  styleIs style "s3" || styleIs style "s4".

Definition ignoredParaStyles : list string :=
  [ "ide"; "rem"; "h"; "h1"; "h2"; "h3"; "h4";
    "toc1"; "toc2"; "toc3"; "toca1"; "toca2"; "toca3";
    "imt"; "imt1"; "imt2"; "imt3"; "imt4";
    "is"; "is1"; "is2"; "is3"; "is4";
    "ip"; "ipi"; "im"; "imi"; "ipq"; "imq"; "ipr";
    "iq"; "iq1"; "iq2"; "iq3"; "iq4";
    "ib";
    "ili"; "ili1"; "ili2"; "ili3"; "ili4";
    "iot";
    "io"; "io1"; "io2"; "io3"; "io4";
    "iex"; "imte"; "ie";
    "mt"; "mt1"; "mt2"; "mt3"; "mt4";
    "mte"; "mte1"; "mte2"; "mte3"; "mte4";
    "cl"; "cd"; "r" ].

Definition isIgnored (style : string) : bool :=
  existsb (String.eqb style) ignoredParaStyles.

(** [iterateCharContent]. *)
Definition iterateCharContent (char : Node) : list InlineItem :=
  let style := getAttribute "style" char in
  let text := trimText (Js.orElse (Some (textContent char)) "") in
  if styleIs style "wj" then [IText text None true] else [IString text].

(** At most [max] leading digits: how many were taken, and the rest. *)
Fixpoint takeDigits (max : nat) (s : string) : nat * string :=
  match max with
  | 0 => (0, s)
  | S m =>
      match s with
      | String c r =>
          if Js.isDigit c
          then let '(k, rest) := takeDigits m r in (S k, rest)
          else (0, s)
      | EmptyString => (0, s)
      end
  end.

(** The regular expression [/^[0-9]{1,3}:[0-9]{1,3}/]: the rest of the
    string after the match, [None] when it does not match.  Both groups
    are greedy; giving back a digit of the first group would put a digit
    where the colon is required, so no backtracking succeeds. *)
Definition verseReferenceRegex (s : string) : option string :=
  let '(k1, r1) := takeDigits 3 s in
  match k1, r1 with
  | S _, String c r =>
      if Ascii.eqb c ":" then
        let '(k2, rest) := takeDigits 3 r in
        match k2 with
        | 0 => None
        | S _ => Some rest
        end
      else None
  | _, _ => None
  end.

(** ** The parser state *)

(** [noteCounter] is the field [_noteCounter] of the parser object;
    [footnotes] is the array [chapter.footnotes] of the chapter object that
    the content iterators receive. *)
Record State : Type := mkState {
  noteCounter : nat;
  footnotes : list Footnote
}.

(** [iterateNodeTextContent(node, chapter, verse?)]. *)
Definition iterateNodeTextContent (node : Node) (chapterNumber : Js.number)
    (verseNumber : option Js.number) (st : State)
  : list InlineItem * State :=
  if isTextNode node then
    ([IString (Js.orElse (Some (textContent node)) "")], st)
  else if isElement node && String.eqb (nodeName node) "char" then
    (iterateCharContent node, st)
  else if isElement node && String.eqb (nodeName node) "note" then
    let style := getAttribute "style" node in
    if styleIs style "f" then
      let text0 := Js.trim (trimText (Js.orElse (Some (textContent node)) "")) in
      let text1 :=
        match verseReferenceRegex text0 with
        | Some rest => Js.trim rest
        | None => text0
        end in
      let note :=
        {| noteId := noteCounter st;
           caller := Js.orNull (getAttribute "caller" node);
           text := text1;
           reference :=
             {| ref_chapter := chapterNumber;
                ref_verse :=
                  match verseNumber with
                  | Some v => v
                  | None => Js.Int 0
                  end |} |} in
      ([INoteRef (noteId note) None],
       {| noteCounter := S (noteCounter st);
          footnotes := footnotes st ++ [note] |})
    else ([], st)
  else ([], st).

(** ** Walking siblings and cousins *)

(** An element of the walk: a node and its [parentElement]. *)
Definition WalkItem : Type := (Node * Node)%type.

(** The part of [iterateSiblingsAndCousins] after the siblings of the
    current node.  [parentAfter] holds the nodes that follow the parent of
    the current node under [grandparent].  The first element among them
    is the uncle; the nodes before it are yielded only when an uncle
    exists; the walk goes on from the first child of the uncle and stops
    at an uncle without children. *)
Fixpoint iterateCousins (grandparent : Node) (parentAfter : list Node)
  : list WalkItem :=
  match parentAfter with
  | [] => []
  | n :: rest =>
      match n with
      | Element _ _ kids =>
          match kids with
          | [] => []
          | child :: siblings =>
              (child, n) :: map (fun s => (s, n)) siblings
                ++ iterateCousins grandparent rest
          end
      | _ =>
          if existsb isElement rest
          then (n, grandparent) :: iterateCousins grandparent rest
          else []
      end
  end.

(** [iterateSiblingsAndCousins(node)], for a node whose next siblings are
    [after], under [parent], itself followed by [parentAfter] under
    [grandparent]. *)
Definition iterateSiblingsAndCousins (parent grandparent : Node)
    (after parentAfter : list Node) : list WalkItem :=
  map (fun s => (s, parent)) after ++ iterateCousins grandparent parentAfter.

(** [iterateUntilEndingVerse]. *)
Fixpoint iterateUntilEndingVerse (walk : list WalkItem) : list WalkItem :=
  match walk with
  | [] => []
  | node :: rest =>
      if String.eqb (nodeName (fst node)) "verse" then []
      else node :: iterateUntilEndingVerse rest
  end.

Definition poemOfParent (parent : Node) : option nat :=
  if String.eqb (nodeName parent) "para" then
    let style := getAttribute "style" parent in
    if styleIs style "q1" || styleIs style "q2" ||
       styleIs style "q3" || styleIs style "q4"
    then Some (if styleIs style "q1" then 1
               else if styleIs style "q2" then 2
               else if styleIs style "q3" then 3 else 4)
    else None
  else None.

(** The two [yield]s under [poem !== null]: a string is promoted to a
    text object, an object is spread and given the poem level. *)
Definition withPoem (poem : option nat) (content : InlineItem) : InlineItem :=
  match poem with
  | None => content
  | Some p =>
      match content with
      | IString s => IText s (Some p) false
      | IText t _ w => IText t (Some p) w
      | INoteRef n _ => INoteRef n (Some p)
      end
  end.

(** The loop of [iterateVerseContent] over the items of the walk. *)
Fixpoint iterateVerseContentLoop (walk : list WalkItem)
    (chapterNumber verseNumber : Js.number) (st : State)
  : list InlineItem * State :=
  match walk with
  | [] => ([], st)
  | (node, parent) :: rest =>
      if String.eqb (nodeName node) "verse" then ([], st)
      else
        let poem := poemOfParent parent in
        let '(items, st1) :=
          iterateNodeTextContent node chapterNumber (Some verseNumber) st in
        let '(more, st2) :=
          iterateVerseContentLoop rest chapterNumber verseNumber st1 in
        (map (withPoem poem) items ++ more, st2)
  end.

(** [iterateVerseContent(element, chapter, verse)]; the position of
    [element] is given by its parent, grandparent and the two lists of
    following nodes. *)
Definition iterateVerseContent (para grandparent : Node)
    (after parentAfter : list Node)
    (chapterNumber verseNumber : Js.number) (st : State)
  : list InlineItem * State :=
  iterateVerseContentLoop
    (iterateUntilEndingVerse
       (iterateSiblingsAndCousins para grandparent after parentAfter))
    chapterNumber verseNumber st.

(** ** Chapters, paragraphs and verses *)

(** [parseInt(element.getAttribute('number') || '0', 10)]. *)
Definition numberAttribute (element : Node) : Js.number :=
  Js.parseInt (Js.orElse (getAttribute "number" element) "0").

(** The loop of [iterateChapterParaVerseContent] over [para.children].
    [elements] holds the child nodes of [para] not yet visited; the nodes
    that are no elements are not part of [children] and are passed over. *)
Fixpoint iterateChapterParaVerseLoop (para grandparent : Node)
    (parentAfter : list Node) (elements : list Node)
    (chapterNumber : Js.number) (st : State)
  : list ChapterContent * State :=
  match elements with
  | [] => ([], st)
  | element :: after =>
      if negb (isElement element) then
        iterateChapterParaVerseLoop para grandparent parentAfter after
          chapterNumber st
      else if String.eqb (nodeName element) "chapter" then ([], st)
      else if String.eqb (nodeName element) "verse" then
        if hasAttribute "eid" element then
          iterateChapterParaVerseLoop para grandparent parentAfter after
            chapterNumber st
        else
          let number := numberAttribute element in
          let '(items, st1) :=
            iterateVerseContent para grandparent after parentAfter
              chapterNumber number st in
          let verse := Verse number (trimContent (addOrJoinAll items)) in
          let '(more, st2) :=
            iterateChapterParaVerseLoop para grandparent parentAfter after
              chapterNumber st1 in
          (verse :: more, st2)
      else
        iterateChapterParaVerseLoop para grandparent parentAfter after
          chapterNumber st
  end.

Definition iterateChapterParaVerseContent (para grandparent : Node)
    (parentAfter : list Node) (chapterNumber : Js.number) (st : State)
  : list ChapterContent * State :=
  iterateChapterParaVerseLoop para grandparent parentAfter (childNodes para)
    chapterNumber st.

(** [iterateHebrewSubtitleContent]: every child node, no open verse. *)
Fixpoint iterateHebrewSubtitleContent (nodes : list Node)
    (chapterNumber : Js.number) (st : State) : list InlineItem * State :=
  match nodes with
  | [] => ([], st)
  | node :: rest =>
      let '(items, st1) := iterateNodeTextContent node chapterNumber None st in
      let '(more, st2) := iterateHebrewSubtitleContent rest chapterNumber st1 in
      (items ++ more, st2)
  end.

Definition parseHebrewSubtitle (para : Node) (chapterNumber : Js.number)
    (st : State) : ChapterContent * State :=
  let '(items, st1) :=
    iterateHebrewSubtitleContent (childNodes para) chapterNumber st in
  (HebrewSubtitle (trimContent (addOrJoinAll items)), st1).

(** The content of a heading: [textContent ? [ textContent ] : []]. *)
Definition headingContent (para : Node) : list string :=
  if Js.isEmpty (textContent para) then [] else [textContent para].

(** [!style]: the attribute is missing or empty. *)
Definition noStyle (style : option string) : bool :=
  match style with
  | Some s => Js.isEmpty s
  | None => true
  end.

Definition styleIgnored (style : option string) : bool :=
  match style with
  | Some s => isIgnored s
  | None => false
  end.

(** [iterateChapterParaContent]. *)
Definition iterateChapterParaContent (para grandparent : Node)
    (parentAfter : list Node) (chapterNumber : Js.number) (st : State)
  : list ChapterContent * State :=
  let style := getAttribute "style" para in
  if isSectionStyle style then ([Heading (headingContent para)], st)
  else if styleIs style "b" then ([LineBreak], st)
  else if styleIs style "d" then
    let '(subtitle, st1) := parseHebrewSubtitle para chapterNumber st in
    ([subtitle], st1)
  else if noStyle style || negb (styleIgnored style) then
    iterateChapterParaVerseContent para grandparent parentAfter
      chapterNumber st
  else ([], st).

(** [iterateChapterContent] over the iterator shared with
    [iterateRootContent].  [siblings] holds the child nodes of the root not
    yet consumed.  The third component of the result is what the shared
    iterator still holds when the loop is left: the [chapter] element on
    which it breaks has been consumed. *)
Fixpoint iterateChapterContent (usxElement : Node) (siblings : list Node)
    (chapterNumber : Js.number) (st : State)
  : list ChapterContent * State * list Node :=
  match siblings with
  | [] => ([], st, [])
  | sibling :: rest =>
      if negb (isElement sibling) then
        iterateChapterContent usxElement rest chapterNumber st
      else if String.eqb (nodeName sibling) "para" then
        let '(content, st1) :=
          iterateChapterParaContent sibling usxElement rest chapterNumber st in
        let '(more, st2, remaining) :=
          iterateChapterContent usxElement rest chapterNumber st1 in
        (content ++ more, st2, remaining)
      else if String.eqb (nodeName sibling) "chapter" then ([], st, rest)
      else iterateChapterContent usxElement rest chapterNumber st
  end.

(** The loop of [iterateRootContent] over the shared iterator.  The
    recursion continues on what [iterateChapterContent] left, which is
    shorter than [children]; [fuel] bounds the number of iterations and the
    length of [children] is enough (see [iterateRootLoop_fuel]). *)
Fixpoint iterateRootLoop (fuel : nat) (usxElement : Node)
    (children : list Node) (counter : nat) : list RootContent * nat :=
  match fuel with
  | 0 => ([], counter)
  | S fuel' =>
      match children with
      | [] => ([], counter)
      | child :: rest =>
          if negb (isElement child) then
            iterateRootLoop fuel' usxElement rest counter
          else if String.eqb (nodeName child) "chapter" then
            if hasAttribute "eid" child then
              iterateRootLoop fuel' usxElement rest counter
            else
              let number := numberAttribute child in
              let '(content, st, remaining) :=
                iterateChapterContent usxElement rest number
                  {| noteCounter := counter; footnotes := [] |} in
              let chapter :=
                {| chapter_number := number;
                   chapter_content := content;
                   chapter_footnotes := footnotes st |} in
              let '(more, counter') :=
                iterateRootLoop fuel' usxElement remaining (noteCounter st) in
              (RootChapter chapter :: more, counter')
          else if String.eqb (nodeName child) "para" then
            if isSectionStyle (getAttribute "style" child) then
              let '(more, counter') :=
                iterateRootLoop fuel' usxElement rest counter in
              (RootHeading (headingContent child) :: more, counter')
            else iterateRootLoop fuel' usxElement rest counter
          else iterateRootLoop fuel' usxElement rest counter
      end
  end.

(** [iterateRootContent(usxElement)], from the value [counter] of the
    note counter; the second component is the counter afterwards. *)
Definition iterateRootContent (usxElement : Node) (counter : nat)
  : list RootContent * nat :=
  iterateRootLoop (length (childNodes usxElement)) usxElement
    (childNodes usxElement) counter.

Definition isTitlePara (n : Node) : bool :=
  selAttrIs "para" "style" "mt1" n || selAttrIs "para" "style" "mt2" n ||
  selAttrIs "para" "style" "mt3" n.

(** The title computed by [parse]:
    [[...titles].map(t => t.textContent).filter(t => t).join(' ')]. *)
Definition titleOf (usxElement : Node) : option string :=
  let titles := querySelectorAll isTitlePara usxElement in
  match titles with
  | [] => None
  | _ =>
      Some (Js.join " "
              (filter (fun t => negb (Js.isEmpty t)) (map textContent titles)))
  end.

Definition headerOf (usxElement : Node) : option string :=
  match querySelector (selAttrIs "para" "style" "h") usxElement with
  | Some header => Some (Js.orElse (Some (textContent header)) "")
  | None => None
  end.

(** [USXParser.parse], from the document element of the parsed XML and the
    value of the note counter of the parser object; a successful parse
    returns the tree and the counter afterwards. *)
Definition parse (usxElement : Node) (counter : nat)
  : ParseError + (ParseTree * nat) :=
  match querySelector (selHasAttr "book" "code") usxElement with
  | None => inl NoBookElement
  | Some bookElement =>
      let bookCode := Js.orElse (getAttribute "code" bookElement) "" in
      if Js.isEmpty bookCode then inl NoBookCode
      else
        let '(content, counter') := iterateRootContent usxElement counter in
        inr ({| tree_id := bookCode;
                tree_header := headerOf usxElement;
                tree_title := titleOf usxElement;
                tree_content := content |}, counter')
  end.

(** The note counter of [new USXParser(window)]. *)
Definition newParser : nat := 0.

(** ** Observations on parse trees *)

Definition refOf (item : InlineItem) : list nat :=
  match item with
  | INoteRef n _ => [n]
  | _ => []
  end.

(** The note ids referenced by an inline sequence, in order. *)
Definition refsOf (items : list InlineItem) : list nat := flat_map refOf items.

Definition refsOfContent (c : ChapterContent) : list nat :=
  match c with
  | Verse _ items => refsOf items
  | HebrewSubtitle items => refsOf items
  | _ => []
  end.

Definition chapterRefs (ch : Chapter) : list nat :=
  flat_map refsOfContent (chapter_content ch).

Definition footnoteIds (ch : Chapter) : list nat :=
  map noteId (chapter_footnotes ch).

Definition chapterOf (r : RootContent) : list Chapter :=
  match r with
  | RootChapter ch => [ch]
  | RootHeading _ => []
  end.

Definition chaptersOf (items : list RootContent) : list Chapter :=
  flat_map chapterOf items.

Definition inlineArrayOf (c : ChapterContent) : list (list InlineItem) :=
  match c with
  | Verse _ items => [items]
  | HebrewSubtitle items => [items]
  | _ => []
  end.

(** The verse and subtitle content arrays of a tree, in order. *)
Definition inlineArrays (t : ParseTree) : list (list InlineItem) :=
  flat_map (fun ch => flat_map inlineArrayOf (chapter_content ch))
           (chaptersOf (tree_content t)).

Definition verseNumberOf (c : ChapterContent) : list Js.number :=
  match c with
  | Verse n _ => [n]
  | _ => []
  end.

(** The verse numbers of a chapter, in emission order. *)
Definition verseNumbers (content : list ChapterContent) : list Js.number :=
  flat_map verseNumberOf content.

(** Two adjacent entries that [addOrJoin] would have joined. *)
Definition mergeable (a b : InlineItem) : bool :=
  match a, b with
  | IString _, IString _ => true
  | IText _ p w, IText _ p' w' => hasSameFormatting p w p' w'
  | _, _ => false
  end.

(** No two adjacent plain strings and no two adjacent text objects with
    the same formatting. *)
Fixpoint coalesced (l : list InlineItem) : bool :=
  match l with
  | a :: rest =>
      match rest with
      | b :: _ => negb (mergeable a b) && coalesced rest
      | [] => true
      end
  | [] => true
  end.

(** An entry that is not empty after white space trimming. *)
Definition nonEmptyEntry (item : InlineItem) : bool :=
  match item with
  | IString s => negb (Js.isEmpty (Js.trim s))
  | IText t _ _ => negb (Js.isEmpty (Js.trim t))
  | INoteRef _ _ => true
  end.

(** [st'] is reached from [st] by allocating the note ids [ids]: as many
    footnotes were pushed, carrying the consecutive values of the counter. *)
Definition Allocates (st st' : State) (ids : list nat) : Prop :=
  exists new,
    footnotes st' = footnotes st ++ new /\
    map noteId new = ids /\
    ids = seq (noteCounter st) (length ids) /\
    noteCounter st' = noteCounter st + length ids.

(** The runs of the loop of [iterateRootContent], as a relation between
    the content of the shared iterator, the counter, the items yielded and
    the counter afterwards. *)
Inductive RootRun (usxElement : Node)
  : list Node -> nat -> list RootContent -> nat -> Prop :=
| RootRun_done : forall counter, RootRun usxElement [] counter [] counter
| RootRun_chapter : forall child rest counter content st remaining items counter',
    isElement child = true ->
    nodeName child = "chapter" ->
    hasAttribute "eid" child = false ->
    iterateChapterContent usxElement rest (numberAttribute child)
      {| noteCounter := counter; footnotes := [] |} = (content, st, remaining) ->
    RootRun usxElement remaining (noteCounter st) items counter' ->
    RootRun usxElement (child :: rest) counter
      (RootChapter {| chapter_number := numberAttribute child;
                      chapter_content := content;
                      chapter_footnotes := footnotes st |} :: items) counter'
| RootRun_heading : forall child rest counter items counter',
    isElement child = true ->
    nodeName child = "para" ->
    isSectionStyle (getAttribute "style" child) = true ->
    RootRun usxElement rest counter items counter' ->
    RootRun usxElement (child :: rest) counter
      (RootHeading (headingContent child) :: items) counter'
| RootRun_skip : forall child rest counter items counter',
    isElement child = false \/
    (nodeName child = "chapter" /\ hasAttribute "eid" child = true) \/
    (nodeName child = "para" /\
     isSectionStyle (getAttribute "style" child) = false) \/
    (nodeName child <> "chapter" /\ nodeName child <> "para") ->
    RootRun usxElement rest counter items counter' ->
    RootRun usxElement (child :: rest) counter items counter'.

(** The heading that the root loop yields for a node, if any. *)
Definition rootHeadingOf (n : Node) : list RootContent :=
  if isElement n && String.eqb (nodeName n) "para" &&
     isSectionStyle (getAttribute "style" n)
  then [RootHeading (headingContent n)] else [].

Definition rootHeadings (nodes : list Node) : list RootContent :=
  flat_map rootHeadingOf nodes.

Definition notChapter (n : Node) : bool :=
  negb (String.eqb (nodeName n) "chapter").

(** What [addOrJoin] puts in place of the last entry [l] when [v] comes. *)
Definition joinLast (l v : InlineItem) : list InlineItem :=
  match l, v with
  | IString a, IString b => [IString (a ++ b)]
  | IText a p w, IText b p' w' =>
      if hasSameFormatting p w p' w' then [IText (a ++ b) p w] else [l; v]
  | _, _ => [l; v]
  end.

(** ** Sample documents *)

Definition bookGEN : Node := Element "book" [("code", "GEN")] [Text "Genesis"].

Definition chapterStart (n : string) : Node :=
  Element "chapter" [("number", n)] [].

Definition chapterEnd (eid : string) : Node :=
  Element "chapter" [("eid", eid)] [].

Definition verseStart (n : string) : Node :=
  Element "verse" [("number", n)] [].

Definition noteF (t : string) : Node :=
  Element "note" [("style", "f"); ("caller", "+")] [Text t].

Definition paraStyled (style : string) (kids : list Node) : Node :=
  Element "para" [("style", style)] kids.

(** Two chapters with one footnote each. *)
Definition twoChapters : Node :=
  Element "usx" []
    [ bookGEN;
      chapterStart "1";
      paraStyled "p" [verseStart "1"; Text "In"; noteF "1:1 In the beginning"];
      chapterEnd "GEN 1";
      chapterStart "2";
      paraStyled "p" [verseStart "1"; Text "Thus"; noteF "2:1 Or finished"] ].

(** The reading of the note counter as one that is reset with each
    chapter: the first footnote of a chapter has id 0. *)
Definition firstNoteIdZero (ch : Chapter) : Prop :=
  match chapter_footnotes ch with
  | f :: _ => noteId f = 0
  | [] => True
  end.

(** How many footnotes of a chapter carry a given id. *)
Definition footnotesWithId (ch : Chapter) (id : nat) : nat :=
  length (filter (fun f => Nat.eqb (noteId f) id) (chapter_footnotes ch)).

(** A verse in which a words-of-Jesus span holds white space only. *)
Definition emptiedSpan : Node :=
  Element "usx" []
    [ bookGEN;
      chapterStart "1";
      paraStyled "p"
        [ verseStart "1"; Text "a";
          Element "char" [("style", "wj")] [Text " "]; Text "b" ] ].

(** The string is empty or starts with a code unit that is no white
    space. *)
Definition headNotWhite (s : string) : bool :=
  match s with
  | EmptyString => true
  | String c _ => negb (Js.isWhiteSpace c)
  end.

(** An inline array as the parser finishes it: trimmed from what
    [addOrJoin] accumulated. *)
Definition normalised (arr : list InlineItem) : Prop :=
  exists items, arr = trimContent (addOrJoinAll items).

(** Verses numbered 2, 1 and without a number, in that order. *)
Definition versesOutOfOrder : Node :=
  Element "usx" []
    [ bookGEN;
      chapterStart "1";
      paraStyled "p"
        [ verseStart "2"; Text "b"; verseStart "1"; Text "a";
          Element "verse" [] []; Text "c" ] ].

Definition atLeastOne (n : Js.number) : bool :=
  match n with
  | Js.Int z => (1 <=? z)%Z
  | Js.NaN => false
  end.

Definition numberLt (a b : Js.number) : bool :=
  match a, b with
  | Js.Int x, Js.Int y => (x <? y)%Z
  | _, _ => false
  end.

Fixpoint strictlyIncreasing (l : list Js.number) : bool :=
  match l with
  | a :: rest =>
      match rest with
      | b :: _ => numberLt a b && strictlyIncreasing rest
      | [] => true
      end
  | [] => true
  end.

(** The numbers of the start milestones ([verse] elements without [eid])
    among the element children of a paragraph, up to a [chapter] child. *)
Fixpoint verseMilestones (elements : list Node) : list Js.number :=
  match elements with
  | [] => []
  | e :: rest =>
      if negb (isElement e) then verseMilestones rest
      else if String.eqb (nodeName e) "chapter" then []
      else if String.eqb (nodeName e) "verse" && negb (hasAttribute "eid" e)
      then numberAttribute e :: verseMilestones rest
      else verseMilestones rest
  end.

(** A paragraph whose children are searched for verses: its style is no
    section heading, not [b], not [d], and not in the ignore list. *)
Definition isVersePara (p : Node) : bool :=
  let style := getAttribute "style" p in
  negb (isSectionStyle style) && negb (styleIs style "b") &&
  negb (styleIs style "d") && (noStyle style || negb (styleIgnored style)).

(** The numbers of the start verse milestones of a chapter, whose
    paragraphs are the [para] elements among [siblings] up to the next
    [chapter] element. *)
Fixpoint chapterMilestones (siblings : list Node) : list Js.number :=
  match siblings with
  | [] => []
  | s :: rest =>
      if negb (isElement s) then chapterMilestones rest
      else if String.eqb (nodeName s) "para" then
        (if isVersePara s then verseMilestones (childNodes s) else [])
        ++ chapterMilestones rest
      else if String.eqb (nodeName s) "chapter" then []
      else chapterMilestones rest
  end.

(** The chapter [ch] was opened by a start milestone among [children] and
    its verses carry the numbers of the verse milestones that follow. *)
Definition ChapterOfMilestone (children : list Node) (ch : Chapter) : Prop :=
  exists pre child rest,
    children = pre ++ child :: rest /\
    isElement child = true /\ nodeName child = "chapter" /\
    hasAttribute "eid" child = false /\
    chapter_number ch = numberAttribute child /\
    verseNumbers (chapter_content ch) = chapterMilestones rest.

(** The poetry paragraph of the spec: a words-of-Jesus span followed by
    text, in a paragraph of style [q2]. *)
Definition blessedSpan : Node :=
  Element "char" [("style", "wj")] [Text "blessed"].

Definition poorText : Node := Text " are the poor".

Definition q2Para : Node := paraStyled "q2" [blessedSpan; poorText].

(** The verse is opened in the paragraph before the poetry. *)
Definition poetryAfterVerse : Node :=
  Element "usx" []
    [ bookGEN; chapterStart "1"; paraStyled "p" [verseStart "1"]; q2Para ].

(** The verse is opened in the poetry paragraph itself. *)
Definition poetryInVerse : Node :=
  Element "usx" []
    [ bookGEN; chapterStart "1";
      paraStyled "q2" [verseStart "1"; blessedSpan; poorText] ].

(** The entries as the walk yields them, and as the verse keeps them. *)
Definition poetryYielded : list InlineItem :=
  [IText "blessed" (Some 2) true; IText " are the poor" (Some 2) false].

Definition poetryKept : list InlineItem :=
  [IText "blessed" (Some 2) true; IText "are the poor" (Some 2) false].

(** The text of the footnote of a note element: white space collapsed,
    trimmed, a leading reference removed, trimmed again. *)
Definition footnoteText (note : Node) : string :=
  let t := Js.trim (trimText (textContent note)) in
  match verseReferenceRegex t with
  | Some rest => Js.trim rest
  | None => t
  end.

Fixpoint allDigits (s : string) : bool :=
  match s with
  | EmptyString => true
  | String c r => Js.isDigit c && allDigits r
  end.

(** The first footnote of Genesis, as in the spec. *)
Definition genesisNote : Node :=
  Element "note" [("style", "f"); ("caller", "+")]
    [Text "1:1 In the beginning"].

(** A cross reference, whose style is not [f]. *)
Definition crossReference : Node :=
  Element "note" [("style", "x"); ("caller", "-")] [Text "1:1 Jn 1:1"].

(** A document whose first [book] element has an empty code. *)
Definition emptyThenGEN : Node :=
  Element "usx" [] [ Element "book" [("code", "")] []; bookGEN ].

Definition isBookWithCode (n : Node) : bool :=
  isElement n && String.eqb (nodeName n) "book" &&
  negb (Js.isEmpty (Js.orElse (getAttribute "code" n) "")).

(** The document holds a [book] element with a code that is not empty. *)
Definition documentHasBookCode (usxElement : Node) : bool :=
  existsb isBookWithCode (usxElement :: descendants usxElement).

(** The first [book] element (in tree order, below the root) that
    carries a [code] attribute. *)
Definition firstBookWithCodeAttribute (usxElement : Node) : option Node :=
  find (selHasAttr "book" "code") (descendants usxElement).

(** The title paragraphs of a document, in tree order. *)
Definition titleParas (usxElement : Node) : list Node :=
  filter isTitlePara (descendants usxElement).

(** The title as the join of the text contents of all the title
    paragraphs. *)
Definition titleAsStated (usxElement : Node) : option string :=
  match titleParas usxElement with
  | [] => None
  | ps => Some (Js.join " " (map textContent ps))
  end.

Definition nonEmptyString (s : string) : bool := negb (Js.isEmpty s).

(** A document whose second title paragraph is empty. *)
Definition emptyTitlePart : Node :=
  Element "usx" []
    [ bookGEN;
      paraStyled "h" [Text "Genesis"];
      paraStyled "mt1" [Text "A"];
      paraStyled "mt2" [];
      paraStyled "mt3" [Text "B"] ].

(** Modelled from the spec: [replaceSpacesWithUnderscores] of
    [generation/api.ts], a file that is not among the sources (its test
    [generation/api.spec.ts] is).  The spec, 4.6: it replaces every ASCII
    space with an underscore and escapes no other character. *)
Fixpoint replaceSpacesWithUnderscores (s : string) : string :=
  match s with
  | EmptyString => EmptyString
  | String c r =>
      String (if Ascii.eqb c " " then "_"%char else c)
             (replaceSpacesWithUnderscores r)
  end.

(** Where a root item comes from: a chapter from a start milestone among
    the children of the root, a heading from a paragraph of style [s1] to
    [s4] among them. *)
Definition RootItemSource (children : list Node) (item : RootContent) : Prop :=
  match item with
  | RootChapter ch =>
      exists child,
        In child children /\ isElement child = true /\
        nodeName child = "chapter" /\ hasAttribute "eid" child = false /\
        chapter_number ch = numberAttribute child
  | RootHeading h =>
      exists p,
        In p children /\ isElement p = true /\ nodeName p = "para" /\
        isSectionStyle (getAttribute "style" p) = true /\
        h = headingContent p
  end.

(** A document without chapters: a heading, an introduction, text and a
    verse at the level of the root. *)
Definition noChapters : Node :=
  Element "usx" []
    [ bookGEN;
      paraStyled "s1" [Text "The Creation"];
      Text "stray";
      verseStart "1";
      paraStyled "p" [verseStart "1"; Text "In the beginning"];
      paraStyled "ip" [Text "Introduction"] ].

(** A chapter milestone and a verse milestone without [number]. *)
Definition chapterWithoutNumber : Node :=
  Element "chapter" [("sid", "GEN 1")] [].

Definition verseWithoutNumber : Node :=
  Element "verse" [("sid", "GEN 1:1")] [].

(** ** Observations on strings and inline content *)

(** Every white space code unit of the string is a space, and no two of
    them are adjacent; [prevWhite] tells that a white space code unit
    stands before the string. *)
Fixpoint singleSpaced (prevWhite : bool) (s : string) : bool :=
  match s with
  | EmptyString => true
  | String c r =>
      if Js.isWhiteSpace c
      then Ascii.eqb c " " && negb prevWhite && singleSpaced true r
      else singleSpaced false r
  end.

(** The code units of a string that are no white space, in order. *)
Fixpoint nonWhite (s : string) : string :=
  match s with
  | EmptyString => EmptyString
  | String c r => if Js.isWhiteSpace c then nonWhite r else String c (nonWhite r)
  end.

(** The string holds white space only. *)
Fixpoint isBlank (s : string) : bool :=
  match s with
  | EmptyString => true
  | String c r => Js.isWhiteSpace c && isBlank r
  end.

(** The text carried by an inline item; a footnote reference has none. *)
Definition payloadOf (item : InlineItem) : string :=
  match item with
  | IString s => s
  | IText t _ _ => t
  | INoteRef _ _ => EmptyString
  end.

Fixpoint payload (items : list InlineItem) : string :=
  match items with
  | [] => EmptyString
  | item :: rest => (payloadOf item ++ payload rest)%string
  end.

(** A string or text entry whose text is white space only. *)
Definition blankEntry (item : InlineItem) : bool :=
  match item with
  | IString s => isBlank s
  | IText t _ _ => isBlank t
  | INoteRef _ _ => false
  end.

(** The node is a note element of style [f]. *)
Definition isFootnoteNote (node : Node) : bool :=
  isElement node && String.eqb (nodeName node) "note" &&
  styleIs (getAttribute "style" node) "f".

Definition headNotDigit (s : string) : bool :=
  match s with
  | EmptyString => true
  | String c _ => negb (Js.isDigit c)
  end.

(** ** Observations on the walk *)

Definition notVerse (n : Node) : bool :=
  negb (String.eqb (nodeName n) "verse").

(** Where an item of the walk from a node may come from: a later sibling
    of the node, under its parent; a node that is no element among those
    that follow the parent, under the grandparent; a child of an element
    that follows the parent. *)
Definition WalkItemSource (parent grandparent : Node)
    (after parentAfter : list Node) (item : WalkItem) : Prop :=
  (snd item = parent /\ In (fst item) after) \/
  (snd item = grandparent /\ isElement (fst item) = false /\
   In (fst item) parentAfter) \/
  (In (snd item) parentAfter /\ isElement (snd item) = true /\
   In (fst item) (childNodes (snd item))).

(** The paragraph style of a poem level. *)
Definition qStyle (level : nat) : string :=
  match level with
  | 1 => "q1"
  | 2 => "q2"
  | 3 => "q3"
  | 4 => "q4"
  | _ => ""
  end.

Definition poemOfItem (item : InlineItem) : option nat :=
  match item with
  | IString _ => None
  | IText _ p _ => p
  | INoteRef _ p => p
  end.

Definition isPlainString (item : InlineItem) : bool :=
  match item with
  | IString _ => true
  | _ => false
  end.

(** ** Observations on chapters *)

Definition isVerse (c : ChapterContent) : bool :=
  match c with
  | Verse _ _ => true
  | _ => false
  end.

(** The footnote belongs to chapter [cn] and to one of the verses [nums]
    of it, or to verse 0. *)
Definition FootnoteIn (cn : Js.number) (nums : list Js.number)
    (f : Footnote) : Prop :=
  ref_chapter (reference f) = cn /\
  In (ref_verse (reference f)) (Js.Int 0 :: nums).

(** [st'] is [st] with more footnotes pushed, all of which satisfy [P]. *)
Definition Pushes (P : Footnote -> Prop) (st st' : State) : Prop :=
  exists new, footnotes st' = footnotes st ++ new /\ Forall P new.

(** A paragraph with a footnote in a heading, a line break with content
    and an ignored paragraph with a note. *)
Definition ignoredWithNote : Node :=
  paraStyled "r" [Text "(Matthew 5:3)"; genesisNote].

(** ** Observations on the root loop *)

(** The root loop from a state of the shared iterator, with the fuel that
    [iterateRootContent] gives it. *)
Definition iterateRootFrom (usxElement : Node) (children : list Node)
    (counter : nat) : list RootContent * nat :=
  iterateRootLoop (length children) usxElement children counter.

(** A [chapter] element without [eid]: a start milestone. *)
Definition isChapterStart (n : Node) : bool :=
  isElement n && String.eqb (nodeName n) "chapter" &&
  negb (hasAttribute "eid" n).

Definition isChapterElement (n : Node) : bool :=
  isElement n && String.eqb (nodeName n) "chapter".

(** A chapter as USX 3 brackets it: nodes before the start milestone,
    the start milestone, the nodes of the chapter, and the [chapter]
    element that ends it. *)
Record ChapterBlock : Type := mkChapterBlock {
  block_before : list Node;
  block_start : Node;
  block_body : list Node;
  block_end : Node
}.

Definition blockNodes (b : ChapterBlock) : list Node :=
  block_before b ++ block_start b :: block_body b ++ [block_end b].

Definition wellFormedBlock (b : ChapterBlock) : bool :=
  forallb notChapter (block_before b) && isChapterStart (block_start b) &&
  forallb notChapter (block_body b) && isChapterElement (block_end b).

(** Three chapters without end milestones, as USX 2 has them. *)
Definition threeChaptersNoEnd : Node :=
  Element "usx" []
    [ bookGEN;
      chapterStart "1"; paraStyled "p" [verseStart "1"; Text "a"];
      chapterStart "2"; paraStyled "s1" [Text "Second"];
      paraStyled "p" [verseStart "1"; Text "b"];
      chapterStart "3"; paraStyled "p" [verseStart "1"; Text "c"] ].

(** Two chapters bracketed by start and end milestones. *)
Definition bracketedBlocks : list ChapterBlock :=
  [ {| block_before := [bookGEN; Text " "];
       block_start := chapterStart "1";
       block_body := [paraStyled "p" [verseStart "1"; Text "a"]];
       block_end := chapterEnd "GEN 1" |};
    {| block_before := [Text " "];
       block_start := chapterStart "2";
       block_body := [paraStyled "p" [verseStart "1"; Text "b"]];
       block_end := chapterEnd "GEN 2" |} ].

(** All the note ids of a tree, chapter by chapter. *)
Definition treeNoteIds (t : ParseTree) : list nat :=
  flat_map footnoteIds (chaptersOf (tree_content t)).

(** A document whose title paragraphs are all empty. *)
Definition emptyTitles : Node :=
  Element "usx" [] [ bookGEN; paraStyled "mt1" []; paraStyled "mt2" [Comment "x"] ].

(** ** The helpers of the test suite ([generation/api.spec.ts]) *)

Definition newline : ascii := ascii_of_nat 10.

Fixpoint noNewline (s : string) : bool :=
  match s with
  | EmptyString => true
  | String c r => negb (Ascii.eqb c newline) && noNewline r
  end.

(** [content.split('\n')]: the lines of a string; the empty string has
    one line. *)
Fixpoint splitLines (s : string) : list string :=
  match s with
  | EmptyString => [EmptyString]
  | String c r =>
      if Ascii.eqb c newline then EmptyString :: splitLines r
      else match splitLines r with
           | l :: ls => String c l :: ls
           | [] => [String c EmptyString]
           end
  end.

(** [firstXLines(content, x)], for a count [x] that is a natural number:
    [lines.slice(0, x).join('\n')]. *)
Definition firstXLines (content : string) (x : nat) : string :=
  Js.join (String newline "") (firstn x (splitLines content)).

(** An output file, with its fields [path] and [content]; the helper does
    not look into the content. *)
Record OutputFile (Content : Type) : Type := mkOutputFile {
  file_path : string;
  file_content : Content
}.

Arguments mkOutputFile {Content} _ _.
Arguments file_path {Content} _.
Arguments file_content {Content} _.

(** An object as the helper builds and the tests read it: its own
    properties, as the value of each key that has one.  The order in which
    an object lists its keys is no part of the model. *)
Definition JsObject (Content : Type) : Type := string -> option Content.

(** The object of the literal [{}]. *)
Definition emptyObject {Content : Type} : JsObject Content := fun _ => None.

(** [result[key] = value] on an object made by [{}]: the key becomes an
    own property with that value, except the key [__proto__], which is the
    accessor of [Object.prototype] and creates no own property. *)
Definition setProperty {Content : Type} (obj : JsObject Content)
    (key : string) (value : Content) : JsObject Content :=
  if String.eqb key "__proto__" then obj
  else fun k => if String.eqb k key then Some value else obj k.

(** [fileTree(outputFiles)]. *)
Definition fileTree {Content : Type} (outputFiles : list (OutputFile Content))
  : JsObject Content :=
  fold_left (fun result file =>
               setProperty result (file_path file) (file_content file))
            outputFiles emptyObject.

(** The content of the last file of a list that has a given path. *)
Definition lastWithPath {Content : Type} (files : list (OutputFile Content))
    (key : string) : option Content :=
  option_map file_content
    (find (fun file => String.eqb (file_path file) key) (rev files)).

(** ** Normal entries *)

(** A text without white space at its ends, with single spaces only
    inside, and not empty. *)
Definition normalText (s : string) : bool :=
  singleSpaced false s && String.eqb (Js.trim s) s && negb (Js.isEmpty s).

Definition normalEntry (item : InlineItem) : bool :=
  match item with
  | IString s => normalText s
  | IText t _ _ => normalText t
  | INoteRef _ _ => true
  end.

(** A verse whose text is spread over nodes with white space around. *)
Definition spacedVerse : Node :=
  Element "usx" []
    [ bookGEN;
      chapterStart "1";
      paraStyled "q1"
        [ verseStart "1"; Text "
      Blessed   are ";
          Element "char" [("style", "wj")] [Text "  the
      poor "];
          Text "   " ] ].

(** ** Shifting note ids *)

Definition shiftItem (k : nat) (item : InlineItem) : InlineItem :=
  match item with
  | INoteRef n p => INoteRef (n + k) p
  | _ => item
  end.

Definition shiftFootnote (k : nat) (f : Footnote) : Footnote :=
  {| noteId := noteId f + k;
     caller := caller f;
     text := text f;
     reference := reference f |}.

Definition shiftState (k : nat) (st : State) : State :=
  {| noteCounter := noteCounter st + k;
     footnotes := map (shiftFootnote k) (footnotes st) |}.

Definition shiftContent (k : nat) (c : ChapterContent) : ChapterContent :=
  match c with
  | Verse n items => Verse n (map (shiftItem k) items)
  | HebrewSubtitle items => HebrewSubtitle (map (shiftItem k) items)
  | _ => c
  end.

Definition shiftChapter (k : nat) (ch : Chapter) : Chapter :=
  {| chapter_number := chapter_number ch;
     chapter_content := map (shiftContent k) (chapter_content ch);
     chapter_footnotes := map (shiftFootnote k) (chapter_footnotes ch) |}.

Definition shiftRoot (k : nat) (r : RootContent) : RootContent :=
  match r with
  | RootChapter ch => RootChapter (shiftChapter k ch)
  | RootHeading h => RootHeading h
  end.

(** The tree with every note id, in the references and in the footnotes,
    raised by [k]. *)
Definition shiftTree (k : nat) (t : ParseTree) : ParseTree :=
  {| tree_id := tree_id t;
     tree_header := tree_header t;
     tree_title := tree_title t;
     tree_content := map (shiftRoot k) (tree_content t) |}.

(** ** Inside and outside a chapter *)

(** Whether the shared iterator is inside a chapter after [nodes] were
    taken from it: outside, a start milestone opens a chapter; inside, any
    [chapter] element ends it. *)
Fixpoint insideChapterAfter (inside : bool) (nodes : list Node) : bool :=
  match nodes with
  | [] => inside
  | n :: rest =>
      if inside then insideChapterAfter (negb (isChapterElement n)) rest
      else insideChapterAfter (isChapterStart n) rest
  end.

(** A start milestone without number that directly ends the chapter
    before it. *)
Definition numberlessSecondChapter : Node :=
  Element "usx" []
    [ bookGEN;
      chapterStart "1"; paraStyled "p" [verseStart "1"; Text "a"];
      chapterWithoutNumber; paraStyled "p" [verseStart "1"; Text "b"] ].

(** ** Words *)

(** The string starts with a code unit that is no white space. *)
Definition startsWord (s : string) : bool :=
  match s with
  | EmptyString => false
  | String c _ => negb (Js.isWhiteSpace c)
  end.

(** The words of a string: its maximal runs of code units that are no
    white space, in order. *)
Fixpoint words (s : string) : list string :=
  match s with
  | EmptyString => []
  | String c r =>
      if Js.isWhiteSpace c then words r
      else if startsWord r then
        match words r with
        | w :: ws => String c w :: ws
        | [] => [String c EmptyString]
        end
      else String c EmptyString :: words r
  end.

Definition noWords (s : string) : bool :=
  match words s with
  | [] => true
  | _ :: _ => false
  end.

(** The space that [trimEnd] keeps in front of a collapsed string: one
    that stands for leading white space, when a word follows. *)
Definition leadSpace (inRun : bool) (s : string) : string :=
  if negb inRun && negb (headNotWhite s) && negb (noWords s) then " " else "".

(** [s] is one to three digits, a colon, one to three digits, and
    [rest]. *)
Definition ReferencePrefix (s rest : string) : Prop :=
  exists d1 d2,
    s = (d1 ++ ":" ++ d2 ++ rest)%string /\
    allDigits d1 = true /\ allDigits d2 = true /\
    1 <= String.length d1 <= 3 /\ 1 <= String.length d2 <= 3.

(** The same, with a second group that takes as many digits as it can. *)
Definition GreedyReferencePrefix (s rest : string) : Prop :=
  exists d1 d2,
    s = (d1 ++ ":" ++ d2 ++ rest)%string /\
    allDigits d1 = true /\ allDigits d2 = true /\
    1 <= String.length d1 <= 3 /\ 1 <= String.length d2 <= 3 /\
    (String.length d2 = 3 \/ headNotDigit rest = true).

(** The text of a footnote in terms of the words of the text content of
    its note: the words joined by single spaces; when that starts with a
    reference, the words of what follows the reference, joined by single
    spaces. *)
Definition FootnoteTextOf (content txt : string) : Prop :=
  let n := Js.join " " (words content) in
  (exists rest,
     GreedyReferencePrefix n rest /\ txt = Js.join " " (words rest)) \/
  ((forall rest, ~ ReferencePrefix n rest) /\ txt = n).

(** A footnote whose text has white space runs around and inside. *)
Definition spacedNote : Node :=
  Element "note" [("style", "f"); ("caller", "+")]
    [Text "
      1:1   In  the
      beginning  "].

(** ** Runs of entries *)

(** [item] in front of a sequence in which every run is joined: it joins
    the first entry when the two are plain strings or text objects of the
    same formatting. *)
Definition joinFirst (item : InlineItem) (joined : list InlineItem)
  : list InlineItem :=
  match joined with
  | next :: tail =>
      match item, next with
      | IString a, IString b => IString (a ++ b) :: tail
      | IText a p w, IText b p' w' =>
          if hasSameFormatting p w p' w'
          then IText (a ++ b) p w :: tail
          else item :: joined
      | _, _ => item :: joined
      end
  | [] => [item]
  end.

(** The sequence with every maximal run of adjacent plain strings, and
    every maximal run of adjacent text objects of one formatting, joined
    into one entry that carries the concatenated text. *)
Fixpoint joinRuns (items : list InlineItem) : list InlineItem :=
  match items with
  | [] => []
  | item :: rest => joinFirst item (joinRuns rest)
  end.

(** [items] is what the walk yields for a verse that a start milestone
    among [elements], the child nodes of [para], opens. *)
Definition VerseItemsIn (para grandparent : Node)
    (parentAfter elements : list Node) (items : list InlineItem) : Prop :=
  exists before v after cn st,
    elements = before ++ v :: after /\
    isElement v = true /\ nodeName v = "verse" /\
    hasAttribute "eid" v = false /\
    items = fst (iterateVerseContent para grandparent after parentAfter cn
                   (numberAttribute v) st).

(** [items] is what a paragraph yields for one of its verses, or for the
    Hebrew subtitle that it is. *)
Definition ParaItems (para grandparent : Node) (parentAfter : list Node)
    (items : list InlineItem) : Prop :=
  VerseItemsIn para grandparent parentAfter (childNodes para) items \/
  (styleIs (getAttribute "style" para) "d" = true /\
   exists cn st,
     items = fst (iterateHebrewSubtitleContent (childNodes para) cn st)).

(** [arr] is the content array of a verse or subtitle of a [para]
    element among [siblings]: the items that the paragraph yields for it,
    with their runs joined, then trimmed entry by entry. *)
Definition ArrayFrom (usxElement : Node) (siblings : list Node)
    (arr : list InlineItem) : Prop :=
  exists before para after items,
    siblings = before ++ para :: after /\
    isElement para = true /\ nodeName para = "para" /\
    ParaItems para usxElement after items /\
    arr = trimContent (joinRuns items).

(** * Properties *)

(** ** The shared iterator and the fuel of the root loop *)

Ltac split_let :=
  match goal with
  | |- context [match ?e with pair _ _ => _ end] => destruct e eqn:?
  | H : context [match ?e with pair _ _ => _ end] |- _ => destruct e eqn:?
  end.

Lemma iterateChapterContent_remaining :
  forall u siblings cn st content st' remaining,
    iterateChapterContent u siblings cn st = (content, st', remaining) ->
    exists consumed, siblings = consumed ++ remaining.
Proof.
  induction siblings as [|sibling rest IH]; intros cn st content st' remaining H;
    simpl in H.
  - inversion H; subst. exists []. reflexivity.
  - destruct (negb (isElement sibling)).
    { destruct (IH _ _ _ _ _ H) as [consumed ->].
      exists (sibling :: consumed). reflexivity. }
    destruct (String.eqb (nodeName sibling) "para").
    { repeat split_let. inversion H; subst.
      match goal with
      | E : iterateChapterContent _ _ _ _ = _ |- _ =>
          destruct (IH _ _ _ _ _ E) as [consumed ->]
      end.
      exists (sibling :: consumed). reflexivity. }
    destruct (String.eqb (nodeName sibling) "chapter").
    { inversion H; subst. exists [sibling]. reflexivity. }
    destruct (IH _ _ _ _ _ H) as [consumed ->].
    exists (sibling :: consumed). reflexivity.
Qed.

Lemma iterateChapterContent_remaining_length :
  forall u siblings cn st content st' remaining,
    iterateChapterContent u siblings cn st = (content, st', remaining) ->
    length remaining <= length siblings.
Proof.
  intros u siblings cn st content st' remaining H.
  destruct (iterateChapterContent_remaining _ _ _ _ _ _ _ H) as [consumed ->].
  rewrite length_app. lia.
Qed.

(** Fuel beyond the length of the iterator changes nothing: the root loop
    is total and [iterateRootContent] gives it enough. *)
Lemma iterateRootLoop_fuel :
  forall fuel1 fuel2 u children counter,
    length children <= fuel1 -> length children <= fuel2 ->
    iterateRootLoop fuel1 u children counter
    = iterateRootLoop fuel2 u children counter.
Proof.
  induction fuel1 as [|fuel1 IH]; intros fuel2 u children counter H1 H2.
  - destruct children; [|simpl in H1; lia].
    destruct fuel2; reflexivity.
  - destruct children as [|child rest]; [destruct fuel2; reflexivity|].
    destruct fuel2 as [|fuel2]; [simpl in H2; lia|].
    simpl in H1, H2. simpl.
    destruct (negb (isElement child)); [apply IH; lia|].
    destruct (String.eqb (nodeName child) "chapter").
    + destruct (hasAttribute "eid" child); [apply IH; lia|].
      destruct (iterateChapterContent u rest (numberAttribute child)
                  {| noteCounter := counter; footnotes := [] |})
        as [[content st] remaining] eqn:E.
      apply iterateChapterContent_remaining_length in E.
      rewrite (IH fuel2) by lia. reflexivity.
    + destruct (String.eqb (nodeName child) "para").
      * destruct (isSectionStyle (getAttribute "style" child)).
        -- rewrite (IH fuel2) by lia. reflexivity.
        -- apply IH; lia.
      * apply IH; lia.
Qed.

Lemma iterateRootLoop_run :
  forall fuel u children counter items counter',
    length children <= fuel ->
    iterateRootLoop fuel u children counter = (items, counter') ->
    RootRun u children counter items counter'.
Proof.
  induction fuel as [|fuel IH]; intros u children counter items counter' Hl H.
  - destruct children; [|simpl in Hl; lia].
    inversion H; subst. constructor.
  - destruct children as [|child rest].
    { inversion H; subst. constructor. }
    simpl in Hl. simpl in H.
    destruct (isElement child) eqn:He; simpl in H.
    2:{ apply RootRun_skip; [now left|]. apply IH; [lia|exact H]. }
    destruct (String.eqb (nodeName child) "chapter") eqn:Hc.
    + apply String.eqb_eq in Hc.
      destruct (hasAttribute "eid" child) eqn:Heid.
      { apply RootRun_skip; [right; left; now split|]. apply IH; [lia|exact H]. }
      destruct (iterateChapterContent u rest (numberAttribute child)
                  {| noteCounter := counter; footnotes := [] |})
        as [[content st] remaining] eqn:E.
      destruct (iterateRootLoop fuel u remaining (noteCounter st))
        as [more c2] eqn:E2.
      inversion H; subst.
      eapply RootRun_chapter; eauto.
      apply IH; [|exact E2].
      apply iterateChapterContent_remaining_length in E. lia.
    + apply String.eqb_neq in Hc.
      destruct (String.eqb (nodeName child) "para") eqn:Hp.
      * apply String.eqb_eq in Hp.
        destruct (isSectionStyle (getAttribute "style" child)) eqn:Hs.
        -- destruct (iterateRootLoop fuel u rest counter) as [more c2] eqn:E2.
           inversion H; subst.
           apply RootRun_heading; auto. apply IH; [lia|exact E2].
        -- apply RootRun_skip; [right; right; left; now split|].
           apply IH; [lia|exact H].
      * apply String.eqb_neq in Hp.
        apply RootRun_skip; [right; right; right; now split|].
        apply IH; [lia|exact H].
Qed.

Lemma iterateRootContent_run :
  forall u counter items counter',
    iterateRootContent u counter = (items, counter') ->
    RootRun u (childNodes u) counter items counter'.
Proof.
  intros u counter items counter' H.
  eapply iterateRootLoop_run; [|exact H]. lia.
Qed.

(** ** Joining and trimming inline content *)

Lemma addOrJoin_snoc :
  forall init l v, addOrJoin (init ++ [l]) v = init ++ joinLast l v.
Proof.
  intros init l v. unfold addOrJoin.
  destruct (init ++ [l]) eqn:E.
  { destruct init; discriminate. }
  rewrite <- E. rewrite last_last, removelast_last.
  unfold joinLast.
  destruct l, v; try (rewrite <- app_assoc; reflexivity); try reflexivity.
  destruct (hasSameFormatting poem wordsOfJesus poem0 wordsOfJesus0);
    [reflexivity | rewrite <- app_assoc; reflexivity].
Qed.

Lemma refsOf_app :
  forall a b, refsOf (a ++ b) = refsOf a ++ refsOf b.
Proof. intros. unfold refsOf. apply flat_map_app. Qed.

Lemma refsOf_joinLast :
  forall l v, refsOf (joinLast l v) = refOf l ++ refOf v.
Proof.
  intros l v. destruct l, v; simpl; try reflexivity.
  destruct (hasSameFormatting poem wordsOfJesus poem0 wordsOfJesus0);
    reflexivity.
Qed.

Lemma refsOf_addOrJoin :
  forall array v, refsOf (addOrJoin array v) = refsOf array ++ refOf v.
Proof.
  intros array v.
  destruct array as [|x xs]; [simpl; rewrite app_nil_r; reflexivity|].
  destruct (@exists_last _ (x :: xs)) as [init [l E]]; [discriminate|].
  rewrite E, addOrJoin_snoc, !refsOf_app, refsOf_joinLast.
  simpl. rewrite app_nil_r, app_assoc. reflexivity.
Qed.

Lemma refsOf_fold_addOrJoin :
  forall items acc,
    refsOf (fold_left addOrJoin items acc) = refsOf acc ++ refsOf items.
Proof.
  induction items as [|v items IH]; intro acc; simpl.
  - rewrite app_nil_r. reflexivity.
  - rewrite IH, refsOf_addOrJoin, <- app_assoc. reflexivity.
Qed.

Lemma refsOf_addOrJoinAll :
  forall items, refsOf (addOrJoinAll items) = refsOf items.
Proof. intro items. unfold addOrJoinAll. apply refsOf_fold_addOrJoin. Qed.

Lemma refsOf_trimContent :
  forall content, refsOf (trimContent content) = refsOf content.
Proof.
  induction content as [|item rest IH]; [reflexivity|].
  destruct item; simpl.
  - destruct (Js.isEmpty (Js.trim (trimText s))); simpl; exact IH.
  - destruct (Js.isEmpty (Js.trim (trimText text0))); simpl; exact IH.
  - f_equal. exact IH.
Qed.

Lemma refsOf_withPoem :
  forall poem items, refsOf (map (withPoem poem) items) = refsOf items.
Proof.
  intros poem items. induction items as [|item rest IH]; [reflexivity|].
  change (refOf (withPoem poem item) ++ refsOf (map (withPoem poem) rest)
          = refOf item ++ refsOf rest).
  rewrite IH. destruct poem, item; reflexivity.
Qed.

(** ** Allocation of note ids *)

Lemma Allocates_refl : forall st, Allocates st st [].
Proof.
  intro st. exists []. simpl. rewrite app_nil_r, Nat.add_0_r. auto.
Qed.

Lemma Allocates_trans :
  forall st1 st2 st3 ids1 ids2,
    Allocates st1 st2 ids1 -> Allocates st2 st3 ids2 ->
    Allocates st1 st3 (ids1 ++ ids2).
Proof.
  intros st1 st2 st3 ids1 ids2 (n1 & F1 & M1 & S1 & C1) (n2 & F2 & M2 & S2 & C2).
  exists (n1 ++ n2). repeat split.
  - rewrite F2, F1, app_assoc. reflexivity.
  - rewrite map_app, M1, M2. reflexivity.
  - rewrite length_app, seq_app, <- S1, <- C1, <- S2. reflexivity.
  - rewrite C2, C1, length_app. lia.
Qed.

Lemma iterateNodeTextContent_allocates :
  forall node cn vn st items st',
    iterateNodeTextContent node cn vn st = (items, st') ->
    Allocates st st' (refsOf items).
Proof.
  intros node cn vn st items st' H. unfold iterateNodeTextContent in H.
  destruct (isTextNode node).
  { inversion H; subst. apply Allocates_refl. }
  destruct (isElement node && String.eqb (nodeName node) "char").
  { inversion H; subst. unfold iterateCharContent.
    destruct (styleIs (getAttribute "style" node) "wj"); apply Allocates_refl. }
  destruct (isElement node && String.eqb (nodeName node) "note").
  2:{ inversion H; subst. apply Allocates_refl. }
  destruct (styleIs (getAttribute "style" node) "f").
  2:{ inversion H; subst. apply Allocates_refl. }
  inversion H; subst; clear H. simpl.
  eexists. simpl. repeat split; try reflexivity. lia.
Qed.

Lemma iterateVerseContentLoop_allocates :
  forall walk cn vn st items st',
    iterateVerseContentLoop walk cn vn st = (items, st') ->
    Allocates st st' (refsOf items).
Proof.
  induction walk as [|[node parent] rest IH]; intros cn vn st items st' H;
    simpl in H.
  - inversion H; subst. apply Allocates_refl.
  - destruct (String.eqb (nodeName node) "verse").
    { inversion H; subst. apply Allocates_refl. }
    destruct (iterateNodeTextContent node cn (Some vn) st) as [its st1] eqn:E1.
    destruct (iterateVerseContentLoop rest cn vn st1) as [more st2] eqn:E2.
    inversion H; subst; clear H.
    rewrite refsOf_app, refsOf_withPoem.
    eapply Allocates_trans.
    + eapply iterateNodeTextContent_allocates; eassumption.
    + eapply IH; eassumption.
Qed.

Lemma iterateChapterParaVerseLoop_allocates :
  forall para gp parentAfter elements cn st content st',
    iterateChapterParaVerseLoop para gp parentAfter elements cn st
    = (content, st') ->
    Allocates st st' (flat_map refsOfContent content).
Proof.
  induction elements as [|element after IH]; intros cn st content st' H;
    simpl in H.
  - inversion H; subst. apply Allocates_refl.
  - destruct (negb (isElement element)); [eapply IH; eassumption|].
    destruct (String.eqb (nodeName element) "chapter").
    { inversion H; subst. apply Allocates_refl. }
    destruct (String.eqb (nodeName element) "verse");
      [|eapply IH; eassumption].
    destruct (hasAttribute "eid" element); [eapply IH; eassumption|].
    destruct (iterateVerseContent para gp after parentAfter cn
                (numberAttribute element) st) as [items st1] eqn:E1.
    destruct (iterateChapterParaVerseLoop para gp parentAfter after cn st1)
      as [more st2] eqn:E2.
    inversion H; subst; clear H. simpl.
    rewrite refsOf_trimContent, refsOf_addOrJoinAll.
    eapply Allocates_trans.
    + eapply iterateVerseContentLoop_allocates. exact E1.
    + eapply IH; eassumption.
Qed.

Lemma iterateHebrewSubtitleContent_allocates :
  forall nodes cn st items st',
    iterateHebrewSubtitleContent nodes cn st = (items, st') ->
    Allocates st st' (refsOf items).
Proof.
  induction nodes as [|node rest IH]; intros cn st items st' H; simpl in H.
  - inversion H; subst. apply Allocates_refl.
  - destruct (iterateNodeTextContent node cn None st) as [its st1] eqn:E1.
    destruct (iterateHebrewSubtitleContent rest cn st1) as [more st2] eqn:E2.
    inversion H; subst; clear H. rewrite refsOf_app.
    eapply Allocates_trans.
    + eapply iterateNodeTextContent_allocates; eassumption.
    + eapply IH; eassumption.
Qed.

Lemma iterateChapterParaContent_allocates :
  forall para gp parentAfter cn st content st',
    iterateChapterParaContent para gp parentAfter cn st = (content, st') ->
    Allocates st st' (flat_map refsOfContent content).
Proof.
  intros para gp parentAfter cn st content st' H.
  unfold iterateChapterParaContent in H.
  destruct (isSectionStyle (getAttribute "style" para)).
  { inversion H; subst. apply Allocates_refl. }
  destruct (styleIs (getAttribute "style" para) "b").
  { inversion H; subst. apply Allocates_refl. }
  destruct (styleIs (getAttribute "style" para) "d").
  { unfold parseHebrewSubtitle in H.
    destruct (iterateHebrewSubtitleContent (childNodes para) cn st)
      as [items st1] eqn:E.
    inversion H; subst; clear H. simpl.
    rewrite app_nil_r, refsOf_trimContent, refsOf_addOrJoinAll.
    eapply iterateHebrewSubtitleContent_allocates; eassumption. }
  destruct (noStyle (getAttribute "style" para)
            || negb (styleIgnored (getAttribute "style" para))).
  - eapply iterateChapterParaVerseLoop_allocates. exact H.
  - inversion H; subst. apply Allocates_refl.
Qed.

Lemma iterateChapterContent_allocates :
  forall u siblings cn st content st' remaining,
    iterateChapterContent u siblings cn st = (content, st', remaining) ->
    Allocates st st' (flat_map refsOfContent content).
Proof.
  induction siblings as [|sibling rest IH];
    intros cn st content st' remaining H; simpl in H.
  - inversion H; subst. apply Allocates_refl.
  - destruct (negb (isElement sibling)); [eapply IH; eassumption|].
    destruct (String.eqb (nodeName sibling) "para").
    { destruct (iterateChapterParaContent sibling u rest cn st)
        as [c st1] eqn:E1.
      destruct (iterateChapterContent u rest cn st1)
        as [[more st2] rem] eqn:E2.
      inversion H; subst; clear H. rewrite flat_map_app.
      eapply Allocates_trans.
      - eapply iterateChapterParaContent_allocates; eassumption.
      - eapply IH; eassumption. }
    destruct (String.eqb (nodeName sibling) "chapter").
    { inversion H; subst. apply Allocates_refl. }
    eapply IH; eassumption.
Qed.

(** The note ids of all the chapters of a root content, in order. *)
Lemma RootRun_noteIds :
  forall u children counter items counter',
    RootRun u children counter items counter' ->
    flat_map footnoteIds (chaptersOf items) = seq counter (counter' - counter)
    /\ counter <= counter'
    /\ Forall (fun ch => chapterRefs ch = footnoteIds ch) (chaptersOf items).
Proof.
  intros u children counter items counter' R.
  induction R as [counter
                 |child rest counter content st remaining items counter'
                    He Hn Heid E R IH
                 |child rest counter items counter' He Hn Hs R IH
                 |child rest counter items counter' Hskip R IH].
  - rewrite Nat.sub_diag. simpl. auto.
  - destruct IH as (Hids & Hle & Hall).
    apply iterateChapterContent_allocates in E.
    destruct E as (new & F & M & S & C). simpl in F, S, C.
    simpl. unfold footnoteIds at 1. simpl.
    rewrite F, M, Hids.
    split; [|split].
    + rewrite S at 1.
      replace (counter' - counter)
        with (length (flat_map refsOfContent content)
              + (counter' - noteCounter st)) by lia.
      rewrite seq_app, C. reflexivity.
    + lia.
    + constructor; [|exact Hall].
      unfold chapterRefs, footnoteIds. simpl. rewrite M. reflexivity.
  - exact IH.
  - exact IH.
Qed.

(** ** Footnote ids *)

Lemma NoDup_flat_map_part :
  forall (A B : Type) (f : A -> list B) (l : list A) (x : A),
    NoDup (flat_map f l) -> In x l -> NoDup (f x).
Proof.
  intros A B f l x. induction l as [|a l IH]; intros Hnd Hin; [contradiction|].
  simpl in Hnd. destruct Hin as [->|Hin].
  - eapply NoDup_app_remove_r. exact Hnd.
  - apply IH; [|exact Hin]. eapply NoDup_app_remove_l. exact Hnd.
Qed.

Lemma filter_noteId_absent :
  forall fs id,
    ~ In id (map noteId fs) ->
    filter (fun f => Nat.eqb (noteId f) id) fs = [].
Proof.
  induction fs as [|f fs IH]; intros id Hn; [reflexivity|].
  simpl in *. destruct (Nat.eqb_spec (noteId f) id) as [E|E].
  - exfalso. apply Hn. now left.
  - apply IH. intro Hin. apply Hn. now right.
Qed.

Lemma filter_noteId_once :
  forall fs id,
    NoDup (map noteId fs) -> In id (map noteId fs) ->
    length (filter (fun f => Nat.eqb (noteId f) id) fs) = 1.
Proof.
  induction fs as [|f fs IH]; intros id Hnd Hin; [contradiction|].
  simpl in *. inversion Hnd as [|x l Hnot Hnd']; subst.
  destruct (Nat.eqb_spec (noteId f) id) as [E|E].
  - subst. rewrite filter_noteId_absent by exact Hnot. reflexivity.
  - destruct Hin as [Hin|Hin]; [contradiction|]. apply IH; assumption.
Qed.

Lemma parse_content :
  forall usx counter tree counter',
    parse usx counter = inr (tree, counter') ->
    iterateRootContent usx counter = (tree_content tree, counter').
Proof.
  intros usx counter tree counter' H. unfold parse in H.
  destruct (querySelector (selHasAttr "book" "code") usx); [|discriminate].
  destruct (Js.isEmpty (Js.orElse (getAttribute "code" n) "")); [discriminate|].
  destruct (iterateRootContent usx counter) as [content c'].
  inversion H; subst. reflexivity.
Qed.

(** C1, as the code has it.  The note ids of a parse are the consecutive
    values of the counter of the parser object, which no chapter resets:
    over the chapters of the tree, in order, they are
    [counter, counter + 1, ...].  Hence within each chapter the ids are
    pairwise distinct, the references of the chapter content are the ids of
    the footnotes of that chapter, in the same order, and each reference
    resolves to exactly one footnote of its chapter. *)
Theorem noteIds_from_parser_counter :
  forall usx counter tree counter',
    parse usx counter = inr (tree, counter') ->
    flat_map footnoteIds (chaptersOf (tree_content tree))
    = seq counter (counter' - counter) /\
    Forall (fun ch =>
              NoDup (footnoteIds ch) /\
              chapterRefs ch = footnoteIds ch /\
              forall id, In id (chapterRefs ch) -> footnotesWithId ch id = 1)
           (chaptersOf (tree_content tree)).
Proof.
  intros usx counter tree counter' H.
  apply parse_content, iterateRootContent_run, RootRun_noteIds in H.
  destruct H as (Hids & _ & Hall). split; [exact Hids|].
  rewrite Forall_forall in *. intros ch Hin.
  assert (Hnd : NoDup (footnoteIds ch)).
  { eapply NoDup_flat_map_part; [|exact Hin].
    rewrite Hids. apply seq_NoDup. }
  split; [exact Hnd|]. split; [apply Hall; exact Hin|].
  intros id Hid. rewrite (Hall ch Hin) in Hid.
  apply filter_noteId_once; assumption.
Qed.

Lemma noteIds_from_parser_counter_witness :
  exists tree counter',
    parse twoChapters newParser = inr (tree, counter') /\
    flat_map footnoteIds (chaptersOf (tree_content tree)) = [0; 1].
Proof.
  eexists. eexists. split; [vm_compute; reflexivity|].
  exact (proj1 (noteIds_from_parser_counter twoChapters 0 _ 2 eq_refl)).
Defined.

(** C1 as stated fails: the counter is not reset at the start of a
    chapter, and the first footnote of the second chapter has id 1. *)
Lemma noteIds_not_reset_per_chapter :
  exists tree counter',
    parse twoChapters newParser = inr (tree, counter') /\
    ~ Forall firstNoteIdZero (chaptersOf (tree_content tree)).
Proof.
  eexists. eexists. split; [vm_compute; reflexivity|].
  simpl. intro H. inversion H as [|? ? _ H2]; subst.
  inversion H2 as [|? ? H3 _]; subst.
  unfold firstNoteIdZero in H3. simpl in H3. discriminate.
Qed.

(** ** Trimming *)

Lemma trimStart_headNotWhite : forall s, headNotWhite (Js.trimStart s) = true.
Proof.
  induction s as [|c s IH]; [reflexivity|]. simpl.
  destruct (Js.isWhiteSpace c) eqn:E; [exact IH|]. simpl. now rewrite E.
Qed.

Lemma trimStart_fixed :
  forall s, headNotWhite s = true -> Js.trimStart s = s.
Proof.
  intros [|c s] H; [reflexivity|]. simpl in *.
  destruct (Js.isWhiteSpace c); [discriminate|reflexivity].
Qed.

Lemma trimEnd_headNotWhite :
  forall s, headNotWhite s = true -> headNotWhite (Js.trimEnd s) = true.
Proof.
  intros [|c s] H; [reflexivity|]. simpl in *.
  destruct (Js.isWhiteSpace c) eqn:E; [discriminate|]. simpl.
  rewrite E. reflexivity.
Qed.

Lemma trimEnd_idem : forall s, Js.trimEnd (Js.trimEnd s) = Js.trimEnd s.
Proof.
  induction s as [|c s IH]; [reflexivity|]. simpl.
  destruct (Js.isWhiteSpace c && Js.isEmpty (Js.trimEnd s)) eqn:E;
    [reflexivity|].
  simpl. rewrite IH, E. reflexivity.
Qed.

Lemma trim_idem : forall s, Js.trim (Js.trim s) = Js.trim s.
Proof.
  intro s. unfold Js.trim.
  rewrite (trimStart_fixed (Js.trimEnd (Js.trimStart s))).
  - apply trimEnd_idem.
  - apply trimEnd_headNotWhite, trimStart_headNotWhite.
Qed.

Lemma trimContent_nonEmpty :
  forall content, forallb nonEmptyEntry (trimContent content) = true.
Proof.
  induction content as [|item rest IH]; [reflexivity|].
  destruct item; simpl.
  - destruct (Js.isEmpty (Js.trim (trimText s))) eqn:E; [exact IH|].
    simpl. rewrite trim_idem, E. exact IH.
  - destruct (Js.isEmpty (Js.trim (trimText text0))) eqn:E; [exact IH|].
    simpl. rewrite trim_idem, E. exact IH.
  - exact IH.
Qed.

(** ** Coalescing *)

Lemma coalesced_replace_last :
  forall init l l' tail,
    (forall x, mergeable x l' = mergeable x l) ->
    coalesced (l' :: tail) = true ->
    coalesced (init ++ [l]) = true ->
    coalesced (init ++ l' :: tail) = true.
Proof.
  induction init as [|a init IH]; intros l l' tail Hm Ht Hc; [exact Ht|].
  destruct init as [|b init].
  - simpl in Hc. rewrite andb_true_r in Hc.
    change (negb (mergeable a l') && coalesced (l' :: tail) = true).
    rewrite Hm, Hc, Ht. reflexivity.
  - change (negb (mergeable a b) && coalesced (b :: init ++ [l]) = true) in Hc.
    change (negb (mergeable a b) && coalesced ((b :: init) ++ l' :: tail)
            = true).
    apply andb_true_iff in Hc. destruct Hc as [H1 H2]. rewrite H1. simpl negb.
    apply (IH l l' tail Hm Ht H2).
Qed.

Lemma coalesced_addOrJoin :
  forall array v,
    coalesced array = true -> coalesced (addOrJoin array v) = true.
Proof.
  intros array v Hc.
  destruct array as [|x xs]; [reflexivity|].
  destruct (@exists_last _ (x :: xs)) as [init [l E]]; [discriminate|].
  rewrite E in *. rewrite addOrJoin_snoc.
  destruct l as [a|a p w|n p], v as [b|b p' w'|m p']; simpl joinLast;
    try destruct (hasSameFormatting p w p' w') eqn:F;
    (eapply coalesced_replace_last; [ | | exact Hc];
     [intros []; reflexivity | simpl; try rewrite F; reflexivity]).
Qed.

Lemma coalesced_fold_addOrJoin :
  forall items acc,
    coalesced acc = true -> coalesced (fold_left addOrJoin items acc) = true.
Proof.
  induction items as [|v items IH]; intros acc H; [exact H|].
  simpl. apply IH, coalesced_addOrJoin, H.
Qed.

Lemma coalesced_addOrJoinAll :
  forall items, coalesced (addOrJoinAll items) = true.
Proof. intro items. apply coalesced_fold_addOrJoin. reflexivity. Qed.

(** ** The shape of the inline arrays *)

Lemma iterateChapterParaVerseLoop_normalised :
  forall para gp parentAfter elements cn st content st',
    iterateChapterParaVerseLoop para gp parentAfter elements cn st
    = (content, st') ->
    Forall normalised (flat_map inlineArrayOf content).
Proof.
  induction elements as [|element after IH]; intros cn st content st' H;
    simpl in H.
  - inversion H; subst. constructor.
  - destruct (negb (isElement element)); [eapply IH; eassumption|].
    destruct (String.eqb (nodeName element) "chapter").
    { inversion H; subst. constructor. }
    destruct (String.eqb (nodeName element) "verse");
      [|eapply IH; eassumption].
    destruct (hasAttribute "eid" element); [eapply IH; eassumption|].
    repeat split_let. inversion H; subst; clear H. simpl.
    constructor; [eexists; reflexivity|]. eapply IH; eassumption.
Qed.

Lemma iterateChapterParaContent_normalised :
  forall para gp parentAfter cn st content st',
    iterateChapterParaContent para gp parentAfter cn st = (content, st') ->
    Forall normalised (flat_map inlineArrayOf content).
Proof.
  intros para gp parentAfter cn st content st' H.
  unfold iterateChapterParaContent in H.
  destruct (isSectionStyle (getAttribute "style" para)).
  { inversion H; subst. constructor. }
  destruct (styleIs (getAttribute "style" para) "b").
  { inversion H; subst. constructor. }
  destruct (styleIs (getAttribute "style" para) "d").
  { unfold parseHebrewSubtitle in H.
    destruct (iterateHebrewSubtitleContent (childNodes para) cn st)
      as [items st1].
    inversion H; subst; clear H. simpl.
    constructor; [eexists; reflexivity|constructor]. }
  destruct (noStyle (getAttribute "style" para)
            || negb (styleIgnored (getAttribute "style" para))).
  - eapply iterateChapterParaVerseLoop_normalised. exact H.
  - inversion H; subst. constructor.
Qed.

Lemma iterateChapterContent_normalised :
  forall u siblings cn st content st' remaining,
    iterateChapterContent u siblings cn st = (content, st', remaining) ->
    Forall normalised (flat_map inlineArrayOf content).
Proof.
  induction siblings as [|sibling rest IH];
    intros cn st content st' remaining H; simpl in H.
  - inversion H; subst. constructor.
  - destruct (negb (isElement sibling)); [eapply IH; eassumption|].
    destruct (String.eqb (nodeName sibling) "para").
    { repeat split_let. inversion H; subst; clear H.
      rewrite flat_map_app. apply Forall_app. split.
      - eapply iterateChapterParaContent_normalised; eassumption.
      - eapply IH; eassumption. }
    destruct (String.eqb (nodeName sibling) "chapter").
    { inversion H; subst. constructor. }
    eapply IH; eassumption.
Qed.

Lemma RootRun_normalised :
  forall u children counter items counter',
    RootRun u children counter items counter' ->
    Forall normalised
      (flat_map (fun ch => flat_map inlineArrayOf (chapter_content ch))
                (chaptersOf items)).
Proof.
  intros u children counter items counter' R.
  induction R as [counter
                 |child rest counter content st remaining items counter'
                    He Hn Heid E R IH
                 |child rest counter items counter' He Hn Hs R IH
                 |child rest counter items counter' Hskip R IH];
    try exact IH.
  - constructor.
  - simpl. apply Forall_app. split; [|exact IH].
    eapply iterateChapterContent_normalised; eassumption.
Qed.

(** C2 as stated fails: when [trimContent] drops the emptied span between
    two strings, the strings end up adjacent. *)
Lemma adjacent_strings_after_trim :
  exists tree counter',
    parse emptiedSpan newParser = inr (tree, counter') /\
    inlineArrays tree = [[IString "a"; IString "b"]] /\
    ~ Forall (fun arr => coalesced arr = true /\
                         forallb nonEmptyEntry arr = true)
             (inlineArrays tree).
Proof.
  eexists. eexists. split; [vm_compute; reflexivity|].
  split; [reflexivity|].
  intro H. inversion H as [|? ? [H1 _] _]; subst. discriminate H1.
Qed.

(** ** Verse numbers *)

Lemma iterateChapterParaVerseLoop_numbers :
  forall para gp parentAfter elements cn st,
    verseNumbers
      (fst (iterateChapterParaVerseLoop para gp parentAfter elements cn st))
    = verseMilestones elements.
Proof.
  induction elements as [|element after IH]; intros cn st; [reflexivity|].
  simpl.
  destruct (negb (isElement element)); [apply IH|].
  destruct (String.eqb (nodeName element) "chapter"); [reflexivity|].
  destruct (String.eqb (nodeName element) "verse"); [|apply IH].
  destruct (hasAttribute "eid" element); simpl; [apply IH|].
  destruct (iterateVerseContent para gp after parentAfter cn
              (numberAttribute element) st) as [items st1].
  specialize (IH cn st1).
  destruct (iterateChapterParaVerseLoop para gp parentAfter after cn st1)
    as [more st2].
  simpl in *. rewrite <- IH. reflexivity.
Qed.

Lemma iterateChapterParaContent_numbers :
  forall para gp parentAfter cn st,
    verseNumbers (fst (iterateChapterParaContent para gp parentAfter cn st))
    = if isVersePara para then verseMilestones (childNodes para) else [].
Proof.
  intros para gp parentAfter cn st.
  unfold iterateChapterParaContent, isVersePara.
  destruct (isSectionStyle (getAttribute "style" para)); [reflexivity|].
  destruct (styleIs (getAttribute "style" para) "b"); [reflexivity|].
  destruct (styleIs (getAttribute "style" para) "d").
  { unfold parseHebrewSubtitle.
    destruct (iterateHebrewSubtitleContent (childNodes para) cn st).
    reflexivity. }
  destruct (noStyle (getAttribute "style" para)
            || negb (styleIgnored (getAttribute "style" para)));
    [|reflexivity].
  apply iterateChapterParaVerseLoop_numbers.
Qed.

Lemma verseNumbers_app :
  forall a b, verseNumbers (a ++ b) = verseNumbers a ++ verseNumbers b.
Proof. intros. unfold verseNumbers. apply flat_map_app. Qed.

Lemma iterateChapterContent_numbers :
  forall u siblings cn st,
    verseNumbers (fst (fst (iterateChapterContent u siblings cn st)))
    = chapterMilestones siblings.
Proof.
  induction siblings as [|sibling rest IH]; intros cn st; [reflexivity|].
  simpl.
  destruct (negb (isElement sibling)); [apply IH|].
  destruct (String.eqb (nodeName sibling) "para").
  { pose proof (iterateChapterParaContent_numbers sibling u rest cn st) as Hp.
    destruct (iterateChapterParaContent sibling u rest cn st) as [c st1].
    specialize (IH cn st1).
    destruct (iterateChapterContent u rest cn st1) as [[more st2] rem].
    simpl in *. rewrite verseNumbers_app, Hp, IH. reflexivity. }
  destruct (String.eqb (nodeName sibling) "chapter"); [reflexivity|].
  apply IH.
Qed.

Lemma ChapterOfMilestone_cons :
  forall consumed children ch,
    ChapterOfMilestone children ch ->
    ChapterOfMilestone (consumed ++ children) ch.
Proof.
  intros consumed children ch (pre & child & rest & E & H).
  exists (consumed ++ pre), child, rest. split; [|exact H].
  rewrite E, app_assoc. reflexivity.
Qed.

Lemma RootRun_chapters :
  forall u children counter items counter',
    RootRun u children counter items counter' ->
    Forall (ChapterOfMilestone children) (chaptersOf items).
Proof.
  intros u children counter items counter' R.
  induction R as [counter
                 |child rest counter content st remaining items counter'
                    He Hn Heid E R IH
                 |child rest counter items counter' He Hn Hs R IH
                 |child rest counter items counter' Hskip R IH].
  - constructor.
  - simpl. constructor.
    + exists [], child, rest. simpl. repeat split; auto.
      pose proof (iterateChapterContent_numbers u rest (numberAttribute child)
                    {| noteCounter := counter; footnotes := [] |}) as Hn'.
      rewrite E in Hn'. exact Hn'.
    + destruct (iterateChapterContent_remaining _ _ _ _ _ _ _ E)
        as [consumed ->].
      eapply Forall_impl; [|exact IH].
      intros ch Hch.
      apply (ChapterOfMilestone_cons (child :: consumed)). exact Hch.
  - simpl. eapply Forall_impl; [|exact IH].
    intros ch Hch. apply (ChapterOfMilestone_cons [child]). exact Hch.
  - eapply Forall_impl; [|exact IH].
    intros ch Hch. apply (ChapterOfMilestone_cons [child]). exact Hch.
Qed.

(** C3, as the code has it.  Every chapter of a parse tree was opened by
    a start [chapter] milestone among the children of the root, and its
    verse numbers, in emission order, are the values
    [parseInt(number || '0')] of the start [verse] milestones of the
    paragraphs that follow that milestone, in document order.  The parser
    compares no two of them and checks none against 1. *)
Theorem verse_numbers_are_milestone_numbers :
  forall usx counter tree counter',
    parse usx counter = inr (tree, counter') ->
    Forall (ChapterOfMilestone (childNodes usx))
           (chaptersOf (tree_content tree)).
Proof.
  intros usx counter tree counter' H.
  apply parse_content, iterateRootContent_run, RootRun_chapters in H.
  exact H.
Qed.

Lemma verse_numbers_are_milestone_numbers_witness :
  exists tree counter',
    parse versesOutOfOrder newParser = inr (tree, counter') /\
    Forall (ChapterOfMilestone (childNodes versesOutOfOrder))
           (chaptersOf (tree_content tree)).
Proof.
  eexists. eexists. split; [vm_compute; reflexivity|].
  exact (verse_numbers_are_milestone_numbers versesOutOfOrder 0 _ 0 eq_refl).
Defined.

(** C3 as stated fails: the verse numbers of the source come out as they
    are, here 2, 1 and 0 (the milestone without a number). *)
Lemma verse_numbers_not_increasing :
  exists tree counter',
    parse versesOutOfOrder newParser = inr (tree, counter') /\
    map (fun ch => verseNumbers (chapter_content ch))
        (chaptersOf (tree_content tree))
    = [[Js.Int 2; Js.Int 1; Js.Int 0]] /\
    ~ Forall (fun ch =>
                forallb atLeastOne (verseNumbers (chapter_content ch)) = true /\
                strictlyIncreasing (verseNumbers (chapter_content ch)) = true)
             (chaptersOf (tree_content tree)).
Proof.
  eexists. eexists. split; [vm_compute; reflexivity|].
  split; [reflexivity|].
  intro H. inversion H as [|? ? [_ H1] _]; subst. discriminate H1.
Qed.

(** ** Poetry *)

(** C4, as the code has it.  The walk over the poetry paragraph yields
    the two text objects of the spec, both of poem level 2, the first with
    [wordsOfJesus]; [addOrJoin] keeps them apart; [trimContent] then trims
    each entry, so that the second entry of the verse is "are the poor",
    without the leading space.  This holds whether the verse was opened in
    the paragraph before or in the poetry paragraph itself. *)
Theorem poetry_entries_are_trimmed :
  (forall cn vn st,
     iterateVerseContentLoop [(blessedSpan, q2Para); (poorText, q2Para)]
       cn vn st = (poetryYielded, st)) /\
  addOrJoinAll poetryYielded = poetryYielded /\
  trimContent poetryYielded = poetryKept /\
  (forall counter,
     exists tree,
       parse poetryAfterVerse counter = inr (tree, counter) /\
       inlineArrays tree = [poetryKept]) /\
  (forall counter,
     exists tree,
       parse poetryInVerse counter = inr (tree, counter) /\
       inlineArrays tree = [poetryKept]).
Proof.
  split; [intros; reflexivity|].
  split; [reflexivity|]. split; [reflexivity|].
  split; intro counter; eexists; (split; [reflexivity|reflexivity]).
Qed.

(** C4 as stated fails: the second entry of the verse has lost its
    leading space. *)
Lemma poetry_leading_space_not_kept :
  exists tree counter',
    parse poetryAfterVerse newParser = inr (tree, counter') /\
    inlineArrays tree <> [poetryYielded].
Proof.
  eexists. eexists. split; [vm_compute; reflexivity|].
  vm_compute. discriminate.
Qed.

(** ** Footnotes *)

Lemma takeDigits_spec :
  forall m s k rest,
    takeDigits m s = (k, rest) ->
    exists d,
      s = (d ++ rest)%string /\ String.length d = k /\ k <= m /\
      allDigits d = true.
Proof.
  induction m as [|m IH]; intros s k rest H; simpl in H.
  - inversion H; subst. exists EmptyString. auto.
  - destruct s as [|c r].
    { inversion H; subst. exists EmptyString. repeat split; auto. lia. }
    destruct (Js.isDigit c) eqn:D.
    + destruct (takeDigits m r) as [k' rest'] eqn:E.
      inversion H; subst; clear H.
      destruct (IH _ _ _ E) as (d & -> & L & Hle & A).
      exists (String c d). simpl. rewrite D, A, L.
      repeat split; auto. lia.
    + inversion H; subst. exists EmptyString. repeat split; auto. lia.
Qed.

(** What [verseReferenceRegex] removes is a match of
    [[0-9]{1,3}:[0-9]{1,3}] at the start of the string. *)
Lemma verseReferenceRegex_sound :
  forall s rest,
    verseReferenceRegex s = Some rest ->
    exists d1 d2,
      s = (d1 ++ ":" ++ d2 ++ rest)%string /\
      allDigits d1 = true /\ allDigits d2 = true /\
      1 <= String.length d1 <= 3 /\ 1 <= String.length d2 <= 3.
Proof.
  intros s rest H. unfold verseReferenceRegex in H.
  destruct (takeDigits 3 s) as [k1 r1] eqn:E1.
  destruct k1 as [|k1]; [discriminate|].
  destruct r1 as [|c r]; [discriminate|].
  destruct (Ascii.eqb_spec c ":") as [->|]; [|discriminate].
  destruct (takeDigits 3 r) as [k2 rest2] eqn:E2.
  destruct k2 as [|k2]; [discriminate|].
  inversion H; subst; clear H.
  apply takeDigits_spec in E1. destruct E1 as (d1 & -> & L1 & Hl1 & A1).
  apply takeDigits_spec in E2. destruct E2 as (d2 & -> & L2 & Hl2 & A2).
  exists d1, d2. simpl. repeat split; auto; lia.
Qed.

Lemma orElse_empty : forall s, Js.orElse (Some s) "" = s.
Proof. intros [|c r]; reflexivity. Qed.

(** ** The book element, the header and the title *)

Lemma querySelector_find :
  forall sel root, querySelector sel root = find sel (descendants root).
Proof.
  intros sel root. unfold querySelector, querySelectorAll.
  induction (descendants root) as [|n l IH]; [reflexivity|].
  simpl. destruct (sel n); [reflexivity|exact IH].
Qed.

(** C6, as the code has it.  [parse] looks at the first [book] element
    below the root that carries a [code] attribute.  It throws when there
    is none, it throws when the code of that element is empty, and in every
    other case it returns a tree whose id is the code of that element. *)
Theorem parse_fails_on_first_book_code :
  forall usx counter,
    match firstBookWithCodeAttribute usx with
    | None => parse usx counter = inl NoBookElement
    | Some book =>
        match getAttribute "code" book with
        | Some (String c r) =>
            exists tree counter',
              parse usx counter = inr (tree, counter') /\
              tree_id tree = String c r
        | _ => parse usx counter = inl NoBookCode
        end
    end.
Proof.
  intros usx counter. unfold firstBookWithCodeAttribute, parse.
  rewrite querySelector_find.
  destruct (find (selHasAttr "book" "code") (descendants usx)) as [book|];
    [|reflexivity].
  destruct (getAttribute "code" book) as [[|c r]|]; try reflexivity.
  simpl. destruct (iterateRootContent usx counter) as [content counter'].
  eexists. eexists. split; reflexivity.
Qed.

(** C6 as stated fails: the document holds a [book] element with the code
    GEN, and [parse] throws, because an earlier [book] element has an
    empty code. *)
Lemma parse_fails_despite_book_code :
  documentHasBookCode emptyThenGEN = true /\
  parse emptyThenGEN newParser = inl NoBookCode.
Proof. split; reflexivity. Qed.

Lemma join_all_nonEmpty :
  forall l,
    forallb nonEmptyString l = true ->
    filter (fun t => negb (Js.isEmpty t)) l = l.
Proof.
  induction l as [|x l IH]; intro H; [reflexivity|].
  simpl in *. apply andb_true_iff in H. destruct H as [Hx Hl].
  unfold nonEmptyString in Hx. rewrite Hx, (IH Hl). reflexivity.
Qed.

(** C7, as the code has it.  The title is absent when the document has
    no paragraph of style [mt1], [mt2] or [mt3]; otherwise it is the text
    contents of those paragraphs that are not empty, in tree order, joined
    by one space.  When no title paragraph is empty, that is the join of
    all their text contents.  The header is the text content of the first
    paragraph of style [h], and absent without one. *)
Theorem title_joins_nonempty_parts :
  forall usx counter tree counter',
    parse usx counter = inr (tree, counter') ->
    tree_title tree
    = match titleParas usx with
      | [] => None
      | ps => Some (Js.join " "
                      (filter nonEmptyString (map textContent ps)))
      end /\
    (forallb nonEmptyString (map textContent (titleParas usx)) = true ->
     tree_title tree = titleAsStated usx) /\
    tree_header tree
    = option_map textContent
        (find (selAttrIs "para" "style" "h") (descendants usx)).
Proof.
  intros usx counter tree counter' H. unfold parse in H.
  destruct (querySelector (selHasAttr "book" "code") usx); [|discriminate].
  destruct (Js.isEmpty (Js.orElse (getAttribute "code" n) "")); [discriminate|].
  destruct (iterateRootContent usx counter) as [content c'].
  inversion H; subst; clear H. simpl.
  unfold titleOf, titleAsStated, titleParas, querySelectorAll.
  split; [|split].
  - destruct (filter isTitlePara (descendants usx)); reflexivity.
  - intro Hall.
    destruct (filter isTitlePara (descendants usx)) as [|p ps];
      [reflexivity|].
    f_equal. f_equal. apply join_all_nonEmpty. exact Hall.
  - unfold headerOf. rewrite querySelector_find.
    destruct (find (selAttrIs "para" "style" "h") (descendants usx)) as [h|];
      [|reflexivity].
    simpl. destruct (textContent h); reflexivity.
Qed.

Lemma title_joins_nonempty_parts_witness :
  exists tree counter',
    parse emptyTitlePart newParser = inr (tree, counter') /\
    tree_title tree = Some "A B" /\
    tree_header tree = Some "Genesis".
Proof.
  eexists. eexists. split; [vm_compute; reflexivity|].
  pose proof (title_joins_nonempty_parts emptyTitlePart 0 _ 0 eq_refl)
    as (Ht & _ & Hh).
  split; [exact Ht|exact Hh].
Defined.

(** C7 as stated fails: with an empty title paragraph between two others
    the join of all the text contents has two spaces, and the title of the
    tree has one. *)
Lemma title_skips_empty_parts :
  exists tree counter',
    parse emptyTitlePart newParser = inr (tree, counter') /\
    tree_title tree = Some "A B" /\
    titleAsStated emptyTitlePart = Some "A  B" /\
    tree_title tree <> titleAsStated emptyTitlePart.
Proof.
  eexists. eexists. split; [vm_compute; reflexivity|].
  split; [reflexivity|]. split; [reflexivity|]. vm_compute. discriminate.
Qed.

(** ** Path normalisation *)

Lemma replaceSpacesWithUnderscores_get :
  forall s i,
    String.get i (replaceSpacesWithUnderscores s)
    = option_map (fun c => if Ascii.eqb c " " then "_"%char else c)
        (String.get i s).
Proof.
  induction s as [|c s IH]; intro i; [reflexivity|].
  destruct i as [|i]; simpl; [reflexivity|apply IH].
Qed.

(** C8.  [replaceSpacesWithUnderscores] keeps the length of its input;
    at each position it puts an underscore for a space and keeps every
    other code unit; it is idempotent; its result holds no space.  The two
    cases of the test suite hold. *)
Theorem replaceSpacesWithUnderscores_spec :
  (forall s,
     String.length (replaceSpacesWithUnderscores s) = String.length s) /\
  (forall s i,
     String.get i (replaceSpacesWithUnderscores s)
     = option_map (fun c => if Ascii.eqb c " " then "_"%char else c)
         (String.get i s)) /\
  (forall s,
     replaceSpacesWithUnderscores (replaceSpacesWithUnderscores s)
     = replaceSpacesWithUnderscores s) /\
  (forall s i,
     String.get i (replaceSpacesWithUnderscores s) <> Some " "%char) /\
  replaceSpacesWithUnderscores "Hello World" = "Hello_World" /\
  replaceSpacesWithUnderscores "Hello World 2" = "Hello_World_2".
Proof.
  split; [|split; [exact replaceSpacesWithUnderscores_get|split; [|split]]].
  - induction s as [|c s IH]; [reflexivity|]. simpl. now rewrite IH.
  - induction s as [|c s IH]; [reflexivity|]. simpl. rewrite IH.
    destruct (Ascii.eqb_spec c " "); [reflexivity|].
    destruct (Ascii.eqb_spec c " "); [contradiction|reflexivity].
  - intros s i. rewrite replaceSpacesWithUnderscores_get.
    destruct (String.get i s) as [c|]; [|discriminate].
    simpl. destruct (Ascii.eqb_spec c " ") as [->|Hc]; [discriminate|].
    intro H. inversion H. contradiction.
  - split; reflexivity.
Qed.

(** ** Root items *)

Lemma RootItemSource_incl :
  forall children children' item,
    (forall n, In n children -> In n children') ->
    RootItemSource children item -> RootItemSource children' item.
Proof.
  intros children children' [ch|h] Hincl H; simpl in *;
    destruct H as (n & Hin & H); exists n; (split; [apply Hincl, Hin|exact H]).
Qed.

Lemma RootRun_items :
  forall u children counter items counter',
    RootRun u children counter items counter' ->
    Forall (RootItemSource children) items.
Proof.
  intros u children counter items counter' R.
  induction R as [counter
                 |child rest counter content st remaining items counter'
                    He Hn Heid E R IH
                 |child rest counter items counter' He Hn Hs R IH
                 |child rest counter items counter' Hskip R IH].
  - constructor.
  - constructor.
    + exists child. simpl. auto.
    + destruct (iterateChapterContent_remaining _ _ _ _ _ _ _ E)
        as [consumed ->].
      eapply Forall_impl; [|exact IH].
      intros item. apply RootItemSource_incl.
      intros n Hin. right. apply in_or_app. now right.
  - constructor.
    + exists child. simpl. auto.
    + eapply Forall_impl; [|exact IH].
      intros item. apply RootItemSource_incl. intros n Hin. now right.
  - eapply Forall_impl; [|exact IH].
    intros item. apply RootItemSource_incl. intros n Hin. now right.
Qed.

(** Before the first [chapter] element the root loop yields the section
    headings and nothing else. *)
Lemma iterateRootLoop_prefix :
  forall pre rest u counter fuel,
    forallb notChapter pre = true ->
    length (pre ++ rest) <= fuel ->
    iterateRootLoop fuel u (pre ++ rest) counter
    = (rootHeadings pre ++ fst (iterateRootLoop (length rest) u rest counter),
       snd (iterateRootLoop (length rest) u rest counter)).
Proof.
  induction pre as [|a pre IH]; intros rest u counter fuel Hnc Hl.
  - simpl in *. rewrite (iterateRootLoop_fuel fuel (length rest)) by lia.
    destruct (iterateRootLoop (length rest) u rest counter). reflexivity.
  - simpl in Hnc. apply andb_true_iff in Hnc. destruct Hnc as [Ha Hpre].
    unfold notChapter in Ha. apply negb_true_iff in Ha.
    destruct fuel as [|fuel]; [simpl in Hl; lia|].
    simpl in Hl.
    change (rootHeadings (a :: pre)) with (rootHeadingOf a ++ rootHeadings pre).
    unfold rootHeadingOf. simpl iterateRootLoop. rewrite Ha.
    destruct (isElement a); simpl negb; cbv iota.
    2:{ simpl. apply IH; [exact Hpre|lia]. }
    simpl andb.
    destruct (String.eqb (nodeName a) "para"); simpl andb.
    2:{ simpl. apply IH; [exact Hpre|lia]. }
    destruct (isSectionStyle (getAttribute "style" a)).
    + rewrite (IH rest u counter fuel Hpre) by lia. reflexivity.
    + simpl. apply IH; [exact Hpre|lia].
Qed.

(** C9.  Every item of the root content of a parse tree is a chapter,
    opened by a start [chapter] milestone among the children of the root,
    or a heading made from a paragraph of style [s1] to [s4] among the
    children of the root.  Before the first [chapter] element, the root
    content holds the headings of those paragraphs and nothing else:
    paragraphs of other styles, text and verse milestones yield no item. *)
Theorem root_items_are_chapters_and_section_headings :
  forall usx counter tree counter',
    parse usx counter = inr (tree, counter') ->
    Forall (RootItemSource (childNodes usx)) (tree_content tree) /\
    (forall pre rest,
       childNodes usx = pre ++ rest ->
       forallb notChapter pre = true ->
       tree_content tree
       = rootHeadings pre
         ++ fst (iterateRootLoop (length rest) usx rest counter)).
Proof.
  intros usx counter tree counter' H.
  apply parse_content in H. split.
  - eapply RootRun_items, iterateRootContent_run, H.
  - intros pre rest E Hnc. unfold iterateRootContent in H.
    rewrite E in H.
    rewrite (iterateRootLoop_prefix pre rest usx counter _ Hnc) in H
      by reflexivity.
    inversion H; subst. reflexivity.
Qed.

Lemma root_items_are_chapters_and_section_headings_witness :
  exists tree counter',
    parse noChapters newParser = inr (tree, counter') /\
    tree_content tree = [RootHeading ["The Creation"]].
Proof.
  eexists. eexists. split; [vm_compute; reflexivity|].
  exact (proj2 (root_items_are_chapters_and_section_headings
                  noChapters 0 _ 0 eq_refl)
           (childNodes noChapters) [] eq_refl eq_refl).
Defined.

(** ** Milestones without a number *)

Lemma numberAttribute_missing :
  forall name attrs kids,
    lookupAttr "number" attrs = None ->
    numberAttribute (Element name attrs kids) = Js.Int 0.
Proof.
  intros name attrs kids H. unfold numberAttribute. simpl. rewrite H.
  reflexivity.
Qed.

Lemma iterateChapterParaVerseLoop_prefix :
  forall para gp parentAfter pre rest cn st,
    forallb notChapter pre = true ->
    exists before st1,
      iterateChapterParaVerseLoop para gp parentAfter (pre ++ rest) cn st
      = (before
         ++ fst (iterateChapterParaVerseLoop para gp parentAfter rest cn st1),
         snd (iterateChapterParaVerseLoop para gp parentAfter rest cn st1)).
Proof.
  induction pre as [|a pre IH]; intros rest cn st Hnc.
  - exists [], st. simpl.
    destruct (iterateChapterParaVerseLoop para gp parentAfter rest cn st).
    reflexivity.
  - simpl in Hnc. apply andb_true_iff in Hnc. destruct Hnc as [Ha Hpre].
    unfold notChapter in Ha. apply negb_true_iff in Ha.
    simpl. rewrite Ha.
    destruct (negb (isElement a)); [apply IH, Hpre|].
    destruct (String.eqb (nodeName a) "verse"); [|apply IH, Hpre].
    destruct (hasAttribute "eid" a); [apply IH, Hpre|].
    destruct (iterateVerseContent para gp (pre ++ rest) parentAfter cn
                (numberAttribute a) st) as [items st1].
    destruct (IH rest cn st1 Hpre) as (before & st2 & E).
    rewrite E.
    exists (Verse (numberAttribute a) (trimContent (addOrJoinAll items))
            :: before), st2.
    reflexivity.
Qed.

Lemma iterateRootFrom_step :
  forall u child rest counter,
    iterateRootFrom u (child :: rest) counter
    = if negb (isElement child) then iterateRootFrom u rest counter
      else if String.eqb (nodeName child) "chapter" then
        if hasAttribute "eid" child then iterateRootFrom u rest counter
        else
          (RootChapter
             {| chapter_number := numberAttribute child;
                chapter_content :=
                  fst (fst (iterateChapterContent u rest (numberAttribute child)
                              {| noteCounter := counter; footnotes := [] |}));
                chapter_footnotes :=
                  footnotes
                    (snd (fst (iterateChapterContent u rest
                                 (numberAttribute child)
                                 {| noteCounter := counter; footnotes := [] |})))
             |}
             :: fst (iterateRootFrom u
                       (snd (iterateChapterContent u rest
                               (numberAttribute child)
                               {| noteCounter := counter; footnotes := [] |}))
                       (noteCounter
                          (snd (fst (iterateChapterContent u rest
                                       (numberAttribute child)
                                       {| noteCounter := counter;
                                          footnotes := [] |}))))),
           snd (iterateRootFrom u
                  (snd (iterateChapterContent u rest (numberAttribute child)
                          {| noteCounter := counter; footnotes := [] |}))
                  (noteCounter
                     (snd (fst (iterateChapterContent u rest
                                  (numberAttribute child)
                                  {| noteCounter := counter;
                                     footnotes := [] |}))))))
      else if String.eqb (nodeName child) "para" then
        if isSectionStyle (getAttribute "style" child) then
          (RootHeading (headingContent child)
             :: fst (iterateRootFrom u rest counter),
           snd (iterateRootFrom u rest counter))
        else iterateRootFrom u rest counter
      else iterateRootFrom u rest counter.
Proof.
  intros u child rest counter. unfold iterateRootFrom. simpl.
  destruct (negb (isElement child)); [reflexivity|].
  destruct (String.eqb (nodeName child) "chapter").
  - destruct (hasAttribute "eid" child); [reflexivity|].
    destruct (iterateChapterContent u rest (numberAttribute child)
                {| noteCounter := counter; footnotes := [] |})
      as [[content st] remaining] eqn:E.
    apply iterateChapterContent_remaining_length in E.
    rewrite (iterateRootLoop_fuel (length rest) (length remaining))
      by (exact E || reflexivity).
    cbn [fst snd].
    destruct (iterateRootLoop (length remaining) u remaining (noteCounter st)).
    reflexivity.
  - destruct (String.eqb (nodeName child) "para"); [|reflexivity].
    destruct (isSectionStyle (getAttribute "style" child)); [|reflexivity].
    destruct (iterateRootLoop (length rest) u rest counter). reflexivity.
Qed.

(** From a state outside a chapter the root loop comes to every node that
    the iterator holds outside a chapter; from a state inside a chapter it
    does so after the chapter has ended. *)
Lemma iterateRootFrom_resumes :
  forall u pre,
    (forall tail counter,
       insideChapterAfter false pre = false ->
       exists before counter1,
         iterateRootFrom u (pre ++ tail) counter
         = (before ++ fst (iterateRootFrom u tail counter1),
            snd (iterateRootFrom u tail counter1))) /\
    (forall tail cn st,
       insideChapterAfter true pre = false ->
       exists before counter1,
         iterateRootFrom u
           (snd (iterateChapterContent u (pre ++ tail) cn st))
           (noteCounter (snd (fst (iterateChapterContent u (pre ++ tail) cn st))))
         = (before ++ fst (iterateRootFrom u tail counter1),
            snd (iterateRootFrom u tail counter1))).
Proof.
  intros u pre. induction pre as [|a pre [IH1 IH2]].
  - split.
    + intros tail counter _. exists [], counter. simpl.
      destruct (iterateRootFrom u tail counter). reflexivity.
    + intros tail cn st H. discriminate H.
  - split.
    + intros tail counter H. simpl in H.
      change ((a :: pre) ++ tail) with (a :: pre ++ tail).
      rewrite iterateRootFrom_step. unfold isChapterStart in H.
      destruct (isElement a); simpl negb; cbv iota.
      2:{ simpl in H. apply IH1, H. }
      simpl andb in H.
      destruct (String.eqb (nodeName a) "chapter").
      * destruct (hasAttribute "eid" a); simpl in H; [apply IH1, H|].
        destruct (IH2 tail (numberAttribute a)
                    {| noteCounter := counter; footnotes := [] |} H)
          as (before & c1 & E).
        rewrite E. cbn [fst snd].
        eexists (_ :: before), c1. reflexivity.
      * simpl in H. destruct (String.eqb (nodeName a) "para");
          [|apply IH1, H].
        destruct (isSectionStyle (getAttribute "style" a)); [|apply IH1, H].
        destruct (IH1 tail counter H) as (before & c1 & E).
        rewrite E. cbn [fst snd].
        exists (RootHeading (headingContent a) :: before), c1. reflexivity.
    + intros tail cn st H. simpl in H.
      change ((a :: pre) ++ tail) with (a :: pre ++ tail).
      simpl iterateChapterContent. unfold isChapterElement in H.
      destruct (isElement a); simpl negb; cbv iota.
      2:{ simpl in H. apply IH2, H. }
      simpl andb in H.
      destruct (String.eqb (nodeName a) "para") eqn:Hp.
      { assert (Hc : String.eqb (nodeName a) "chapter" = false).
        { apply String.eqb_eq in Hp. rewrite Hp. reflexivity. }
        rewrite Hc in H. simpl in H.
        destruct (iterateChapterParaContent a u (pre ++ tail) cn st)
          as [c st1].
        destruct (IH2 tail cn st1 H) as (before & c1 & E).
        destruct (iterateChapterContent u (pre ++ tail) cn st1)
          as [[more st2] rem].
        cbn [fst snd] in *. exists before, c1. exact E. }
      destruct (String.eqb (nodeName a) "chapter"); simpl in H.
      * cbn [fst snd]. apply IH1, H.
      * apply IH2, H.
Qed.




(** ** The walk, as the source words it *)

(** Without a next element sibling of the parent there is no uncle and the
    walk ends, whatever nodes follow the parent. *)
Lemma iterateCousins_no_uncle :
  forall gp parentAfter,
    existsb isElement parentAfter = false ->
    iterateCousins gp parentAfter = [].
Proof.
  intros gp [|n rest] H; [reflexivity|].
  simpl in H. apply orb_false_iff in H. destruct H as [Hn Hrest].
  destruct n; try discriminate; simpl; rewrite Hrest; reflexivity.
Qed.

(** With an uncle, the nodes between the parent and the uncle are yielded
    with the grandparent as their parent, then the first child of the
    uncle and the walk from that child. *)
Lemma iterateCousins_uncle :
  forall gp between name attrs kids rest,
    existsb isElement between = false ->
    iterateCousins gp (between ++ Element name attrs kids :: rest)
    = map (fun s => (s, gp)) between
      ++ match kids with
         | [] => []
         | child :: siblings =>
             (child, Element name attrs kids)
               :: iterateSiblingsAndCousins (Element name attrs kids) gp
                    siblings rest
         end.
Proof.
  intros gp between name attrs kids rest.
  induction between as [|n between IH]; intro H.
  - destruct kids; reflexivity.
  - simpl in H. apply orb_false_iff in H. destruct H as [Hn Hb].
    assert (Hex : existsb isElement
                    (between ++ Element name attrs kids :: rest) = true).
    { rewrite existsb_app. simpl. apply orb_true_r. }
    destruct n; try discriminate; simpl; rewrite Hex, (IH Hb); reflexivity.
Qed.

(** ** The scenarios of the spec, evaluated *)

Example parseInt_examples :
  Js.parseInt " 12a" = Js.Int 12 /\ Js.parseInt "-7" = Js.Int (-7)%Z /\
  Js.parseInt "x1" = Js.NaN /\ Js.parseInt "0" = Js.Int 0.
Proof. repeat split; reflexivity. Qed.

Example trimText_example :
  Js.trim (trimText "  In the
   beginning  ") = "In the beginning".
Proof. reflexivity. Qed.

Example verseReferenceRegex_examples :
  verseReferenceRegex "1:1 In" = Some " In" /\
  verseReferenceRegex "119:1765" = Some "5" /\
  verseReferenceRegex "1234:5" = None /\
  verseReferenceRegex "a1:2" = None.
Proof. repeat split; reflexivity. Qed.

(** Scenario 5: the footnote of Genesis 1:1. *)
Example footnote_scenario :
  iterateNodeTextContent genesisNote (Js.Int 1) (Some (Js.Int 1))
    {| noteCounter := 0; footnotes := [] |}
  = ([INoteRef 0 None],
     {| noteCounter := 1;
        footnotes :=
          [ {| noteId := 0; caller := Some "+"; text := "In the beginning";
               reference :=
                 {| ref_chapter := Js.Int 1; ref_verse := Js.Int 1 |} |} ] |}).
Proof. reflexivity. Qed.

(** Scenario 6: a paragraph of an ignored style yields nothing. *)
Example ignored_style_scenario :
  forall u rest cn st,
    iterateChapterParaContent (paraStyled "toc1" [Text "Genesis"]) u rest cn st
    = ([], st).
Proof. reflexivity. Qed.

(** A [chapter] start milestone that ends the sibling loop of the chapter
    before it is consumed by that loop: the root loop does not see it. *)
Example chapter_start_consumed :
  fst (iterateRootContent
         (Element "usx" []
            [ chapterStart "1"; paraStyled "p" [verseStart "1"; Text "a"];
              chapterStart "2"; paraStyled "p" [verseStart "1"; Text "b"] ])
         newParser)
  = [ RootChapter
        {| chapter_number := Js.Int 1;
           chapter_content := [Verse (Js.Int 1) [IString "a"]];
           chapter_footnotes := [] |} ].
Proof. reflexivity. Qed.

(** * Further properties of the parser *)

(** ** White space *)

Lemma collapse_singleSpaced :
  forall s b, singleSpaced b (Js.collapse b s) = true.
Proof.
  induction s as [|c r IH]; intro b; [reflexivity|]. simpl.
  destruct (Js.isWhiteSpace c) eqn:W.
  - destruct b; [apply IH|]. simpl. rewrite IH. reflexivity.
  - simpl. rewrite W. apply IH.
Qed.

Lemma collapse_fixed :
  forall s b, singleSpaced b s = true -> Js.collapse b s = s.
Proof.
  induction s as [|c r IH]; intros b H; [reflexivity|]. simpl in *.
  destruct (Js.isWhiteSpace c).
  - apply andb_true_iff in H. destruct H as [H Hr].
    apply andb_true_iff in H. destruct H as [Hc Hb].
    apply negb_true_iff in Hb. subst b.
    apply Ascii.eqb_eq in Hc. subst c. rewrite (IH true Hr). reflexivity.
  - rewrite (IH false H). reflexivity.
Qed.

Lemma collapse_nonWhite :
  forall s b, nonWhite (Js.collapse b s) = nonWhite s.
Proof.
  induction s as [|c r IH]; intro b; [reflexivity|]. simpl.
  destruct (Js.isWhiteSpace c) eqn:W.
  - destruct b; [apply IH|]. simpl. apply IH.
  - simpl. rewrite W, IH. reflexivity.
Qed.

(** X1.  [trimText] leaves a string in which every white space code unit
    is a space and no two are adjacent; it keeps the code units that are
    no white space, in order; the strings it leaves unchanged are exactly
    those of that form, so that it is idempotent. *)
Theorem trimText_normal_form :
  forall s,
    singleSpaced false (trimText s) = true /\
    nonWhite (trimText s) = nonWhite s /\
    trimText (trimText s) = trimText s /\
    (trimText s = s <-> singleSpaced false s = true).
Proof.
  intro s. unfold trimText.
  split; [apply collapse_singleSpaced|].
  split; [apply collapse_nonWhite|].
  split; [apply collapse_fixed, collapse_singleSpaced|].
  split.
  - intro E. rewrite <- E. apply collapse_singleSpaced.
  - apply collapse_fixed.
Qed.

Lemma trimText_normal_form_witness : trimText "In the beginning" = "In the beginning".
Proof.
  exact (proj2 (proj2 (proj2 (proj2 (trimText_normal_form "In the beginning"))))
           eq_refl).
Defined.

Lemma trimStart_singleSpaced :
  forall s b, singleSpaced b s = true -> singleSpaced false (Js.trimStart s) = true.
Proof.
  induction s as [|c r IH]; intros b H; [reflexivity|]. simpl in *.
  destruct (Js.isWhiteSpace c) eqn:W.
  - apply andb_true_iff in H. destruct H as [_ Hr]. apply (IH true Hr).
  - simpl. rewrite W. exact H.
Qed.

Lemma trimEnd_singleSpaced :
  forall s b, singleSpaced b s = true -> singleSpaced b (Js.trimEnd s) = true.
Proof.
  induction s as [|c r IH]; intros b H; [reflexivity|]. simpl in *.
  destruct (Js.isWhiteSpace c) eqn:W.
  - apply andb_true_iff in H. destruct H as [H Hr].
    destruct (Js.isEmpty (Js.trimEnd r)); simpl; [reflexivity|].
    rewrite W, H. simpl. apply (IH true Hr).
  - simpl. rewrite W. apply (IH false H).
Qed.

(** What [trimContent] does to the text of an entry is idempotent. *)
Lemma trim_trimText_idem :
  forall s,
    Js.trim (trimText (Js.trim (trimText s))) = Js.trim (trimText s).
Proof.
  intro s.
  assert (H : singleSpaced false (Js.trim (trimText s)) = true).
  { unfold Js.trim. apply trimEnd_singleSpaced.
    apply (trimStart_singleSpaced _ false). apply collapse_singleSpaced. }
  unfold trimText at 1. rewrite (collapse_fixed _ _ H). apply trim_idem.
Qed.

Lemma isEmpty_trimEnd : forall s, Js.isEmpty (Js.trimEnd s) = isBlank s.
Proof.
  induction s as [|c r IH]; [reflexivity|]. simpl. rewrite <- IH.
  destruct (Js.isWhiteSpace c); simpl; [|reflexivity].
  destruct (Js.isEmpty (Js.trimEnd r)); reflexivity.
Qed.

Lemma isBlank_trimStart : forall s, isBlank (Js.trimStart s) = isBlank s.
Proof.
  induction s as [|c r IH]; [reflexivity|]. simpl.
  destruct (Js.isWhiteSpace c) eqn:W; simpl; [exact IH|].
  rewrite W. reflexivity.
Qed.

Lemma isBlank_collapse : forall s b, isBlank (Js.collapse b s) = isBlank s.
Proof.
  induction s as [|c r IH]; intro b; [reflexivity|]. simpl.
  destruct (Js.isWhiteSpace c) eqn:W; simpl.
  - destruct b; [apply IH|]. simpl. apply IH.
  - rewrite W. reflexivity.
Qed.

Lemma isEmpty_trim_trimText :
  forall s, Js.isEmpty (Js.trim (trimText s)) = isBlank s.
Proof.
  intro s. unfold Js.trim, trimText.
  rewrite isEmpty_trimEnd, isBlank_trimStart, isBlank_collapse. reflexivity.
Qed.

(** X2.  [trimContent] is idempotent: a content array that was trimmed
    is left as it is by a second pass. *)
Theorem trimContent_idempotent :
  forall content, trimContent (trimContent content) = trimContent content.
Proof.
  induction content as [|item rest IH]; [reflexivity|].
  destruct item as [s|t p w|n p]; simpl.
  - destruct (Js.isEmpty (Js.trim (trimText s))) eqn:E; [exact IH|].
    simpl. rewrite trim_trimText_idem, E, IH. reflexivity.
  - destruct (Js.isEmpty (Js.trim (trimText t))) eqn:E; [exact IH|].
    simpl. rewrite trim_trimText_idem, E, IH. reflexivity.
  - rewrite IH. reflexivity.
Qed.

(** X3.  [trimContent] drops exactly the string and text entries whose
    text is white space only: as many entries are kept as there are
    entries that are not blank, footnote references are all kept, and the
    result is empty exactly when every entry is blank. *)
Theorem trimContent_drops_blank_entries :
  forall content,
    length (trimContent content)
    = length (filter (fun e => negb (blankEntry e)) content) /\
    refsOf (trimContent content) = refsOf content /\
    (trimContent content = [] <-> forallb blankEntry content = true).
Proof.
  intro content. split; [|split; [apply refsOf_trimContent|]].
  - induction content as [|item rest IH]; [reflexivity|].
    destruct item as [s|t p w|n p]; simpl;
      try rewrite isEmpty_trim_trimText.
    + destruct (isBlank s); simpl; [exact IH|now rewrite IH].
    + destruct (isBlank t); simpl; [exact IH|now rewrite IH].
    + now rewrite IH.
  - induction content as [|item rest IH]; [split; reflexivity|].
    destruct item as [s|t p w|n p]; simpl;
      try rewrite isEmpty_trim_trimText.
    + destruct (isBlank s); simpl; [exact IH|split; discriminate].
    + destruct (isBlank t); simpl; [exact IH|split; discriminate].
    + split; discriminate.
Qed.

Lemma trimContent_drops_blank_entries_witness :
  trimContent [IString " "; IText "" (Some 1) false] = [].
Proof.
  exact (proj2 (proj2 (proj2 (trimContent_drops_blank_entries
                                [IString " "; IText "" (Some 1) false])))
           eq_refl).
Defined.

(** ** Joining *)

Lemma string_app_assoc :
  forall a b c : string, ((a ++ b) ++ c)%string = (a ++ b ++ c)%string.
Proof.
  induction a as [|x a IH]; intros b c; [reflexivity|].
  simpl. rewrite IH. reflexivity.
Qed.

Lemma string_app_empty_r : forall a : string, (a ++ "")%string = a.
Proof.
  induction a as [|x a IH]; [reflexivity|]. simpl. rewrite IH. reflexivity.
Qed.

Lemma payload_app :
  forall a b, payload (a ++ b) = (payload a ++ payload b)%string.
Proof.
  induction a as [|x a IH]; intro b; [reflexivity|].
  simpl. rewrite IH, string_app_assoc. reflexivity.
Qed.

Lemma payload_joinLast :
  forall l v, payload (joinLast l v) = (payloadOf l ++ payloadOf v)%string.
Proof.
  intros l v.
  destruct l as [a|a p w|n p], v as [b|b p' w'|m p']; simpl;
    try destruct (hasSameFormatting p w p' w'); simpl;
    rewrite ?string_app_empty_r; reflexivity.
Qed.

Lemma length_joinLast : forall l v, length (joinLast l v) <= 2.
Proof.
  intros l v.
  destruct l as [a|a p w|n p], v as [b|b p' w'|m p']; simpl;
    try destruct (hasSameFormatting p w p' w'); simpl; lia.
Qed.

Lemma addOrJoin_payload_length :
  forall array v,
    payload (addOrJoin array v) = (payload array ++ payloadOf v)%string /\
    length (addOrJoin array v) <= S (length array).
Proof.
  intros array v.
  destruct array as [|x xs].
  { simpl. rewrite string_app_empty_r. split; [reflexivity|lia]. }
  destruct (@exists_last _ (x :: xs)) as [init [l E]]; [discriminate|].
  rewrite E, addOrJoin_snoc, !payload_app, payload_joinLast, !length_app.
  split.
  - simpl. rewrite string_app_empty_r, string_app_assoc. reflexivity.
  - pose proof (length_joinLast l v). simpl. lia.
Qed.

Lemma fold_addOrJoin_payload_length :
  forall items acc,
    payload (fold_left addOrJoin items acc)
    = (payload acc ++ payload items)%string /\
    length (fold_left addOrJoin items acc) <= length acc + length items.
Proof.
  induction items as [|v items IH]; intro acc; simpl.
  - rewrite string_app_empty_r. split; [reflexivity|lia].
  - destruct (IH (addOrJoin acc v)) as [Hp Hl].
    destruct (addOrJoin_payload_length acc v) as [Hp' Hl'].
    rewrite Hp, Hp', string_app_assoc. split; [reflexivity|lia].
Qed.

(** X4.  Joining loses nothing: the array that [addOrJoin] accumulates
    from a sequence of items carries the same text, in the same order, and
    the same footnote references as the sequence; it is no longer than the
    sequence, and no two adjacent entries of it could be joined. *)
Theorem addOrJoin_keeps_text_and_references :
  forall items,
    payload (addOrJoinAll items) = payload items /\
    refsOf (addOrJoinAll items) = refsOf items /\
    length (addOrJoinAll items) <= length items /\
    coalesced (addOrJoinAll items) = true.
Proof.
  intro items. unfold addOrJoinAll.
  destruct (fold_addOrJoin_payload_length items []) as [Hp Hl].
  split; [exact Hp|]. split; [apply refsOf_addOrJoinAll|].
  split; [exact Hl|apply coalesced_addOrJoinAll].
Qed.

Lemma coalesced_middle :
  forall init l v rest,
    coalesced (init ++ l :: v :: rest) = true -> mergeable l v = false.
Proof.
  induction init as [|a init IH]; intros l v rest H.
  - simpl in H. apply andb_true_iff in H. destruct H as [H _].
    apply negb_true_iff in H. exact H.
  - apply (IH l v rest).
    destruct init as [|b init]; simpl in H |- *;
      apply andb_true_iff in H; destruct H as [_ H]; exact H.
Qed.

Lemma joinLast_not_mergeable :
  forall l v, mergeable l v = false -> joinLast l v = [l; v].
Proof.
  intros l v H.
  destruct l as [a|a p w|n p], v as [b|b p' w'|m p']; simpl in *;
    try discriminate; try reflexivity.
  rewrite H. reflexivity.
Qed.

Lemma fold_addOrJoin_coalesced :
  forall items acc,
    coalesced (acc ++ items) = true ->
    fold_left addOrJoin items acc = acc ++ items.
Proof.
  induction items as [|v items IH]; intros acc H; simpl.
  - rewrite app_nil_r. reflexivity.
  - assert (E : addOrJoin acc v = acc ++ [v]).
    { destruct acc as [|x xs]; [reflexivity|].
      destruct (@exists_last _ (x :: xs)) as [init [l El]]; [discriminate|].
      rewrite El in *. rewrite addOrJoin_snoc.
      rewrite <- app_assoc in H. simpl in H.
      rewrite (joinLast_not_mergeable _ _ (coalesced_middle _ _ _ _ H)).
      rewrite <- app_assoc. reflexivity. }
    rewrite E, IH; rewrite <- app_assoc; [reflexivity|exact H].
Qed.

(** X5.  The arrays that [addOrJoin] leaves as they are, when their
    entries are added one by one, are exactly those without two adjacent
    entries that could be joined; hence accumulating an accumulated array
    again changes nothing. *)
Theorem addOrJoin_fixed_points :
  (forall array, addOrJoinAll array = array <-> coalesced array = true) /\
  (forall items, addOrJoinAll (addOrJoinAll items) = addOrJoinAll items).
Proof.
  assert (H : forall array, coalesced array = true -> addOrJoinAll array = array).
  { intros array Hc. unfold addOrJoinAll.
    apply (fold_addOrJoin_coalesced array []). exact Hc. }
  split.
  - intro array. split; [|apply H].
    intro E. rewrite <- E. apply coalesced_addOrJoinAll.
  - intro items. apply H, coalesced_addOrJoinAll.
Qed.

Lemma addOrJoin_fixed_points_witness :
  addOrJoinAll [IString "a"; INoteRef 0 None; IString "b"]
  = [IString "a"; INoteRef 0 None; IString "b"].
Proof.
  exact (proj2 (proj1 addOrJoin_fixed_points
                  [IString "a"; INoteRef 0 None; IString "b"]) eq_refl).
Defined.

(** ** Nodes that allocate footnotes *)

Lemma iterateNodeTextContent_inert :
  forall node cn vn st,
    isFootnoteNote node = false ->
    snd (iterateNodeTextContent node cn vn st) = st /\
    refsOf (fst (iterateNodeTextContent node cn vn st)) = [].
Proof.
  intros node cn vn st H. unfold iterateNodeTextContent.
  destruct (isTextNode node); [split; reflexivity|].
  destruct (isElement node && String.eqb (nodeName node) "char").
  { unfold iterateCharContent.
    destruct (styleIs (getAttribute "style" node) "wj"); split; reflexivity. }
  unfold isFootnoteNote in H.
  destruct (isElement node && String.eqb (nodeName node) "note");
    [|split; reflexivity].
  simpl in H. rewrite H. split; reflexivity.
Qed.

(** X6.  Only a note element of style [f], met as a node of the content,
    allocates a footnote: every other node (text, a [char] element
    whatever it contains, a note of another style, any other element)
    leaves the note counter and the footnotes as they are and yields no
    footnote reference. *)
Theorem only_footnote_notes_change_state :
  forall node cn vn st,
    isFootnoteNote node = false ->
    snd (iterateNodeTextContent node cn vn st) = st /\
    refsOf (fst (iterateNodeTextContent node cn vn st)) = [].
Proof. exact iterateNodeTextContent_inert. Qed.

Lemma only_footnote_notes_change_state_witness :
  snd (iterateNodeTextContent
         (Element "char" [("style", "wj")] [Text "Blessed"; genesisNote])
         (Js.Int 5) (Some (Js.Int 3)) {| noteCounter := 7; footnotes := [] |})
  = {| noteCounter := 7; footnotes := [] |} /\
  refsOf (fst (iterateNodeTextContent
                 (Element "char" [("style", "wj")] [Text "Blessed"; genesisNote])
                 (Js.Int 5) (Some (Js.Int 3))
                 {| noteCounter := 7; footnotes := [] |})) = [].
Proof.
  exact (only_footnote_notes_change_state
           (Element "char" [("style", "wj")] [Text "Blessed"; genesisNote])
           (Js.Int 5) (Some (Js.Int 3)) {| noteCounter := 7; footnotes := [] |}
           eq_refl).
Defined.

(** ** The reference at the start of a footnote *)

Lemma takeDigits_complete :
  forall m d rest,
    allDigits d = true -> String.length d <= m ->
    String.length d = m \/ headNotDigit rest = true ->
    takeDigits m (d ++ rest)%string = (String.length d, rest).
Proof.
  induction m as [|m IH]; intros d rest A L H.
  - destruct d; [reflexivity|simpl in L; lia].
  - destruct d as [|c d]; simpl.
    + destruct H as [H|H]; [discriminate|].
      destruct rest as [|c r]; [reflexivity|].
      simpl in H. apply negb_true_iff in H. rewrite H. reflexivity.
    + simpl in A, L. apply andb_true_iff in A. destruct A as [Hc Hd].
      rewrite Hc. rewrite (IH d rest Hd); [reflexivity|lia|].
      destruct H as [H|H]; [left; simpl in H; lia|right; exact H].
Qed.

Lemma takeDigits_four :
  forall d rest,
    allDigits d = true -> 4 <= String.length d ->
    exists c r, takeDigits 3 (d ++ rest)%string = (3, String c r) /\
                Js.isDigit c = true.
Proof.
  intros d rest A L.
  destruct d as [|c1 [|c2 [|c3 [|c4 d]]]]; simpl in L; try lia.
  simpl in A.
  repeat (apply andb_true_iff in A; destruct A as [?H A]).
  exists c4, (d ++ rest)%string. simpl. rewrite H, H0, H1. split; [reflexivity|].
  exact H2.
Qed.

(** X7.  The reference pattern matches every text that starts with one
    to three digits, a colon and one to three digits, and what is removed
    is that prefix (the second group takes three digits when more follow).
    A text that starts with four or more digits does not match. *)
Theorem verseReferenceRegex_complete :
  (forall d1 d2 rest,
     allDigits d1 = true -> 1 <= String.length d1 <= 3 ->
     allDigits d2 = true -> 1 <= String.length d2 <= 3 ->
     String.length d2 = 3 \/ headNotDigit rest = true ->
     verseReferenceRegex (d1 ++ ":" ++ d2 ++ rest)%string = Some rest) /\
  (forall d rest,
     allDigits d = true -> 4 <= String.length d ->
     verseReferenceRegex (d ++ rest)%string = None).
Proof.
  split.
  - intros d1 d2 rest A1 L1 A2 L2 H. unfold verseReferenceRegex.
    rewrite (takeDigits_complete 3 d1) by (auto; lia).
    destruct (String.length d1) as [|k1] eqn:E1; [lia|].
    cbn [append]. rewrite Ascii.eqb_refl.
    rewrite (takeDigits_complete 3 d2) by (auto; lia).
    destruct (String.length d2) as [|k2] eqn:E2; [lia|]. reflexivity.
  - intros d rest A L. unfold verseReferenceRegex.
    destruct (takeDigits_four d rest A L) as (c & r & E & D). rewrite E.
    destruct (Ascii.eqb_spec c ":") as [->|]; [discriminate D|reflexivity].
Qed.

Lemma verseReferenceRegex_complete_witness :
  verseReferenceRegex ("119" ++ ":" ++ "105" ++ "6 Or")%string = Some "6 Or" /\
  verseReferenceRegex ("2024" ++ ":1 x")%string = None.
Proof.
  split.
  - apply (proj1 verseReferenceRegex_complete "119" "105" "6 Or");
      try reflexivity; simpl; lia.
  - apply (proj2 verseReferenceRegex_complete "2024" ":1 x");
      [reflexivity|simpl; lia].
Defined.

(** ** Where the content of a verse ends *)

Lemma iterateUntilEndingVerse_stop :
  forall (parent : Node) pre v tail,
    forallb notVerse pre = true ->
    nodeName v = "verse" ->
    iterateUntilEndingVerse (map (fun s => (s, parent)) pre ++ (v, parent) :: tail)
    = map (fun s => (s, parent)) pre.
Proof.
  intros parent pre v tail Hpre Hv.
  induction pre as [|a pre IH]; simpl.
  - rewrite Hv. reflexivity.
  - simpl in Hpre. apply andb_true_iff in Hpre. destruct Hpre as [Ha Hpre].
    unfold notVerse in Ha. apply negb_true_iff in Ha. rewrite Ha.
    rewrite (IH Hpre). reflexivity.
Qed.

(** X8.  The content of a verse ends at the next [verse] element of its
    paragraph, be it a start or an end milestone: it is read off the nodes
    between the two, and neither the rest of the paragraph nor what
    follows the paragraph has any part in it. *)
Theorem verse_content_ends_at_next_verse :
  forall para gp pre v post parentAfter cn vn st,
    forallb notVerse pre = true ->
    nodeName v = "verse" ->
    iterateVerseContent para gp (pre ++ v :: post) parentAfter cn vn st
    = iterateVerseContentLoop (map (fun s => (s, para)) pre) cn vn st.
Proof.
  intros para gp pre v post parentAfter cn vn st Hpre Hv.
  unfold iterateVerseContent, iterateSiblingsAndCousins.
  rewrite map_app. simpl map. rewrite <- app_assoc. simpl app.
  rewrite (iterateUntilEndingVerse_stop para pre v _ Hpre Hv).
  reflexivity.
Qed.

Lemma verse_content_ends_at_next_verse_witness :
  iterateVerseContent (paraStyled "p" []) noChapters
    ([Text "In the beginning"] ++ Element "verse" [("eid", "GEN 1:1")] []
       :: [Text "dropped"; genesisNote])
    [q2Para] (Js.Int 1) (Js.Int 1) {| noteCounter := 0; footnotes := [] |}
  = ([IString "In the beginning"], {| noteCounter := 0; footnotes := [] |}).
Proof.
  exact (verse_content_ends_at_next_verse (paraStyled "p" []) noChapters
           [Text "In the beginning"] (Element "verse" [("eid", "GEN 1:1")] [])
           [Text "dropped"; genesisNote] [q2Para] (Js.Int 1) (Js.Int 1)
           {| noteCounter := 0; footnotes := [] |} eq_refl eq_refl).
Defined.

(** X9.  A verse that is not closed in its paragraph reads on through the
    nodes that follow the paragraph only as far as the next element allows:
    when that element has no children (a chapter milestone, an empty
    paragraph), or when no element follows at all, the content is read off
    the rest of the paragraph and, in the first case, the nodes between the
    paragraph and that element; nothing behind the element is read. *)
Theorem verse_content_stops_at_childless_element :
  (forall para gp after between name attrs rest cn vn st,
     existsb isElement between = false ->
     iterateVerseContent para gp after
       (between ++ Element name attrs [] :: rest) cn vn st
     = iterateVerseContentLoop
         (iterateUntilEndingVerse
            (map (fun s => (s, para)) after ++ map (fun s => (s, gp)) between))
         cn vn st) /\
  (forall para gp after parentAfter cn vn st,
     existsb isElement parentAfter = false ->
     iterateVerseContent para gp after parentAfter cn vn st
     = iterateVerseContentLoop
         (iterateUntilEndingVerse (map (fun s => (s, para)) after)) cn vn st).
Proof.
  split.
  - intros para gp after between name attrs rest cn vn st H.
    unfold iterateVerseContent, iterateSiblingsAndCousins.
    rewrite (iterateCousins_uncle gp between name attrs [] rest H).
    rewrite app_nil_r. reflexivity.
  - intros para gp after parentAfter cn vn st H.
    unfold iterateVerseContent, iterateSiblingsAndCousins.
    rewrite (iterateCousins_no_uncle gp parentAfter H), app_nil_r.
    reflexivity.
Qed.

Lemma verse_content_stops_at_childless_element_witness :
  iterateVerseContent (paraStyled "p" []) noChapters [Text "a"]
    ([Text " "] ++ chapterStart "2" :: [q2Para]) (Js.Int 1) (Js.Int 1)
    {| noteCounter := 0; footnotes := [] |}
  = ([IString "a"; IString " "], {| noteCounter := 0; footnotes := [] |}) /\
  iterateVerseContent (paraStyled "p" []) noChapters [Text "a"]
    [Text "trailing"] (Js.Int 1) (Js.Int 1)
    {| noteCounter := 0; footnotes := [] |}
  = ([IString "a"], {| noteCounter := 0; footnotes := [] |}).
Proof.
  split.
  - exact (proj1 verse_content_stops_at_childless_element (paraStyled "p" [])
             noChapters [Text "a"] [Text " "] "chapter" [("number", "2")]
             [q2Para] (Js.Int 1) (Js.Int 1)
             {| noteCounter := 0; footnotes := [] |} eq_refl).
  - exact (proj2 verse_content_stops_at_childless_element (paraStyled "p" [])
             noChapters [Text "a"] [Text "trailing"] (Js.Int 1) (Js.Int 1)
             {| noteCounter := 0; footnotes := [] |} eq_refl).
Defined.

Lemma WalkItemSource_cons :
  forall parent gp after n parentAfter item,
    WalkItemSource parent gp after parentAfter item ->
    WalkItemSource parent gp after (n :: parentAfter) item.
Proof.
  intros parent gp after n parentAfter item [H|[(H1 & H2 & H3)|(H1 & H2 & H3)]].
  - left. exact H.
  - right. left. repeat split; auto. now right.
  - right. right. repeat split; auto. now right.
Qed.

Lemma iterateCousins_source :
  forall parent gp after parentAfter,
    Forall (WalkItemSource parent gp after parentAfter)
           (iterateCousins gp parentAfter).
Proof.
  intros parent gp after parentAfter.
  induction parentAfter as [|n rest IH]; [constructor|].
  assert (Hrest : Forall (WalkItemSource parent gp after (n :: rest))
                         (iterateCousins gp rest)).
  { eapply Forall_impl; [|exact IH]. intro item. apply WalkItemSource_cons. }
  destruct n as [d|d|d|name attrs kids]; simpl;
    try (destruct (existsb isElement rest); [|constructor];
         constructor; [|exact Hrest];
         right; left; simpl; repeat split; auto).
  destruct kids as [|child siblings]; [constructor|].
  constructor.
  - right. right. simpl. repeat split; auto.
  - apply Forall_app. split; [|exact Hrest].
    apply Forall_forall. intros item Hin.
    apply in_map_iff in Hin. destruct Hin as (s & <- & Hs).
    right. right. simpl. repeat split; auto.
Qed.


(** ** Poem levels *)

Lemma styleIs_eq :
  forall style v, styleIs style v = true <-> style = Some v.
Proof.
  intros [s|] v; simpl.
  - rewrite String.eqb_eq. split; [intros ->; reflexivity|].
    intro H. inversion H. reflexivity.
  - split; discriminate.
Qed.

(** X11.  The poem level of a parent is defined exactly for the [para]
    elements of style [q1] to [q4], and it is the digit of the style.  In
    such a paragraph every entry is given that level, none stays a plain
    string, and the text of an entry is unchanged. *)
Theorem poem_level_of_q_paragraphs :
  (forall parent level,
     poemOfParent parent = Some level <->
     nodeName parent = "para" /\ 1 <= level <= 4 /\
     getAttribute "style" parent = Some (qStyle level)) /\
  (forall level item,
     poemOfItem (withPoem (Some level) item) = Some level /\
     isPlainString (withPoem (Some level) item) = false /\
     payloadOf (withPoem (Some level) item) = payloadOf item /\
     refOf (withPoem (Some level) item) = refOf item) /\
  (forall item, withPoem None item = item).
Proof.
  split; [|split].
  - intros parent level. unfold poemOfParent.
    destruct (String.eqb_spec (nodeName parent) "para") as [Hn|Hn].
    2:{ split; [discriminate|]. intros [H _]. contradiction. }
    destruct (styleIs (getAttribute "style" parent) "q1") eqn:E1.
    { apply styleIs_eq in E1. rewrite E1. simpl. split.
      - intro H. inversion H. subst. repeat split; auto.
      - intros (_ & Hl & Hs).
        destruct level as [|[|[|[|[|k]]]]]; try lia; simpl in Hs;
          try discriminate. reflexivity. }
    destruct (styleIs (getAttribute "style" parent) "q2") eqn:E2.
    { apply styleIs_eq in E2. rewrite E2. simpl. split.
      - intro H. inversion H. subst. repeat split; auto.
      - intros (_ & Hl & Hs).
        destruct level as [|[|[|[|[|k]]]]]; try lia; simpl in Hs;
          try discriminate. reflexivity. }
    destruct (styleIs (getAttribute "style" parent) "q3") eqn:E3.
    { apply styleIs_eq in E3. rewrite E3. simpl. split.
      - intro H. inversion H. subst. repeat split; auto.
      - intros (_ & Hl & Hs).
        destruct level as [|[|[|[|[|k]]]]]; try lia; simpl in Hs;
          try discriminate. reflexivity. }
    destruct (styleIs (getAttribute "style" parent) "q4") eqn:E4.
    { apply styleIs_eq in E4. rewrite E4. simpl. split.
      - intro H. inversion H. subst. repeat split; auto.
      - intros (_ & Hl & Hs).
        destruct level as [|[|[|[|[|k]]]]]; try lia; simpl in Hs;
          try discriminate. reflexivity. }
    simpl. split; [discriminate|].
    intros (_ & Hl & Hs).
    destruct level as [|[|[|[|[|k]]]]]; try lia; simpl in Hs;
      apply styleIs_eq in Hs; congruence.
  - intros level item. destruct item; repeat split; reflexivity.
  - intros item. reflexivity.
Qed.

Lemma poem_level_of_q_paragraphs_witness : poemOfParent q2Para = Some 2.
Proof.
  apply (proj2 (proj1 poem_level_of_q_paragraphs q2Para 2)).
  split; [reflexivity|]. split; [lia|reflexivity].
Defined.

(** ** Paragraphs *)

Lemma ignored_styles_checked :
  forallb (fun s =>
             negb (isSectionStyle (Some s)) && negb (styleIs (Some s) "b") &&
             negb (styleIs (Some s) "d") && negb (noStyle (Some s)))
          ignoredParaStyles = true.
Proof. reflexivity. Qed.

(** X12.  A paragraph whose style is in the ignore list yields nothing in
    a chapter and leaves the note counter and the footnotes as they are,
    whatever it contains; at the level of the root it yields nothing
    either. *)
Theorem ignored_paragraph_yields_nothing :
  forall para gp parentAfter cn st,
    styleIgnored (getAttribute "style" para) = true ->
    iterateChapterParaContent para gp parentAfter cn st = ([], st) /\
    rootHeadingOf para = [].
Proof.
  intros para gp parentAfter cn st H.
  unfold iterateChapterParaContent, rootHeadingOf.
  destruct (getAttribute "style" para) as [s|]; [|discriminate].
  simpl in H. unfold isIgnored in H. apply existsb_exists in H.
  destruct H as (x & Hin & Hx). apply String.eqb_eq in Hx. subst x.
  pose proof ignored_styles_checked as Hall.
  rewrite forallb_forall in Hall. specialize (Hall s Hin).
  repeat (apply andb_true_iff in Hall; destruct Hall as [Hall ?H]).
  apply negb_true_iff in Hall, H, H0, H1.
  rewrite Hall, H, H0, H1. simpl.
  assert (Hi : isIgnored s = true).
  { unfold isIgnored. apply existsb_exists. exists s.
    split; [exact Hin|apply String.eqb_refl]. }
  rewrite Hi. simpl. rewrite andb_false_r. split; reflexivity.
Qed.

Lemma ignored_paragraph_yields_nothing_witness :
  iterateChapterParaContent ignoredWithNote noChapters [q2Para] (Js.Int 5)
    {| noteCounter := 3; footnotes := [] |}
  = ([], {| noteCounter := 3; footnotes := [] |}) /\
  rootHeadingOf ignoredWithNote = [].
Proof.
  exact (ignored_paragraph_yields_nothing ignoredWithNote noChapters [q2Para]
           (Js.Int 5) {| noteCounter := 3; footnotes := [] |} eq_refl).
Defined.

Lemma iterateChapterParaVerseLoop_verses :
  forall para gp parentAfter elements cn st,
    forallb isVerse
      (fst (iterateChapterParaVerseLoop para gp parentAfter elements cn st))
    = true.
Proof.
  induction elements as [|element after IH]; intros cn st; [reflexivity|].
  simpl.
  destruct (negb (isElement element)); [apply IH|].
  destruct (String.eqb (nodeName element) "chapter"); [reflexivity|].
  destruct (String.eqb (nodeName element) "verse"); [|apply IH].
  destruct (hasAttribute "eid" element); [apply IH|].
  destruct (iterateVerseContent para gp after parentAfter cn
              (numberAttribute element) st) as [items st1].
  specialize (IH cn st1).
  destruct (iterateChapterParaVerseLoop para gp parentAfter after cn st1)
    as [more st2].
  simpl in *. exact IH.
Qed.

Lemma iterateChapterParaVerseLoop_none :
  forall para gp parentAfter elements cn st,
    verseMilestones elements = [] ->
    iterateChapterParaVerseLoop para gp parentAfter elements cn st = ([], st).
Proof.
  induction elements as [|element after IH]; intros cn st H; [reflexivity|].
  simpl in *.
  destruct (negb (isElement element)); [apply IH, H|].
  destruct (String.eqb (nodeName element) "chapter"); [reflexivity|].
  destruct (String.eqb (nodeName element) "verse"); [|apply IH, H].
  destruct (hasAttribute "eid" element); simpl in H; [apply IH, H|].
  discriminate.
Qed.

(** X13.  The paragraph loop yields verses only, one for each start
    [verse] milestone among the element children of the paragraph before a
    [chapter] child.  A paragraph without such a milestone yields nothing
    and allocates nothing: its text is content only of a verse that was
    opened before it. *)
Theorem paragraph_yields_one_verse_per_milestone :
  forall para gp parentAfter cn st,
    forallb isVerse
      (fst (iterateChapterParaVerseContent para gp parentAfter cn st)) = true /\
    length (fst (iterateChapterParaVerseContent para gp parentAfter cn st))
    = length (verseMilestones (childNodes para)) /\
    (verseMilestones (childNodes para) = [] ->
     iterateChapterParaVerseContent para gp parentAfter cn st = ([], st)).
Proof.
  intros para gp parentAfter cn st. unfold iterateChapterParaVerseContent.
  split; [apply iterateChapterParaVerseLoop_verses|]. split.
  - rewrite <- (iterateChapterParaVerseLoop_numbers para gp parentAfter
                  (childNodes para) cn st).
    pose proof (iterateChapterParaVerseLoop_verses para gp parentAfter
                  (childNodes para) cn st) as Hv.
    induction (fst (iterateChapterParaVerseLoop para gp parentAfter
                      (childNodes para) cn st)) as [|c l IHl];
      [reflexivity|].
    simpl in Hv. apply andb_true_iff in Hv. destruct Hv as [Hc Hl].
    destruct c; try discriminate. simpl. rewrite (IHl Hl). reflexivity.
  - apply iterateChapterParaVerseLoop_none.
Qed.

Lemma paragraph_yields_one_verse_per_milestone_witness :
  iterateChapterParaVerseContent
    (paraStyled "p" [Text "no verse here"; genesisNote]) noChapters []
    (Js.Int 1) {| noteCounter := 0; footnotes := [] |}
  = ([], {| noteCounter := 0; footnotes := [] |}).
Proof.
  exact (proj2 (proj2 (paragraph_yields_one_verse_per_milestone
                         (paraStyled "p" [Text "no verse here"; genesisNote])
                         noChapters [] (Js.Int 1)
                         {| noteCounter := 0; footnotes := [] |})) eq_refl).
Defined.

(** ** The references of the footnotes *)

Lemma Pushes_refl : forall P st, Pushes P st st.
Proof. intros P st. exists []. rewrite app_nil_r. split; [reflexivity|constructor]. Qed.

Lemma Pushes_trans :
  forall P st1 st2 st3, Pushes P st1 st2 -> Pushes P st2 st3 -> Pushes P st1 st3.
Proof.
  intros P st1 st2 st3 (n1 & F1 & H1) (n2 & F2 & H2).
  exists (n1 ++ n2). split.
  - rewrite F2, F1, app_assoc. reflexivity.
  - apply Forall_app. split; assumption.
Qed.

Lemma Pushes_weaken :
  forall (P Q : Footnote -> Prop) st st',
    (forall f, P f -> Q f) -> Pushes P st st' -> Pushes Q st st'.
Proof.
  intros P Q st st' HPQ (new & F & H).
  exists new. split; [exact F|]. eapply Forall_impl; [exact HPQ|exact H].
Qed.

Lemma iterateNodeTextContent_pushes :
  forall node cn vn st,
    Pushes (fun f => ref_chapter (reference f) = cn /\
                     ref_verse (reference f)
                     = match vn with Some v => v | None => Js.Int 0 end)
           st (snd (iterateNodeTextContent node cn vn st)).
Proof.
  intros node cn vn st.
  destruct (isFootnoteNote node) eqn:E.
  - unfold isFootnoteNote in E.
    apply andb_true_iff in E. destruct E as [E Es].
    unfold iterateNodeTextContent.
    destruct (isTextNode node) eqn:T.
    { destruct node; discriminate. }
    destruct (isElement node && String.eqb (nodeName node) "char") eqn:C.
    { apply andb_true_iff in C. destruct C as [_ C].
      apply andb_true_iff in E. destruct E as [_ E].
      apply String.eqb_eq in C, E. congruence. }
    rewrite E, Es. simpl. eexists. split; [reflexivity|].
    constructor; [|constructor]. simpl. split; reflexivity.
  - rewrite (proj1 (iterateNodeTextContent_inert node cn vn st E)).
    apply Pushes_refl.
Qed.

Lemma iterateVerseContentLoop_pushes :
  forall walk cn vn st,
    Pushes (fun f => ref_chapter (reference f) = cn /\
                     ref_verse (reference f) = vn)
           st (snd (iterateVerseContentLoop walk cn vn st)).
Proof.
  induction walk as [|[node parent] rest IH]; intros cn vn st; simpl.
  - apply Pushes_refl.
  - destruct (String.eqb (nodeName node) "verse"); [apply Pushes_refl|].
    pose proof (iterateNodeTextContent_pushes node cn (Some vn) st) as H1.
    destruct (iterateNodeTextContent node cn (Some vn) st) as [its st1].
    specialize (IH cn vn st1).
    destruct (iterateVerseContentLoop rest cn vn st1) as [more st2].
    simpl in *. eapply Pushes_trans; eassumption.
Qed.

Lemma FootnoteIn_more :
  forall cn a b c f,
    FootnoteIn cn b f -> FootnoteIn cn (a ++ b ++ c) f.
Proof.
  intros cn a b c f [Hc [Hv|Hv]]; split; auto.
  - left. exact Hv.
  - right. apply in_or_app. right. apply in_or_app. left. exact Hv.
Qed.

Lemma iterateChapterParaVerseLoop_pushes :
  forall para gp parentAfter elements cn st,
    Pushes (FootnoteIn cn
              (verseNumbers
                 (fst (iterateChapterParaVerseLoop para gp parentAfter
                         elements cn st))))
           st
           (snd (iterateChapterParaVerseLoop para gp parentAfter elements
                   cn st)).
Proof.
  induction elements as [|element after IH]; intros cn st; simpl.
  - apply Pushes_refl.
  - destruct (negb (isElement element)); [apply IH|].
    destruct (String.eqb (nodeName element) "chapter"); [apply Pushes_refl|].
    destruct (String.eqb (nodeName element) "verse"); [|apply IH].
    destruct (hasAttribute "eid" element); [apply IH|].
    pose proof (iterateVerseContentLoop_pushes
                  (iterateUntilEndingVerse
                     (iterateSiblingsAndCousins para gp after parentAfter))
                  cn (numberAttribute element) st) as H1.
    fold (iterateVerseContent para gp after parentAfter cn
            (numberAttribute element) st) in H1.
    destruct (iterateVerseContent para gp after parentAfter cn
                (numberAttribute element) st) as [items st1].
    specialize (IH cn st1).
    destruct (iterateChapterParaVerseLoop para gp parentAfter after cn st1)
      as [more st2].
    simpl in *. eapply Pushes_trans.
    + eapply Pushes_weaken; [|exact H1].
      intros f [Hc Hv]. split; [exact Hc|]. right. left. symmetry. exact Hv.
    + eapply Pushes_weaken; [|exact IH].
      intros f Hf.
      apply (FootnoteIn_more cn [numberAttribute element] _ [] f) in Hf.
      rewrite app_nil_r in Hf. exact Hf.
Qed.

Lemma iterateHebrewSubtitleContent_pushes :
  forall nodes cn st,
    Pushes (FootnoteIn cn [])
           st (snd (iterateHebrewSubtitleContent nodes cn st)).
Proof.
  induction nodes as [|node rest IH]; intros cn st; simpl.
  - apply Pushes_refl.
  - pose proof (iterateNodeTextContent_pushes node cn None st) as H1.
    destruct (iterateNodeTextContent node cn None st) as [its st1].
    specialize (IH cn st1).
    destruct (iterateHebrewSubtitleContent rest cn st1) as [more st2].
    simpl in *. eapply Pushes_trans; [|exact IH].
    eapply Pushes_weaken; [|exact H1].
    intros f [Hc Hv]. split; [exact Hc|]. left. symmetry. exact Hv.
Qed.

Lemma iterateChapterParaContent_pushes :
  forall para gp parentAfter cn st,
    Pushes (FootnoteIn cn
              (verseNumbers
                 (fst (iterateChapterParaContent para gp parentAfter cn st))))
           st (snd (iterateChapterParaContent para gp parentAfter cn st)).
Proof.
  intros para gp parentAfter cn st. unfold iterateChapterParaContent.
  destruct (isSectionStyle (getAttribute "style" para)); [apply Pushes_refl|].
  destruct (styleIs (getAttribute "style" para) "b"); [apply Pushes_refl|].
  destruct (styleIs (getAttribute "style" para) "d").
  { unfold parseHebrewSubtitle.
    pose proof (iterateHebrewSubtitleContent_pushes (childNodes para) cn st)
      as H.
    destruct (iterateHebrewSubtitleContent (childNodes para) cn st)
      as [items st1].
    simpl in *. exact H. }
  destruct (noStyle (getAttribute "style" para)
            || negb (styleIgnored (getAttribute "style" para)));
    [|apply Pushes_refl].
  apply iterateChapterParaVerseLoop_pushes.
Qed.

Lemma iterateChapterContent_pushes :
  forall u siblings cn st,
    Pushes (FootnoteIn cn
              (verseNumbers
                 (fst (fst (iterateChapterContent u siblings cn st)))))
           st (snd (fst (iterateChapterContent u siblings cn st))).
Proof.
  induction siblings as [|sibling rest IH]; intros cn st; simpl.
  - apply Pushes_refl.
  - destruct (negb (isElement sibling)); [apply IH|].
    destruct (String.eqb (nodeName sibling) "para").
    { pose proof (iterateChapterParaContent_pushes sibling u rest cn st) as H1.
      destruct (iterateChapterParaContent sibling u rest cn st) as [c st1].
      specialize (IH cn st1).
      destruct (iterateChapterContent u rest cn st1) as [[more st2] rem].
      simpl in *. rewrite verseNumbers_app. eapply Pushes_trans.
      - eapply Pushes_weaken; [|exact H1].
        intros f Hf.
        apply (FootnoteIn_more cn [] _ (verseNumbers more) f) in Hf.
        exact Hf.
      - eapply Pushes_weaken; [|exact IH].
        intros f Hf.
        apply (FootnoteIn_more cn (verseNumbers c) _ [] f) in Hf.
        rewrite app_nil_r in Hf. exact Hf. }
    destruct (String.eqb (nodeName sibling) "chapter"); [apply Pushes_refl|].
    apply IH.
Qed.

Lemma RootRun_references :
  forall u children counter items counter',
    RootRun u children counter items counter' ->
    Forall (fun ch =>
              Forall (FootnoteIn (chapter_number ch)
                        (verseNumbers (chapter_content ch)))
                     (chapter_footnotes ch))
           (chaptersOf items).
Proof.
  intros u children counter items counter' R.
  induction R as [counter
                 |child rest counter content st remaining items counter'
                    He Hn Heid E R IH
                 |child rest counter items counter' He Hn Hs R IH
                 |child rest counter items counter' Hskip R IH];
    try exact IH.
  - constructor.
  - simpl. constructor; [|exact IH]. simpl.
    pose proof (iterateChapterContent_pushes u rest (numberAttribute child)
                  {| noteCounter := counter; footnotes := [] |}) as H.
    rewrite E in H. simpl in H. destruct H as (new & F & H).
    rewrite F. exact H.
Qed.

(** X14.  In every chapter of a parse tree, each footnote refers to that
    chapter: the chapter of its reference is the number of the chapter, and
    the verse of its reference is the number of a verse of the chapter or
    0, the verse of a footnote met in a Hebrew subtitle. *)
Theorem footnotes_refer_to_their_chapter :
  forall usx counter tree counter',
    parse usx counter = inr (tree, counter') ->
    Forall (fun ch =>
              Forall (FootnoteIn (chapter_number ch)
                        (verseNumbers (chapter_content ch)))
                     (chapter_footnotes ch))
           (chaptersOf (tree_content tree)).
Proof.
  intros usx counter tree counter' H.
  apply parse_content, iterateRootContent_run, RootRun_references in H.
  exact H.
Qed.

Lemma footnotes_refer_to_their_chapter_witness :
  exists tree counter',
    parse twoChapters newParser = inr (tree, counter') /\
    Forall (fun ch =>
              Forall (FootnoteIn (chapter_number ch)
                        (verseNumbers (chapter_content ch)))
                     (chapter_footnotes ch))
           (chaptersOf (tree_content tree)).
Proof.
  eexists. eexists. split; [vm_compute; reflexivity|].
  exact (footnotes_refer_to_their_chapter twoChapters 0 _ 2 eq_refl).
Defined.

(** ** Chapters and the shared iterator *)

Lemma iterateChapterContent_until_chapter :
  forall u body c2 rest cn st,
    forallb notChapter body = true ->
    isChapterElement c2 = true ->
    snd (iterateChapterContent u (body ++ c2 :: rest) cn st) = rest.
Proof.
  induction body as [|a body IH]; intros c2 rest cn st Hb Hc; simpl.
  - unfold isChapterElement in Hc. apply andb_true_iff in Hc.
    destruct Hc as [He Hn]. rewrite He. simpl.
    apply String.eqb_eq in Hn. rewrite Hn. reflexivity.
  - simpl in Hb. apply andb_true_iff in Hb. destruct Hb as [Ha Hb].
    unfold notChapter in Ha. apply negb_true_iff in Ha.
    destruct (negb (isElement a)); [apply IH; assumption|].
    destruct (String.eqb (nodeName a) "para").
    { destruct (iterateChapterParaContent a u (body ++ c2 :: rest) cn st)
        as [c st1].
      specialize (IH c2 rest cn st1 Hb Hc).
      destruct (iterateChapterContent u (body ++ c2 :: rest) cn st1)
        as [[more st2] rem].
      simpl in *. exact IH. }
    rewrite Ha. apply IH; assumption.
Qed.

Lemma iterateRootFrom_prefix :
  forall pre rest u counter,
    forallb notChapter pre = true ->
    iterateRootFrom u (pre ++ rest) counter
    = (rootHeadings pre ++ fst (iterateRootFrom u rest counter),
       snd (iterateRootFrom u rest counter)).
Proof.
  intros pre rest u counter H. unfold iterateRootFrom.
  apply iterateRootLoop_prefix; [exact H|reflexivity].
Qed.

Lemma iterateRootFrom_chapter :
  forall u start body c2 rest counter,
    isChapterStart start = true ->
    forallb notChapter body = true ->
    isChapterElement c2 = true ->
    exists content st,
      iterateRootFrom u (start :: body ++ c2 :: rest) counter
      = (RootChapter {| chapter_number := numberAttribute start;
                        chapter_content := content;
                        chapter_footnotes := footnotes st |}
           :: fst (iterateRootFrom u rest (noteCounter st)),
         snd (iterateRootFrom u rest (noteCounter st))) /\
      counter <= noteCounter st.
Proof.
  intros u start body c2 rest counter Hs Hb Hc.
  unfold isChapterStart in Hs.
  apply andb_true_iff in Hs. destruct Hs as [Hs Heid].
  apply andb_true_iff in Hs. destruct Hs as [He Hn].
  apply negb_true_iff in Heid.
  unfold iterateRootFrom. simpl. rewrite He, Hn, Heid. simpl.
  pose proof (iterateChapterContent_until_chapter u body c2 rest
                (numberAttribute start)
                {| noteCounter := counter; footnotes := [] |} Hb Hc) as Hrem.
  destruct (iterateChapterContent u (body ++ c2 :: rest)
              (numberAttribute start)
              {| noteCounter := counter; footnotes := [] |})
    as [[content st] remaining] eqn:E.
  simpl in Hrem. subst remaining.
  rewrite (iterateRootLoop_fuel (length (body ++ c2 :: rest)) (length rest)).
  2:{ rewrite length_app. simpl. lia. }
  2:{ lia. }
  exists content, st.
  destruct (iterateRootLoop (length rest) u rest (noteCounter st)).
  split; [reflexivity|].
  apply iterateChapterContent_allocates in E.
  destruct E as (new & _ & _ & _ & C). simpl in C. lia.
Qed.

Lemma chaptersOf_app :
  forall a b, chaptersOf (a ++ b) = chaptersOf a ++ chaptersOf b.
Proof. intros. unfold chaptersOf. apply flat_map_app. Qed.

Lemma chaptersOf_rootHeadings : forall l, chaptersOf (rootHeadings l) = [].
Proof.
  induction l as [|n l IH]; [reflexivity|].
  change (rootHeadings (n :: l)) with (rootHeadingOf n ++ rootHeadings l).
  rewrite chaptersOf_app, IH. unfold rootHeadingOf.
  destruct (isElement n && String.eqb (nodeName n) "para"
            && isSectionStyle (getAttribute "style" n)); reflexivity.
Qed.

(** X15.  The [chapter] element on which a chapter ends is consumed with
    that chapter, whether it is an end or a start milestone: the root loop
    goes on behind it.  So a start milestone that directly ends the
    chapter before it opens no chapter, and until the next [chapter]
    element the root loop yields section headings only. *)
Theorem chapter_end_element_is_consumed :
  forall u start body c2 rest counter,
    isChapterStart start = true ->
    forallb notChapter body = true ->
    isChapterElement c2 = true ->
    (exists ch counter1,
       iterateRootFrom u (start :: body ++ c2 :: rest) counter
       = (RootChapter ch :: fst (iterateRootFrom u rest counter1),
          snd (iterateRootFrom u rest counter1)) /\
       chapter_number ch = numberAttribute start) /\
    (forallb notChapter rest = true ->
     exists ch,
       fst (iterateRootFrom u (start :: body ++ c2 :: rest) counter)
       = RootChapter ch :: rootHeadings rest).
Proof.
  intros u start body c2 rest counter Hs Hb Hc.
  destruct (iterateRootFrom_chapter u start body c2 rest counter Hs Hb Hc)
    as (content & st & E & _).
  split.
  - eexists. exists (noteCounter st). split; [exact E|reflexivity].
  - intro Hr. eexists. rewrite E. cbn [fst]. f_equal.
    pose proof (iterateRootFrom_prefix rest [] u (noteCounter st) Hr) as P.
    rewrite app_nil_r in P. rewrite P. cbn [fst].
    apply app_nil_r.
Qed.

Lemma chapter_end_element_is_consumed_witness :
  exists ch,
    fst (iterateRootFrom threeChaptersNoEnd
           (chapterStart "1"
              :: [paraStyled "p" [verseStart "1"; Text "a"]]
              ++ chapterStart "2"
              :: [paraStyled "s1" [Text "Second"];
                  paraStyled "p" [verseStart "1"; Text "b"]])
           newParser)
    = RootChapter ch
        :: rootHeadings [paraStyled "s1" [Text "Second"];
                         paraStyled "p" [verseStart "1"; Text "b"]].
Proof.
  exact (proj2 (chapter_end_element_is_consumed threeChaptersNoEnd
                  (chapterStart "1")
                  [paraStyled "p" [verseStart "1"; Text "a"]]
                  (chapterStart "2")
                  [paraStyled "s1" [Text "Second"];
                   paraStyled "p" [verseStart "1"; Text "b"]]
                  newParser eq_refl eq_refl eq_refl) eq_refl).
Defined.

Lemma bracketed_chapters :
  forall u blocks trailing counter,
    forallb wellFormedBlock blocks = true ->
    forallb notChapter trailing = true ->
    map chapter_number
      (chaptersOf
         (fst (iterateRootFrom u (flat_map blockNodes blocks ++ trailing)
                 counter)))
    = map (fun b => numberAttribute (block_start b)) blocks.
Proof.
  intros u blocks trailing. induction blocks as [|b blocks IH];
    intros counter Hw Ht.
  - simpl.
    pose proof (iterateRootFrom_prefix trailing [] u counter Ht) as P.
    rewrite app_nil_r in P. rewrite P. cbn [fst].
    rewrite chaptersOf_app, chaptersOf_rootHeadings. reflexivity.
  - simpl in Hw. apply andb_true_iff in Hw. destruct Hw as [Hb Hw].
    unfold wellFormedBlock in Hb.
    repeat (apply andb_true_iff in Hb; destruct Hb as [Hb ?H]).
    simpl flat_map. unfold blockNodes at 1.
    rewrite <- !app_assoc.
    rewrite (iterateRootFrom_prefix (block_before b) _ u counter Hb).
    cbn [fst]. rewrite chaptersOf_app, chaptersOf_rootHeadings.
    cbn [app].
    rewrite <- app_assoc. cbn [app].
    destruct (iterateRootFrom_chapter u (block_start b) (block_body b)
                (block_end b) (flat_map blockNodes blocks ++ trailing)
                counter H1 H0 H) as (content & st & E & _).
    rewrite E. cbn [fst]. simpl. f_equal. apply IH; assumption.
Qed.

(** X16.  When every chapter of a document is bracketed (a start
    milestone, nodes that are no [chapter] elements, and a [chapter]
    element that ends it), with no [chapter] element between the brackets
    and behind the last, the chapters of the root content are those of the
    start milestones, one for each and in their order. *)
Theorem bracketed_document_keeps_every_chapter :
  forall u blocks trailing counter,
    forallb wellFormedBlock blocks = true ->
    forallb notChapter trailing = true ->
    map chapter_number
      (chaptersOf
         (fst (iterateRootFrom u (flat_map blockNodes blocks ++ trailing)
                 counter)))
    = map (fun b => numberAttribute (block_start b)) blocks.
Proof. exact bracketed_chapters. Qed.

Lemma bracketed_document_keeps_every_chapter_witness :
  map chapter_number
    (chaptersOf
       (fst (iterateRootFrom noChapters
               (flat_map blockNodes bracketedBlocks ++ [Text " "])
               newParser)))
  = [Js.Int 1; Js.Int 2].
Proof.
  exact (bracketed_document_keeps_every_chapter noChapters bracketedBlocks
           [Text " "] newParser eq_refl eq_refl).
Defined.

Lemma filter_app_length :
  forall (A : Type) (f : A -> bool) (a b : list A),
    length (filter f b) <= length (filter f (a ++ b)).
Proof.
  intros A f a b. rewrite filter_app, length_app. lia.
Qed.

Lemma RootRun_chapter_count :
  forall u children counter items counter',
    RootRun u children counter items counter' ->
    length (chaptersOf items) <= length (filter isChapterStart children).
Proof.
  intros u children counter items counter' R.
  induction R as [counter
                 |child rest counter content st remaining items counter'
                    He Hn Heid E R IH
                 |child rest counter items counter' He Hn Hs R IH
                 |child rest counter items counter' Hskip R IH].
  - simpl. lia.
  - simpl. unfold isChapterStart at 1. rewrite He, Hn, Heid. simpl.
    destruct (iterateChapterContent_remaining _ _ _ _ _ _ _ E)
      as [consumed ->].
    pose proof (filter_app_length _ isChapterStart consumed remaining). lia.
  - simpl. destruct (isChapterStart child); simpl; lia.
  - simpl. destruct (isChapterStart child); simpl; lia.
Qed.

(** X17.  A parse tree has at most as many chapters as the root has start
    [chapter] milestones among its children: no chapter comes from
    anything else, and no milestone opens two. *)
Theorem chapters_bounded_by_start_milestones :
  forall usx counter tree counter',
    parse usx counter = inr (tree, counter') ->
    length (chaptersOf (tree_content tree))
    <= length (filter isChapterStart (childNodes usx)).
Proof.
  intros usx counter tree counter' H.
  apply parse_content, iterateRootContent_run, RootRun_chapter_count in H.
  exact H.
Qed.

Lemma chapters_bounded_by_start_milestones_witness :
  exists tree counter',
    parse threeChaptersNoEnd newParser = inr (tree, counter') /\
    length (chaptersOf (tree_content tree)) <= 3.
Proof.
  eexists. eexists. split; [vm_compute; reflexivity|].
  exact (chapters_bounded_by_start_milestones threeChaptersNoEnd 0 _ 0 eq_refl).
Defined.

(** ** One parser, several documents *)

(** X18.  The note counter goes on from one parse to the next: when two
    documents are parsed one after the other by one parser, the note ids of
    the two trees together are the consecutive values of the counter, so
    that no id of the second tree is an id of the first. *)
Theorem note_ids_continue_across_parses :
  forall usx1 usx2 counter tree1 counter1 tree2 counter2,
    parse usx1 counter = inr (tree1, counter1) ->
    parse usx2 counter1 = inr (tree2, counter2) ->
    treeNoteIds tree1 ++ treeNoteIds tree2 = seq counter (counter2 - counter) /\
    NoDup (treeNoteIds tree1 ++ treeNoteIds tree2) /\
    counter <= counter1 <= counter2.
Proof.
  intros usx1 usx2 counter tree1 counter1 tree2 counter2 H1 H2.
  apply parse_content, iterateRootContent_run, RootRun_noteIds in H1.
  apply parse_content, iterateRootContent_run, RootRun_noteIds in H2.
  destruct H1 as (I1 & L1 & _). destruct H2 as (I2 & L2 & _).
  assert (E : treeNoteIds tree1 ++ treeNoteIds tree2
              = seq counter (counter2 - counter)).
  { unfold treeNoteIds. rewrite I1, I2.
    replace (counter2 - counter)
      with ((counter1 - counter) + (counter2 - counter1)) by lia.
    rewrite seq_app.
    replace (counter + (counter1 - counter)) with counter1 by lia.
    reflexivity. }
  split; [exact E|]. split; [rewrite E; apply seq_NoDup|lia].
Qed.

Lemma note_ids_continue_across_parses_witness :
  exists tree1 tree2,
    parse twoChapters newParser = inr (tree1, 2) /\
    parse twoChapters 2 = inr (tree2, 4) /\
    treeNoteIds tree1 ++ treeNoteIds tree2 = [0; 1; 2; 3].
Proof.
  eexists. eexists. split; [vm_compute; reflexivity|].
  split; [vm_compute; reflexivity|].
  exact (proj1 (note_ids_continue_across_parses twoChapters twoChapters
                  0 _ 2 _ 4 eq_refl eq_refl)).
Defined.

(** ** The title of a document without title text *)

Lemma filter_all_empty :
  forall l,
    forallb Js.isEmpty l = true ->
    filter (fun t => negb (Js.isEmpty t)) l = [].
Proof.
  induction l as [|x l IH]; intro H; [reflexivity|].
  simpl in *. apply andb_true_iff in H. destruct H as [Hx Hl].
  rewrite Hx. simpl. apply IH, Hl.
Qed.

(** X19.  When a document has title paragraphs and all of them are empty,
    the title of the tree is present and is the empty string; the title is
    absent only when the document has no title paragraph. *)
Theorem title_of_empty_title_paragraphs :
  forall usx counter tree counter',
    parse usx counter = inr (tree, counter') ->
    (tree_title tree = None <-> titleParas usx = []) /\
    (titleParas usx <> [] ->
     forallb Js.isEmpty (map textContent (titleParas usx)) = true ->
     tree_title tree = Some "").
Proof.
  intros usx counter tree counter' H. unfold parse in H.
  destruct (querySelector (selHasAttr "book" "code") usx); [|discriminate].
  destruct (Js.isEmpty (Js.orElse (getAttribute "code" n) "")); [discriminate|].
  destruct (iterateRootContent usx counter) as [content c'].
  inversion H; subst; clear H. simpl.
  unfold titleOf, titleParas, querySelectorAll.
  destruct (filter isTitlePara (descendants usx)) as [|p ps] eqn:E.
  - split; [split; reflexivity|]. intro Hn. contradiction.
  - split; [split; discriminate|].
    intros _ Hall. rewrite (filter_all_empty _ Hall). reflexivity.
Qed.

Lemma title_of_empty_title_paragraphs_witness :
  exists tree counter',
    parse emptyTitles newParser = inr (tree, counter') /\
    tree_title tree = Some "".
Proof.
  eexists. eexists. split; [vm_compute; reflexivity|].
  apply (proj2 (title_of_empty_title_paragraphs emptyTitles 0 _ 0 eq_refl)).
  - vm_compute. discriminate.
  - reflexivity.
Defined.

(** ** The helpers of the test suite *)

Lemma splitLines_nonempty : forall s, splitLines s <> [].
Proof.
  intros [|c r]; simpl; [discriminate|].
  destruct (Ascii.eqb c newline); [discriminate|].
  destruct (splitLines r); discriminate.
Qed.

Lemma join_cons_char :
  forall sep c l ls,
    Js.join sep (String c l :: ls) = String c (Js.join sep (l :: ls)).
Proof. intros sep c l [|l2 ls]; reflexivity. Qed.

Lemma join_splitLines :
  forall s, Js.join (String newline "") (splitLines s) = s.
Proof.
  induction s as [|c r IH]; [reflexivity|]. simpl.
  destruct (Ascii.eqb_spec c newline) as [->|Hc].
  - pose proof (splitLines_nonempty r) as Hn.
    destruct (splitLines r) as [|l ls]; [contradiction|].
    change (Js.join (String newline "") ("" :: l :: ls))
      with (String newline (Js.join (String newline "") (l :: ls))).
    rewrite IH. reflexivity.
  - pose proof (splitLines_nonempty r) as Hn.
    destruct (splitLines r) as [|l ls]; [contradiction|].
    rewrite join_cons_char, IH. reflexivity.
Qed.

Lemma join_firstn_prefix :
  forall sep ls x,
    exists rest, Js.join sep ls = (Js.join sep (firstn x ls) ++ rest)%string.
Proof.
  intros sep ls. induction ls as [|l ls IH]; intro x.
  - destruct x; exists EmptyString; reflexivity.
  - destruct x as [|x].
    + exists (Js.join sep (l :: ls)). reflexivity.
    + simpl firstn. destruct (IH x) as [rest E].
      destruct ls as [|l2 ls].
      * destruct x; exists EmptyString; simpl;
          rewrite string_app_empty_r; reflexivity.
      * change (Js.join sep (l :: l2 :: ls))
          with (l ++ sep ++ Js.join sep (l2 :: ls))%string.
        destruct x as [|x].
        -- exists (sep ++ Js.join sep (l2 :: ls))%string. reflexivity.
        -- simpl firstn in *.
           change (Js.join sep (l :: l2 :: firstn x ls))
             with (l ++ sep ++ Js.join sep (l2 :: firstn x ls))%string.
           exists rest. rewrite E, !string_app_assoc. reflexivity.
Qed.

Lemma noNewline_cons :
  forall c s,
    noNewline (String c s) = negb (Ascii.eqb c newline) && noNewline s.
Proof. reflexivity. Qed.

Lemma splitLines_lines : forall s, forallb noNewline (splitLines s) = true.
Proof.
  induction s as [|c r IH]; [reflexivity|]. simpl.
  destruct (Ascii.eqb c newline) eqn:E; [simpl; exact IH|].
  destruct (splitLines r) as [|l ls]; simpl in *.
  - rewrite E. reflexivity.
  - rewrite E. exact IH.
Qed.

Lemma splitLines_app_line :
  forall l r,
    noNewline l = true ->
    splitLines (l ++ String newline r)%string = l :: splitLines r.
Proof.
  induction l as [|c l IH]; intros r H.
  - reflexivity.
  - rewrite noNewline_cons in H. apply andb_true_iff in H.
    destruct H as [Hc Hl]. apply negb_true_iff in Hc.
    simpl. rewrite Hc, (IH r Hl). reflexivity.
Qed.

Lemma splitLines_line :
  forall l, noNewline l = true -> splitLines l = [l].
Proof.
  induction l as [|c l IH]; intro H; [reflexivity|].
  rewrite noNewline_cons in H. apply andb_true_iff in H.
  destruct H as [Hc Hl]. apply negb_true_iff in Hc.
  simpl. rewrite Hc, (IH Hl). reflexivity.
Qed.

Lemma splitLines_join :
  forall ls,
    ls <> [] -> forallb noNewline ls = true ->
    splitLines (Js.join (String newline "") ls) = ls.
Proof.
  induction ls as [|l ls IH]; intros Hn H; [contradiction|].
  simpl in H. apply andb_true_iff in H. destruct H as [Hl Hls].
  destruct ls as [|l2 ls]; [apply splitLines_line, Hl|].
  change (Js.join (String newline "") (l :: l2 :: ls))
    with (l ++ String newline (Js.join (String newline "") (l2 :: ls)))%string.
  rewrite (splitLines_app_line _ _ Hl), IH; [reflexivity|discriminate|exact Hls].
Qed.

Lemma forallb_firstn :
  forall (A : Type) (f : A -> bool) (l : list A) n,
    forallb f l = true -> forallb f (firstn n l) = true.
Proof.
  intros A f l. induction l as [|a l IH]; intros n H.
  - destruct n; reflexivity.
  - destruct n as [|n]; [reflexivity|]. simpl in *.
    apply andb_true_iff in H. destruct H as [Ha Hl].
    rewrite Ha, (IH n Hl). reflexivity.
Qed.

(** X20.  [firstXLines] gives a prefix of the content; it gives the
    whole content when the count is at least the number of its lines (so
    splitting and joining is a round trip), and the empty string when the
    count is 0; taking lines twice is taking the smaller count. *)
Theorem firstXLines_prefix_and_composition :
  (forall content x,
     exists rest, content = (firstXLines content x ++ rest)%string) /\
  (forall content x,
     length (splitLines content) <= x -> firstXLines content x = content) /\
  (forall content, firstXLines content 0 = "") /\
  (forall content x y,
     firstXLines (firstXLines content x) y = firstXLines content (min y x)).
Proof.
  split; [|split; [|split]].
  - intros content x. unfold firstXLines.
    destruct (join_firstn_prefix (String newline "") (splitLines content) x)
      as [rest E].
    exists rest. rewrite <- E, join_splitLines. reflexivity.
  - intros content x H. unfold firstXLines.
    rewrite firstn_all2 by exact H. apply join_splitLines.
  - reflexivity.
  - intros content x y. unfold firstXLines.
    destruct x as [|x].
    + rewrite Nat.min_0_r. simpl.
      destruct y as [|y]; [reflexivity|]. simpl. rewrite firstn_nil.
      reflexivity.
    + rewrite splitLines_join.
      * rewrite firstn_firstn. reflexivity.
      * pose proof (splitLines_nonempty content) as Hn.
        destruct (splitLines content); [contradiction|discriminate].
      * apply forallb_firstn, splitLines_lines.
Qed.

Lemma firstXLines_prefix_and_composition_witness :
  firstXLines "\id GEN" 3 = "\id GEN".
Proof.
  apply (proj1 (proj2 firstXLines_prefix_and_composition) "\id GEN" 3).
  simpl. lia.
Defined.

Lemma find_append :
  forall (A : Type) (f : A -> bool) (a b : list A),
    find f (a ++ b)
    = match find f a with
      | Some x => Some x
      | None => find f b
      end.
Proof.
  intros A f a b. induction a as [|x a IH]; [reflexivity|].
  simpl. destruct (f x); [reflexivity|exact IH].
Qed.

Lemma fold_setProperty :
  forall (Content : Type) (files : list (OutputFile Content))
         (obj : JsObject Content) k,
    fold_left (fun result file =>
                 setProperty result (file_path file) (file_content file))
              files obj k
    = if String.eqb k "__proto__" then obj k
      else match lastWithPath files k with
           | Some c => Some c
           | None => obj k
           end.
Proof.
  intros Content files. induction files as [|f files IH]; intros obj k.
  - simpl. destruct (String.eqb k "__proto__"); reflexivity.
  - simpl fold_left. rewrite IH.
    destruct (String.eqb_spec k "__proto__") as [->|Hk].
    + unfold setProperty.
      destruct (String.eqb_spec (file_path f) "__proto__") as [E|E];
        [reflexivity|].
      destruct (String.eqb_spec "__proto__" (file_path f)) as [E'|E'];
        [congruence|reflexivity].
    + unfold lastWithPath. simpl rev. rewrite find_append.
      destruct (find (fun file => String.eqb (file_path file) k) (rev files));
        [reflexivity|].
      simpl. unfold setProperty.
      destruct (String.eqb_spec (file_path f) "__proto__") as [E|E].
      * destruct (String.eqb_spec (file_path f) k) as [E'|E'];
          [congruence|reflexivity].
      * rewrite (String.eqb_sym k (file_path f)).
        destruct (String.eqb (file_path f) k); reflexivity.
Qed.

Lemma lastWithPath_key :
  forall (Content : Type) (files : list (OutputFile Content)) k,
    lastWithPath files k <> None <-> In k (map file_path files).
Proof.
  intros Content files k. unfold lastWithPath. split.
  - intro H.
    destruct (find (fun file => String.eqb (file_path file) k) (rev files))
      as [f|] eqn:E; [|contradiction].
    apply find_some in E. destruct E as [Hin Hk].
    apply String.eqb_eq in Hk. subst k.
    apply in_map, in_rev, Hin.
  - intro Hin. apply in_map_iff in Hin. destruct Hin as (f & <- & Hin).
    destruct (find (fun file => String.eqb (file_path file) (file_path f))
                   (rev files)) as [g|] eqn:E; [discriminate|].
    exfalso. apply in_rev in Hin.
    pose proof (find_none _ _ E f Hin) as Hf. simpl in Hf.
    rewrite String.eqb_refl in Hf. discriminate.
Qed.

Lemma find_unique_path :
  forall (Content : Type) (l : list (OutputFile Content)) f,
    In f l ->
    (forall g, In g l -> file_path g = file_path f -> g = f) ->
    find (fun x => String.eqb (file_path x) (file_path f)) l = Some f.
Proof.
  intros Content l f. induction l as [|x l IH]; intros Hin Hu; [contradiction|].
  simpl. destruct (String.eqb_spec (file_path x) (file_path f)) as [E|E].
  - f_equal. apply Hu; [now left|exact E].
  - apply IH.
    + destruct Hin as [->|Hin]; [contradiction|exact Hin].
    + intros g Hg. apply Hu. now right.
Qed.

Lemma NoDup_paths_unique :
  forall (Content : Type) (files : list (OutputFile Content)) f g,
    NoDup (map file_path files) ->
    In f files -> In g files -> file_path g = file_path f -> g = f.
Proof.
  intros Content files f g. induction files as [|x l IH]; intros Hnd Hf Hg E;
    [contradiction|].
  simpl in Hnd. inversion Hnd as [|y l' Hnot Hnd']; subst.
  destruct Hf as [->|Hf], Hg as [->|Hg].
  - reflexivity.
  - exfalso. apply Hnot. rewrite <- E. apply in_map, Hg.
  - exfalso. apply Hnot. rewrite E. apply in_map, Hf.
  - apply IH; assumption.
Qed.



(** ** Normal entries *)

Lemma trim_trimText_normal :
  forall s,
    Js.isEmpty (Js.trim (trimText s)) = false ->
    normalText (Js.trim (trimText s)) = true.
Proof.
  intros s H. unfold normalText.
  assert (Hs : singleSpaced false (Js.trim (trimText s)) = true).
  { unfold Js.trim. apply trimEnd_singleSpaced.
    apply (trimStart_singleSpaced _ false). apply collapse_singleSpaced. }
  rewrite Hs, trim_idem, String.eqb_refl, H. reflexivity.
Qed.

Lemma trimContent_normal :
  forall content, forallb normalEntry (trimContent content) = true.
Proof.
  induction content as [|item rest IH]; [reflexivity|].
  destruct item as [s|t p w|n p]; simpl.
  - destruct (Js.isEmpty (Js.trim (trimText s))) eqn:E; [exact IH|].
    simpl. rewrite (trim_trimText_normal s E). exact IH.
  - destruct (Js.isEmpty (Js.trim (trimText t))) eqn:E; [exact IH|].
    simpl. rewrite (trim_trimText_normal t E). exact IH.
  - exact IH.
Qed.

(** X22.  In every verse and subtitle content array of a parse tree,
    the text of each string and text entry is not empty, has no white space
    at its ends, and has no white space inside other than single spaces. *)
Theorem inline_entries_are_normal :
  forall usx counter tree counter',
    parse usx counter = inr (tree, counter') ->
    Forall (fun arr => forallb normalEntry arr = true) (inlineArrays tree).
Proof.
  intros usx counter tree counter' H.
  apply parse_content, iterateRootContent_run, RootRun_normalised in H.
  unfold inlineArrays. eapply Forall_impl; [|exact H].
  intros arr [items ->]. apply trimContent_normal.
Qed.

Lemma inline_entries_are_normal_witness :
  exists tree counter',
    parse spacedVerse newParser = inr (tree, counter') /\
    inlineArrays tree
    = [[IText "Blessed are" (Some 1) false; IText "the poor" (Some 1) true]] /\
    Forall (fun arr => forallb normalEntry arr = true) (inlineArrays tree).
Proof.
  eexists. eexists. split; [vm_compute; reflexivity|].
  split; [reflexivity|].
  exact (inline_entries_are_normal spacedVerse 0 _ 0 eq_refl).
Defined.

Lemma nonWhite_app :
  forall a b, nonWhite (a ++ b)%string = (nonWhite a ++ nonWhite b)%string.
Proof.
  induction a as [|c a IH]; intro b; [reflexivity|]. simpl.
  destruct (Js.isWhiteSpace c); simpl; rewrite IH; reflexivity.
Qed.

Lemma nonWhite_trimStart : forall s, nonWhite (Js.trimStart s) = nonWhite s.
Proof.
  induction s as [|c r IH]; [reflexivity|]. simpl.
  destruct (Js.isWhiteSpace c) eqn:W; [exact IH|]. simpl. rewrite W.
  reflexivity.
Qed.

Lemma nonWhite_trimEnd : forall s, nonWhite (Js.trimEnd s) = nonWhite s.
Proof.
  induction s as [|c r IH]; [reflexivity|]. simpl.
  destruct (Js.isWhiteSpace c) eqn:W; simpl.
  - destruct (Js.isEmpty (Js.trimEnd r)) eqn:E; simpl.
    + rewrite <- IH. destruct (Js.trimEnd r); [reflexivity|discriminate].
    + rewrite W. exact IH.
  - rewrite W, IH. reflexivity.
Qed.

Lemma nonWhite_trim_trimText :
  forall s, nonWhite (Js.trim (trimText s)) = nonWhite s.
Proof.
  intro s. unfold Js.trim, trimText.
  rewrite nonWhite_trimEnd, nonWhite_trimStart. apply collapse_nonWhite.
Qed.

Lemma nonWhite_payload_trimContent :
  forall content,
    nonWhite (payload (trimContent content)) = nonWhite (payload content).
Proof.
  induction content as [|item rest IH]; [reflexivity|].
  destruct item as [s|t p w|n p]; simpl.
  - rewrite nonWhite_app, <- (nonWhite_trim_trimText s), <- IH.
    destruct (Js.isEmpty (Js.trim (trimText s))) eqn:E.
    + destruct (Js.trim (trimText s)); [reflexivity|discriminate].
    + simpl. rewrite nonWhite_app. reflexivity.
  - rewrite nonWhite_app, <- (nonWhite_trim_trimText t), <- IH.
    destruct (Js.isEmpty (Js.trim (trimText t))) eqn:E.
    + destruct (Js.trim (trimText t)); [reflexivity|discriminate].
    + simpl. rewrite nonWhite_app. reflexivity.
  - exact IH.
Qed.

(** X23.  Joining and trimming change white space only: the content
    array that a verse or a subtitle keeps carries, in the same order,
    every code unit that is no white space of the items it was made from,
    and every footnote reference. *)
Theorem normalisation_keeps_the_text :
  forall items,
    nonWhite (payload (trimContent (addOrJoinAll items)))
    = nonWhite (payload items) /\
    refsOf (trimContent (addOrJoinAll items)) = refsOf items.
Proof.
  intro items. split.
  - rewrite nonWhite_payload_trimContent.
    unfold addOrJoinAll.
    rewrite (proj1 (fold_addOrJoin_payload_length items [])). reflexivity.
  - rewrite refsOf_trimContent. apply refsOf_addOrJoinAll.
Qed.

(** ** The parse tree and the history of the parser *)

Lemma iterateNodeTextContent_shift :
  forall k node cn vn st,
    iterateNodeTextContent node cn vn (shiftState k st)
    = (map (shiftItem k) (fst (iterateNodeTextContent node cn vn st)),
       shiftState k (snd (iterateNodeTextContent node cn vn st))).
Proof.
  intros k node cn vn st. unfold iterateNodeTextContent.
  destruct (isTextNode node); [reflexivity|].
  destruct (isElement node && String.eqb (nodeName node) "char").
  { unfold iterateCharContent.
    destruct (styleIs (getAttribute "style" node) "wj"); reflexivity. }
  destruct (isElement node && String.eqb (nodeName node) "note");
    [|reflexivity].
  destruct (styleIs (getAttribute "style" node) "f"); [|reflexivity].
  simpl. unfold shiftState. simpl. rewrite map_app. reflexivity.
Qed.

Lemma shiftItem_withPoem :
  forall k poem items,
    map (shiftItem k) (map (withPoem poem) items)
    = map (withPoem poem) (map (shiftItem k) items).
Proof.
  intros k poem items. rewrite !map_map. apply map_ext.
  intros item. destruct poem, item; reflexivity.
Qed.

Lemma iterateVerseContentLoop_shift :
  forall k walk cn vn st,
    iterateVerseContentLoop walk cn vn (shiftState k st)
    = (map (shiftItem k) (fst (iterateVerseContentLoop walk cn vn st)),
       shiftState k (snd (iterateVerseContentLoop walk cn vn st))).
Proof.
  intros k walk. induction walk as [|[node parent] rest IH]; intros cn vn st;
    simpl.
  - reflexivity.
  - destruct (String.eqb (nodeName node) "verse"); [reflexivity|].
    rewrite iterateNodeTextContent_shift.
    destruct (iterateNodeTextContent node cn (Some vn) st) as [its st1].
    cbn [fst snd]. rewrite IH.
    destruct (iterateVerseContentLoop rest cn vn st1) as [more st2].
    cbn [fst snd]. rewrite map_app, shiftItem_withPoem. reflexivity.
Qed.

Lemma joinLast_shift :
  forall k l v,
    joinLast (shiftItem k l) (shiftItem k v)
    = map (shiftItem k) (joinLast l v).
Proof.
  intros k l v.
  destruct l as [a|a p w|n p], v as [b|b p' w'|m p']; simpl;
    try destruct (hasSameFormatting p w p' w'); reflexivity.
Qed.

Lemma addOrJoin_shift :
  forall k array v,
    addOrJoin (map (shiftItem k) array) (shiftItem k v)
    = map (shiftItem k) (addOrJoin array v).
Proof.
  intros k array v.
  destruct array as [|x xs]; [reflexivity|].
  destruct (@exists_last _ (x :: xs)) as [init [l E]]; [discriminate|].
  rewrite E, map_app. simpl map.
  rewrite !addOrJoin_snoc, map_app, joinLast_shift. reflexivity.
Qed.

Lemma addOrJoinAll_shift :
  forall k items,
    addOrJoinAll (map (shiftItem k) items)
    = map (shiftItem k) (addOrJoinAll items).
Proof.
  intros k items. unfold addOrJoinAll.
  change (@nil InlineItem) with (map (shiftItem k) []) at 1.
  generalize (@nil InlineItem) as acc.
  induction items as [|v items IH]; intro acc; [reflexivity|].
  simpl. rewrite addOrJoin_shift. apply IH.
Qed.

Lemma trimContent_shift :
  forall k content,
    trimContent (map (shiftItem k) content)
    = map (shiftItem k) (trimContent content).
Proof.
  intros k content. induction content as [|item rest IH]; [reflexivity|].
  destruct item as [s|t p w|n p]; simpl.
  - destruct (Js.isEmpty (Js.trim (trimText s))); simpl; rewrite IH;
      reflexivity.
  - destruct (Js.isEmpty (Js.trim (trimText t))); simpl; rewrite IH;
      reflexivity.
  - rewrite IH. reflexivity.
Qed.

Lemma iterateChapterParaVerseLoop_shift :
  forall k para gp parentAfter elements cn st,
    iterateChapterParaVerseLoop para gp parentAfter elements cn
      (shiftState k st)
    = (map (shiftContent k)
         (fst (iterateChapterParaVerseLoop para gp parentAfter elements cn st)),
       shiftState k
         (snd (iterateChapterParaVerseLoop para gp parentAfter elements cn st))).
Proof.
  intros k para gp parentAfter elements.
  induction elements as [|element after IH]; intros cn st; simpl.
  - reflexivity.
  - destruct (negb (isElement element)); [apply IH|].
    destruct (String.eqb (nodeName element) "chapter"); [reflexivity|].
    destruct (String.eqb (nodeName element) "verse"); [|apply IH].
    destruct (hasAttribute "eid" element); [apply IH|].
    unfold iterateVerseContent. rewrite iterateVerseContentLoop_shift.
    destruct (iterateVerseContentLoop
                (iterateUntilEndingVerse
                   (iterateSiblingsAndCousins para gp after parentAfter))
                cn (numberAttribute element) st) as [items st1].
    cbn [fst snd]. rewrite IH.
    destruct (iterateChapterParaVerseLoop para gp parentAfter after cn st1)
      as [more st2].
    cbn [fst snd]. simpl.
    rewrite addOrJoinAll_shift, trimContent_shift. reflexivity.
Qed.

Lemma iterateHebrewSubtitleContent_shift :
  forall k nodes cn st,
    iterateHebrewSubtitleContent nodes cn (shiftState k st)
    = (map (shiftItem k) (fst (iterateHebrewSubtitleContent nodes cn st)),
       shiftState k (snd (iterateHebrewSubtitleContent nodes cn st))).
Proof.
  intros k nodes. induction nodes as [|node rest IH]; intros cn st; simpl.
  - reflexivity.
  - rewrite iterateNodeTextContent_shift.
    destruct (iterateNodeTextContent node cn None st) as [its st1].
    cbn [fst snd]. rewrite IH.
    destruct (iterateHebrewSubtitleContent rest cn st1) as [more st2].
    cbn [fst snd]. rewrite map_app. reflexivity.
Qed.

Lemma iterateChapterParaContent_shift :
  forall k para gp parentAfter cn st,
    iterateChapterParaContent para gp parentAfter cn (shiftState k st)
    = (map (shiftContent k)
         (fst (iterateChapterParaContent para gp parentAfter cn st)),
       shiftState k (snd (iterateChapterParaContent para gp parentAfter cn st))).
Proof.
  intros k para gp parentAfter cn st. unfold iterateChapterParaContent.
  destruct (isSectionStyle (getAttribute "style" para)); [reflexivity|].
  destruct (styleIs (getAttribute "style" para) "b"); [reflexivity|].
  destruct (styleIs (getAttribute "style" para) "d").
  { unfold parseHebrewSubtitle. rewrite iterateHebrewSubtitleContent_shift.
    destruct (iterateHebrewSubtitleContent (childNodes para) cn st)
      as [items st1].
    cbn [fst snd]. simpl.
    rewrite addOrJoinAll_shift, trimContent_shift. reflexivity. }
  destruct (noStyle (getAttribute "style" para)
            || negb (styleIgnored (getAttribute "style" para)));
    [|reflexivity].
  apply iterateChapterParaVerseLoop_shift.
Qed.

Lemma iterateChapterContent_shift :
  forall k u siblings cn st,
    iterateChapterContent u siblings cn (shiftState k st)
    = (map (shiftContent k) (fst (fst (iterateChapterContent u siblings cn st))),
       shiftState k (snd (fst (iterateChapterContent u siblings cn st))),
       snd (iterateChapterContent u siblings cn st)).
Proof.
  intros k u siblings. induction siblings as [|sibling rest IH];
    intros cn st; simpl.
  - reflexivity.
  - destruct (negb (isElement sibling)); [apply IH|].
    destruct (String.eqb (nodeName sibling) "para").
    { rewrite iterateChapterParaContent_shift.
      destruct (iterateChapterParaContent sibling u rest cn st) as [c st1].
      cbn [fst snd]. rewrite IH.
      destruct (iterateChapterContent u rest cn st1) as [[more st2] rem].
      cbn [fst snd]. rewrite map_app. reflexivity. }
    destruct (String.eqb (nodeName sibling) "chapter"); [reflexivity|].
    apply IH.
Qed.

Lemma iterateRootLoop_shift :
  forall k fuel u children counter,
    iterateRootLoop fuel u children (counter + k)
    = (map (shiftRoot k) (fst (iterateRootLoop fuel u children counter)),
       snd (iterateRootLoop fuel u children counter) + k).
Proof.
  intros k fuel u. induction fuel as [|fuel IH]; intros children counter;
    [reflexivity|].
  destruct children as [|child rest]; [reflexivity|]. simpl.
  destruct (negb (isElement child)); [apply IH|].
  destruct (String.eqb (nodeName child) "chapter").
  - destruct (hasAttribute "eid" child); [apply IH|].
    change {| noteCounter := counter + k; footnotes := [] |}
      with (shiftState k {| noteCounter := counter; footnotes := [] |}).
    rewrite iterateChapterContent_shift.
    destruct (iterateChapterContent u rest (numberAttribute child)
                {| noteCounter := counter; footnotes := [] |})
      as [[content st] remaining].
    cbn [fst snd]. simpl noteCounter. rewrite IH.
    destruct (iterateRootLoop fuel u remaining (noteCounter st))
      as [more c'].
    reflexivity.
  - destruct (String.eqb (nodeName child) "para"); [|apply IH].
    destruct (isSectionStyle (getAttribute "style" child)); [|apply IH].
    rewrite IH.
    destruct (iterateRootLoop fuel u rest counter) as [more c'].
    reflexivity.
Qed.

(** X24.  What a parser has parsed before shows in a parse tree only as
    an offset of the note ids: parsing from a counter raised by [k] fails
    in the same way or gives the same tree with every note id, in the
    references and in the footnotes, raised by [k]. *)
Theorem parse_depends_on_counter_by_offset :
  forall usx counter k,
    parse usx (counter + k)
    = match parse usx counter with
      | inl e => inl e
      | inr (tree, counter') => inr (shiftTree k tree, counter' + k)
      end.
Proof.
  intros usx counter k. unfold parse.
  destruct (querySelector (selHasAttr "book" "code") usx) as [book|];
    [|reflexivity].
  destruct (Js.isEmpty (Js.orElse (getAttribute "code" book) ""));
    [reflexivity|].
  unfold iterateRootContent. rewrite iterateRootLoop_shift.
  destruct (iterateRootLoop (length (childNodes usx)) usx (childNodes usx)
              counter) as [content c'].
  reflexivity.
Qed.

(** ** The text of a footnote, in words *)

Lemma trimStart_collapse :
  forall s b, Js.trimStart (Js.collapse b s) = Js.collapse false (Js.trimStart s).
Proof.
  induction s as [|c r IH]; intro b; [reflexivity|]. simpl.
  destruct (Js.isWhiteSpace c) eqn:W.
  - destruct b; [apply IH|]. simpl. apply IH.
  - simpl. rewrite W. reflexivity.
Qed.

Lemma words_trimStart : forall s, words (Js.trimStart s) = words s.
Proof.
  induction s as [|c r IH]; [reflexivity|]. simpl.
  destruct (Js.isWhiteSpace c) eqn:W; [exact IH|]. simpl. rewrite W.
  reflexivity.
Qed.

Lemma words_startsWord :
  forall s, startsWord s = true -> words s <> [].
Proof.
  intros [|c r] H; [discriminate|]. simpl in *.
  apply negb_true_iff in H. rewrite H.
  destruct (startsWord r); [destruct (words r)|]; discriminate.
Qed.

Lemma words_nonEmpty :
  forall s, forallb nonEmptyString (words s) = true.
Proof.
  induction s as [|c r IH]; [reflexivity|]. simpl.
  destruct (Js.isWhiteSpace c); [exact IH|].
  destruct (startsWord r).
  - destruct (words r) as [|w ws]; [reflexivity|]. simpl in *.
    apply andb_true_iff in IH. destruct IH as [_ IH]. exact IH.
  - simpl. exact IH.
Qed.

Lemma join_words_empty :
  forall s, Js.isEmpty (Js.join " " (words s)) = noWords s.
Proof.
  intro s. unfold noWords. pose proof (words_nonEmpty s) as H.
  destruct (words s) as [|w ws]; [reflexivity|].
  simpl in H. apply andb_true_iff in H. destruct H as [Hw _].
  destruct w as [|c w]; [discriminate|].
  rewrite join_cons_char. reflexivity.
Qed.

Lemma headNotWhite_startsWord :
  forall s, headNotWhite s = true -> Js.isEmpty s = false -> startsWord s = true.
Proof. intros [|c r] H E; [discriminate|exact H]. Qed.

Lemma leadSpace_between :
  forall r,
    startsWord r = false ->
    leadSpace false r = if noWords r then "" else " ".
Proof.
  intros [|c r] H; [reflexivity|]. unfold leadSpace.
  simpl in H. simpl headNotWhite. rewrite H. simpl.
  destruct (noWords (String c r)); reflexivity.
Qed.

Lemma trimEnd_collapse_words :
  forall s b,
    Js.trimEnd (Js.collapse b s)
    = (leadSpace b s ++ Js.join " " (words s))%string.
Proof.
  induction s as [|c r IH]; intro b.
  - unfold leadSpace. simpl. rewrite andb_false_r. reflexivity.
  - simpl Js.collapse. destruct (Js.isWhiteSpace c) eqn:W.
    + assert (Hw : words (String c r) = words r) by (simpl; rewrite W; reflexivity).
      destruct b.
      * rewrite IH. unfold leadSpace, noWords. rewrite Hw. reflexivity.
      * simpl Js.trimEnd. rewrite IH.
        unfold leadSpace at 1. simpl negb at 1. cbn [andb]. cbv iota.
        cbn [append]. rewrite join_words_empty.
        unfold leadSpace, noWords. rewrite Hw. simpl headNotWhite. rewrite W.
        simpl. destruct (words r); reflexivity.
    + simpl Js.trimEnd. rewrite W. simpl andb. cbv iota. rewrite IH.
      unfold leadSpace at 2. simpl headNotWhite. rewrite W.
      simpl negb. rewrite andb_false_r. simpl andb. cbv iota. cbn [append].
      simpl words. rewrite W.
      destruct (startsWord r) eqn:S.
      * pose proof (words_startsWord r S) as Hn.
        unfold leadSpace.
        assert (Hh : headNotWhite r = true).
        { destruct r; [discriminate|exact S]. }
        rewrite Hh. simpl negb. rewrite andb_false_r. simpl andb. cbv iota.
        cbn [append].
        destruct (words r) as [|w ws]; [contradiction|].
        rewrite join_cons_char. reflexivity.
      * rewrite (leadSpace_between r S). unfold noWords.
        destruct (words r) as [|w ws]; reflexivity.
Qed.

(** Collapsing and trimming is joining the words by single spaces. *)
Lemma trim_trimText_words :
  forall s, Js.trim (trimText s) = Js.join " " (words s).
Proof.
  intro s. unfold Js.trim, trimText.
  rewrite trimStart_collapse, trimEnd_collapse_words, words_trimStart.
  unfold leadSpace. rewrite trimStart_headNotWhite.
  simpl negb. rewrite andb_false_r. reflexivity.
Qed.

Lemma singleSpaced_suffix :
  forall a r b,
    singleSpaced b (a ++ r)%string = true ->
    singleSpaced false r = true.
Proof.
  assert (W : forall r, singleSpaced true r = true -> singleSpaced false r = true).
  { intros [|c r] H; [reflexivity|]. simpl in *.
    destruct (Js.isWhiteSpace c); [|exact H].
    rewrite andb_false_r in H. discriminate. }
  induction a as [|c a IH]; intros r b H.
  - simpl in H. destruct b; [apply W, H|exact H].
  - simpl in H. destruct (Js.isWhiteSpace c).
    + apply andb_true_iff in H. destruct H as [_ H]. apply (IH r true H).
    + apply (IH r false H).
Qed.

Lemma trim_words_of_suffix :
  forall s a rest,
    Js.trim (trimText s) = (a ++ rest)%string ->
    Js.trim rest = Js.join " " (words rest).
Proof.
  intros s a rest E.
  assert (H : singleSpaced false (Js.trim (trimText s)) = true).
  { unfold Js.trim. apply trimEnd_singleSpaced.
    apply (trimStart_singleSpaced _ false). apply collapse_singleSpaced. }
  rewrite E in H. apply singleSpaced_suffix in H.
  rewrite <- trim_trimText_words. unfold trimText.
  rewrite (collapse_fixed _ _ H). reflexivity.
Qed.

Lemma takeDigits_maximal :
  forall m s k rest,
    takeDigits m s = (k, rest) -> k = m \/ headNotDigit rest = true.
Proof.
  induction m as [|m IH]; intros s k rest H; simpl in H.
  - inversion H. now left.
  - destruct s as [|c r]; [inversion H; now right|].
    destruct (Js.isDigit c) eqn:D.
    + destruct (takeDigits m r) as [k' rest'] eqn:E.
      inversion H; subst; clear H.
      destruct (IH _ _ _ E) as [->|Hr]; [now left|now right].
    + inversion H; subst. right. simpl. rewrite D. reflexivity.
Qed.

Lemma verseReferenceRegex_greedy :
  forall s rest,
    verseReferenceRegex s = Some rest -> GreedyReferencePrefix s rest.
Proof.
  intros s rest H. unfold verseReferenceRegex in H.
  destruct (takeDigits 3 s) as [k1 r1] eqn:E1.
  destruct k1 as [|k1]; [discriminate|].
  destruct r1 as [|c r]; [discriminate|].
  destruct (Ascii.eqb_spec c ":") as [->|]; [|discriminate].
  destruct (takeDigits 3 r) as [k2 rest2] eqn:E2.
  destruct k2 as [|k2]; [discriminate|].
  inversion H; subst; clear H.
  pose proof (takeDigits_maximal _ _ _ _ E2) as Hmax.
  apply takeDigits_spec in E1. destruct E1 as (d1 & -> & L1 & Hl1 & A1).
  apply takeDigits_spec in E2. destruct E2 as (d2 & -> & L2 & Hl2 & A2).
  exists d1, d2. simpl. repeat split; auto; try lia.
  destruct Hmax as [Hm|Hr]; [left; lia|right; exact Hr].
Qed.

Lemma verseReferenceRegex_of_greedy :
  forall s rest,
    GreedyReferencePrefix s rest -> verseReferenceRegex s = Some rest.
Proof.
  intros s rest (d1 & d2 & -> & A1 & A2 & L1 & L2 & G).
  unfold verseReferenceRegex.
  rewrite (takeDigits_complete 3 d1) by (auto; lia).
  destruct (String.length d1) as [|k1] eqn:E1; [lia|].
  cbn [append]. rewrite Ascii.eqb_refl.
  rewrite (takeDigits_complete 3 d2) by (auto; lia).
  destruct (String.length d2) as [|k2] eqn:E2; [lia|]. reflexivity.
Qed.

Lemma takeDigits_digit :
  forall m c r,
    Js.isDigit c = true ->
    takeDigits (S m) (String c r)
    = (S (fst (takeDigits m r)), snd (takeDigits m r)).
Proof.
  intros m c r H. simpl. rewrite H.
  destruct (takeDigits m r). reflexivity.
Qed.

Lemma verseReferenceRegex_none :
  forall s,
    verseReferenceRegex s = None -> forall rest, ~ ReferencePrefix s rest.
Proof.
  intros s H rest (d1 & d2 & -> & A1 & A2 & L1 & L2).
  unfold verseReferenceRegex in H.
  rewrite (takeDigits_complete 3 d1) in H by (auto; lia).
  destruct (String.length d1) as [|k1] eqn:E1; [lia|].
  cbn [append] in H. rewrite Ascii.eqb_refl in H.
  destruct d2 as [|c d2]; [simpl in L2; lia|].
  simpl in A2. apply andb_true_iff in A2. destruct A2 as [Hc _].
  cbn [append] in H. rewrite (takeDigits_digit 2 c _ Hc) in H.
  destruct (takeDigits 2 (d2 ++ rest)%string). discriminate H.
Qed.

Lemma footnoteText_words :
  forall note, FootnoteTextOf (textContent note) (footnoteText note).
Proof.
  intro note. unfold FootnoteTextOf, footnoteText.
  rewrite <- trim_trimText_words.
  destruct (verseReferenceRegex (Js.trim (trimText (textContent note))))
    as [rest|] eqn:E.
  - left. exists rest. split; [apply verseReferenceRegex_greedy, E|].
    apply verseReferenceRegex_greedy in E.
    destruct E as (d1 & d2 & E & _).
    rewrite <- !string_app_assoc in E.
    apply (trim_words_of_suffix _ _ _ E).
  - right. split; [apply verseReferenceRegex_none, E|reflexivity].
Qed.

Lemma FootnoteTextOf_unique :
  forall content t1 t2,
    FootnoteTextOf content t1 -> FootnoteTextOf content t2 -> t1 = t2.
Proof.
  intros content t1 t2 H1 H2. unfold FootnoteTextOf in *.
  assert (G : forall s rest, GreedyReferencePrefix s rest ->
                             ReferencePrefix s rest).
  { intros s rest (d1 & d2 & E & A1 & A2 & L1 & L2 & _).
    exists d1, d2. auto. }
  destruct H1 as [(r1 & G1 & ->)|(N1 & ->)],
           H2 as [(r2 & G2 & ->)|(N2 & ->)].
  - apply verseReferenceRegex_of_greedy in G1, G2.
    rewrite G1 in G2. inversion G2. reflexivity.
  - exfalso. apply (N2 r1), G, G1.
  - exfalso. apply (N1 r2), G, G2.
  - reflexivity.
Qed.

(** C5.  A note element of style [f] yields one footnote reference,
    carrying the value of the note counter, and pushes one footnote onto
    the footnotes of the chapter: its id is that value, its caller the
    [caller] attribute or null, its reference the chapter number and the
    number of the open verse, 0 in a subtitle.  A note of another style
    yields nothing and leaves the state as it is.  The text of the footnote
    is determined by the words of the text content of the note (its maximal
    runs of code units that are no white space): it is the words joined by
    single spaces and, when that starts with one to three digits, a colon
    and one to three digits, the words of what follows that reference,
    joined by single spaces.  What the pattern removes is such a
    reference. *)
Theorem note_yields_one_footnote :
  (forall attrs kids cn vn st,
     iterateNodeTextContent (Element "note" attrs kids) cn vn st
     = if styleIs (lookupAttr "style" attrs) "f" then
         ([INoteRef (noteCounter st) None],
          {| noteCounter := S (noteCounter st);
             footnotes :=
               footnotes st ++
               [ {| noteId := noteCounter st;
                    caller := Js.orNull (lookupAttr "caller" attrs);
                    text := footnoteText (Element "note" attrs kids);
                    reference :=
                      {| ref_chapter := cn;
                         ref_verse := match vn with
                                      | Some v => v
                                      | None => Js.Int 0
                                      end |} |} ] |})
       else ([], st)) /\
  (forall s rest,
     verseReferenceRegex s = Some rest ->
     exists d1 d2,
       s = (d1 ++ ":" ++ d2 ++ rest)%string /\
       allDigits d1 = true /\ allDigits d2 = true /\
       1 <= String.length d1 <= 3 /\ 1 <= String.length d2 <= 3) /\
  (forall para cn vn st,
     iterateVerseContentLoop [(genesisNote, para)] cn vn st
     = ([INoteRef (noteCounter st) (poemOfParent para)],
        {| noteCounter := S (noteCounter st);
           footnotes :=
             footnotes st ++
             [ {| noteId := noteCounter st; caller := Some "+";
                  text := "In the beginning";
                  reference := {| ref_chapter := cn; ref_verse := vn |} |} ]
        |})) /\
  (forall cn st,
     iterateHebrewSubtitleContent [genesisNote; crossReference] cn st
     = ([INoteRef (noteCounter st) None],
        {| noteCounter := S (noteCounter st);
           footnotes :=
             footnotes st ++
             [ {| noteId := noteCounter st; caller := Some "+";
                  text := "In the beginning";
                  reference :=
                    {| ref_chapter := cn; ref_verse := Js.Int 0 |} |} ] |})) /\
  (forall note, FootnoteTextOf (textContent note) (footnoteText note)) /\
  (forall content t1 t2,
     FootnoteTextOf content t1 -> FootnoteTextOf content t2 -> t1 = t2) /\
  (forall cn vn st,
     iterateNodeTextContent spacedNote cn vn st
     = ([INoteRef (noteCounter st) None],
        {| noteCounter := S (noteCounter st);
           footnotes :=
             footnotes st ++
             [ {| noteId := noteCounter st; caller := Some "+";
                  text := "In the beginning";
                  reference :=
                    {| ref_chapter := cn;
                       ref_verse := match vn with
                                    | Some v => v
                                    | None => Js.Int 0
                                    end |} |} ] |})).
Proof.
  split; [|split; [exact verseReferenceRegex_sound|split; [|split]]].
  - intros attrs kids cn vn st.
    unfold iterateNodeTextContent, footnoteText.
    rewrite orElse_empty.
    change (getAttribute "style" (Element "note" attrs kids))
      with (lookupAttr "style" attrs).
    simpl isTextNode. cbv iota. simpl andb. cbv iota.
    destruct (styleIs (lookupAttr "style" attrs) "f"); reflexivity.
  - intros para cn vn st. simpl.
    destruct (poemOfParent para); reflexivity.
  - intros cn st. reflexivity.
  - split; [exact footnoteText_words|].
    split; [exact FootnoteTextOf_unique|].
    intros cn vn st. reflexivity.
Qed.

Lemma note_yields_one_footnote_witness :
  (exists d1 d2,
     "12:345 Or" = (d1 ++ ":" ++ d2 ++ " Or")%string /\
     allDigits d1 = true /\ allDigits d2 = true /\
     1 <= String.length d1 <= 3 /\ 1 <= String.length d2 <= 3) /\
  footnoteText spacedNote = "In the beginning".
Proof.
  split.
  - exact (proj1 (proj2 note_yields_one_footnote) "12:345 Or" " Or" eq_refl).
  - apply (proj1 (proj2 (proj2 (proj2 (proj2 (proj2 note_yields_one_footnote)))))
             (textContent spacedNote)).
    + exact (proj1 (proj2 (proj2 (proj2 (proj2 note_yields_one_footnote))))
               spacedNote).
    + left. exists " In the beginning". split; [|reflexivity].
      exists "1", "1". simpl. repeat split; try reflexivity; lia.
Defined.

(** ** Joining, as runs *)

Lemma hasSameFormatting_spec :
  forall p w p' w',
    hasSameFormatting p w p' w' = true <-> p = p' /\ w = w'.
Proof.
  intros p w p' w'. unfold hasSameFormatting.
  rewrite andb_true_iff, Bool.eqb_true_iff. split.
  - intros [Hp Hw]. split; [|exact Hw].
    destruct p as [x|], p' as [y|]; simpl in Hp; try discriminate;
      [apply Nat.eqb_eq in Hp; subst|]; reflexivity.
  - intros [-> ->]. split; [|reflexivity].
    destruct p'; simpl; [apply Nat.eqb_refl|reflexivity].
Qed.

Lemma hasSameFormatting_refl :
  forall p w, hasSameFormatting p w p w = true.
Proof. intros p w. apply hasSameFormatting_spec. auto. Qed.

Ltac same_formatting :=
  repeat match goal with
         | H : hasSameFormatting _ _ _ _ = true |- _ =>
             apply hasSameFormatting_spec in H; destruct H; subst
         end;
  rewrite ?hasSameFormatting_refl in *.

Lemma joinFirst_joinLast :
  forall l v joined,
    joinFirst l (joinFirst v joined)
    = removelast (joinLast l v) ++ joinFirst (last (joinLast l v) v) joined.
Proof.
  intros l v joined.
  destruct l as [a|a p w|n p], v as [b|b p' w'|m p'];
    destruct joined as [|[c|c q x|k q] tail]; simpl;
    repeat match goal with
           | |- context [hasSameFormatting ?a ?b ?c ?d] =>
               destruct (hasSameFormatting a b c d) eqn:?; simpl
           end;
    same_formatting; try discriminate; try congruence;
    rewrite ?string_app_assoc; reflexivity.
Qed.

Lemma joinLast_snoc :
  forall l v, joinLast l v = removelast (joinLast l v) ++ [last (joinLast l v) v].
Proof.
  intros l v. apply app_removelast_last.
  destruct l as [a|a p w|n p], v as [b|b p' w'|m p']; simpl;
    try destruct (hasSameFormatting p w p' w'); discriminate.
Qed.

Lemma fold_addOrJoin_joinRuns :
  forall items init l,
    fold_left addOrJoin items (init ++ [l])
    = init ++ joinFirst l (joinRuns items).
Proof.
  induction items as [|v items IH]; intros init l; [reflexivity|].
  simpl. rewrite addOrJoin_snoc, joinFirst_joinLast.
  rewrite (joinLast_snoc l v) at 1.
  rewrite app_assoc, IH, <- app_assoc. reflexivity.
Qed.

(** What [addOrJoin] accumulates is the sequence with its runs joined. *)
Lemma addOrJoinAll_joinRuns :
  forall items, addOrJoinAll items = joinRuns items.
Proof.
  intros [|v items]; [reflexivity|].
  unfold addOrJoinAll. simpl.
  apply (fold_addOrJoin_joinRuns items [] v).
Qed.

Lemma joinRuns_coalesced_fixed :
  forall items, coalesced items = true -> joinRuns items = items.
Proof.
  intros items H. rewrite <- addOrJoinAll_joinRuns. unfold addOrJoinAll.
  apply (fold_addOrJoin_coalesced items []). exact H.
Qed.

Lemma joinRuns_facts :
  forall items,
    coalesced (joinRuns items) = true /\
    payload (joinRuns items) = payload items /\
    refsOf (joinRuns items) = refsOf items.
Proof.
  intro items. rewrite <- addOrJoinAll_joinRuns.
  split; [apply coalesced_addOrJoinAll|].
  split; [|apply refsOf_addOrJoinAll].
  unfold addOrJoinAll.
  apply (proj1 (fold_addOrJoin_payload_length items [])).
Qed.

(** ** The content arrays and the items they are made from *)

Lemma VerseItemsIn_cons :
  forall para gp parentAfter a elements items,
    VerseItemsIn para gp parentAfter elements items ->
    VerseItemsIn para gp parentAfter (a :: elements) items.
Proof.
  intros para gp parentAfter a elements items
         (before & v & after & cn & st & E & H).
  exists (a :: before), v, after, cn, st. rewrite E. auto.
Qed.

Lemma iterateChapterParaVerseLoop_arrays :
  forall para gp parentAfter elements cn st,
    Forall (fun arr =>
              exists items,
                VerseItemsIn para gp parentAfter elements items /\
                arr = trimContent (joinRuns items))
           (flat_map inlineArrayOf
              (fst (iterateChapterParaVerseLoop para gp parentAfter elements
                      cn st))).
Proof.
  intros para gp parentAfter elements.
  induction elements as [|element after IH]; intros cn st; simpl.
  - constructor.
  - assert (Hcons :
      forall st1,
        Forall (fun arr =>
                  exists items,
                    VerseItemsIn para gp parentAfter (element :: after) items /\
                    arr = trimContent (joinRuns items))
               (flat_map inlineArrayOf
                  (fst (iterateChapterParaVerseLoop para gp parentAfter after
                          cn st1)))).
    { intro st1. eapply Forall_impl; [|apply (IH cn st1)].
      intros arr (items & Hi & E). exists items. split; [|exact E].
      apply VerseItemsIn_cons, Hi. }
    destruct (isElement element) eqn:He; simpl negb; cbv iota;
      [|apply Hcons].
    destruct (String.eqb (nodeName element) "chapter"); [constructor|].
    destruct (String.eqb (nodeName element) "verse") eqn:Hv; [|apply Hcons].
    destruct (hasAttribute "eid" element) eqn:Heid; [apply Hcons|].
    destruct (iterateVerseContent para gp after parentAfter cn
                (numberAttribute element) st) as [items st1] eqn:E.
    specialize (Hcons st1).
    destruct (iterateChapterParaVerseLoop para gp parentAfter after cn st1)
      as [more st2].
    simpl in *. constructor; [|exact Hcons].
    exists items. split.
    + exists [], element, after, cn, st. rewrite E.
      apply String.eqb_eq in Hv. auto.
    + rewrite addOrJoinAll_joinRuns. reflexivity.
Qed.

Lemma iterateChapterParaContent_arrays :
  forall para gp parentAfter cn st,
    Forall (fun arr =>
              exists items,
                ParaItems para gp parentAfter items /\
                arr = trimContent (joinRuns items))
           (flat_map inlineArrayOf
              (fst (iterateChapterParaContent para gp parentAfter cn st))).
Proof.
  intros para gp parentAfter cn st. unfold iterateChapterParaContent.
  destruct (isSectionStyle (getAttribute "style" para)); [constructor|].
  destruct (styleIs (getAttribute "style" para) "b"); [constructor|].
  destruct (styleIs (getAttribute "style" para) "d") eqn:Hd.
  { unfold parseHebrewSubtitle.
    destruct (iterateHebrewSubtitleContent (childNodes para) cn st)
      as [items st1] eqn:E.
    simpl. constructor; [|constructor].
    exists items. split; [|rewrite addOrJoinAll_joinRuns; reflexivity].
    right. split; [exact Hd|]. exists cn, st. rewrite E. reflexivity. }
  destruct (noStyle (getAttribute "style" para)
            || negb (styleIgnored (getAttribute "style" para)));
    [|constructor].
  eapply Forall_impl;
    [|apply (iterateChapterParaVerseLoop_arrays para gp parentAfter
               (childNodes para) cn st)].
  intros arr (items & Hi & E). exists items. split; [left; exact Hi|exact E].
Qed.

Lemma ArrayFrom_app :
  forall u consumed siblings arr,
    ArrayFrom u siblings arr -> ArrayFrom u (consumed ++ siblings) arr.
Proof.
  intros u consumed siblings arr (before & para & after & items & E & H).
  exists (consumed ++ before), para, after, items.
  rewrite E, app_assoc. auto.
Qed.

Lemma iterateChapterContent_arrays :
  forall u siblings cn st,
    Forall (ArrayFrom u siblings)
           (flat_map inlineArrayOf
              (fst (fst (iterateChapterContent u siblings cn st)))).
Proof.
  intros u siblings. induction siblings as [|sibling rest IH]; intros cn st;
    simpl.
  - constructor.
  - assert (Hcons :
      forall st1,
        Forall (ArrayFrom u (sibling :: rest))
               (flat_map inlineArrayOf
                  (fst (fst (iterateChapterContent u rest cn st1))))).
    { intro st1. eapply Forall_impl; [|apply (IH cn st1)].
      intros arr. apply (ArrayFrom_app u [sibling]). }
    destruct (isElement sibling) eqn:He; simpl negb; cbv iota;
      [|apply Hcons].
    destruct (String.eqb (nodeName sibling) "para") eqn:Hp.
    { pose proof (iterateChapterParaContent_arrays sibling u rest cn st) as H1.
      destruct (iterateChapterParaContent sibling u rest cn st) as [c st1].
      specialize (Hcons st1).
      destruct (iterateChapterContent u rest cn st1) as [[more st2] rem].
      simpl in *. rewrite flat_map_app. apply Forall_app. split; [|exact Hcons].
      eapply Forall_impl; [|exact H1].
      intros arr (items & Hi & E).
      exists [], sibling, rest, items. apply String.eqb_eq in Hp. auto. }
    destruct (String.eqb (nodeName sibling) "chapter"); [constructor|].
    apply Hcons.
Qed.

Lemma RootRun_arrays :
  forall u children counter items counter',
    RootRun u children counter items counter' ->
    Forall (ArrayFrom u children)
      (flat_map (fun ch => flat_map inlineArrayOf (chapter_content ch))
                (chaptersOf items)).
Proof.
  intros u children counter items counter' R.
  induction R as [counter
                 |child rest counter content st remaining items counter'
                    He Hn Heid E R IH
                 |child rest counter items counter' He Hn Hs R IH
                 |child rest counter items counter' Hskip R IH].
  - constructor.
  - simpl. apply Forall_app. split.
    + pose proof (iterateChapterContent_arrays u rest (numberAttribute child)
                    {| noteCounter := counter; footnotes := [] |}) as H.
      rewrite E in H. simpl in H.
      eapply Forall_impl; [|exact H].
      intros arr. apply (ArrayFrom_app u [child]).
    + destruct (iterateChapterContent_remaining _ _ _ _ _ _ _ E)
        as [consumed ->].
      eapply Forall_impl; [|exact IH].
      intros arr. apply (ArrayFrom_app u (child :: consumed)).
  - simpl. eapply Forall_impl; [|exact IH].
    intros arr. apply (ArrayFrom_app u [child]).
  - eapply Forall_impl; [|exact IH].
    intros arr. apply (ArrayFrom_app u [child]).
Qed.

(** C2, as the code has it.  Every verse and subtitle content array of
    a parse tree is made from the items that the walk yields for that
    verse, or the child nodes of that subtitle, in two steps.  First the
    runs are joined: every maximal run of adjacent plain strings, and every
    maximal run of adjacent text objects of one formatting, becomes one
    entry with the concatenated text, which is what [addOrJoin]
    accumulates; at that point no two adjacent entries are both plain
    strings or both text objects of the same formatting, no text and no
    reference is lost, and a sequence without such neighbours is left as
    it is.  Then [trimContent] trims each entry and drops the emptied
    ones, after which no entry is empty; it changes white space only and
    joins nothing, so two such entries are adjacent in the array where an
    entry between them was dropped. *)
Theorem inline_arrays_trimmed_of_coalesced :
  (forall usx counter tree counter',
     parse usx counter = inr (tree, counter') ->
     Forall (fun arr =>
               ArrayFrom usx (childNodes usx) arr /\
               forallb nonEmptyEntry arr = true)
            (inlineArrays tree)) /\
  (forall items, addOrJoinAll items = joinRuns items) /\
  (forall items,
     coalesced (joinRuns items) = true /\
     payload (joinRuns items) = payload items /\
     refsOf (joinRuns items) = refsOf items) /\
  (forall items, coalesced items = true -> joinRuns items = items) /\
  (forall content,
     forallb normalEntry (trimContent content) = true /\
     nonWhite (payload (trimContent content)) = nonWhite (payload content) /\
     refsOf (trimContent content) = refsOf content).
Proof.
  split; [|split; [exact addOrJoinAll_joinRuns
                  |split; [exact joinRuns_facts
                          |split; [exact joinRuns_coalesced_fixed|]]]].
  2:{ intro content. split; [apply trimContent_normal|].
      split; [apply nonWhite_payload_trimContent|apply refsOf_trimContent]. }
  intros usx counter tree counter' H.
  apply parse_content, iterateRootContent_run in H.
  pose proof (RootRun_arrays _ _ _ _ _ H) as Ha.
  pose proof (RootRun_normalised _ _ _ _ _ H) as Hn.
  unfold inlineArrays. rewrite Forall_forall in *.
  intros arr Hin. split; [apply Ha, Hin|].
  destruct (Hn arr Hin) as [items ->]. apply trimContent_nonEmpty.
Qed.

Lemma inline_arrays_trimmed_of_coalesced_witness :
  (exists tree counter',
     parse emptiedSpan newParser = inr (tree, counter') /\
     Forall (fun arr =>
               ArrayFrom emptiedSpan (childNodes emptiedSpan) arr /\
               forallb nonEmptyEntry arr = true)
            (inlineArrays tree)) /\
  joinRuns [IString "a"; INoteRef 0 None; IString "b"]
  = [IString "a"; INoteRef 0 None; IString "b"].
Proof.
  split.
  - eexists. eexists. split; [vm_compute; reflexivity|].
    exact (proj1 inline_arrays_trimmed_of_coalesced emptiedSpan 0 _ 0 eq_refl).
  - exact (proj1 (proj2 (proj2 (proj2 inline_arrays_trimmed_of_coalesced)))
             [IString "a"; INoteRef 0 None; IString "b"] eq_refl).
Defined.
